(** * droid-apikey: the usage aggregation pipeline of [main.ts]

    A shallow embedding of the key masker, the date formatter, the
    single-credential usage client, the batch scheduler, the aggregator
    and the cached report read, followed by the properties the
    specification states about them.

    Conventions of the embedding.
    - A JavaScript string is a [string] (a sequence of code units); the
      [length], [substring] and concatenation of the source are the ones
      below.
    - A JavaScript number of the upstream body and of the report (a token
      count, a ratio, a timestamp of the usage window) is a [number]: an
      IEEE 754 double with its rounding, its infinities and NaN. The
      integers the program makes itself (an HTTP status, the reading of
      the clock, a delay, a count of keys) are a [Z] or a [nat].
    - A value typed [any] by the source (a request body, its [key]) is
      modelled by what the code looks at in it; a value typed by an
      interface of the source holds what the interface declares, or is
      missing or [null].
    - An [async] function is a function that returns its value together
      with the trace of the effects it performed (upstream calls, timer
      sleeps), in program order. *)

From Stdlib Require Import ZArith List String Ascii Bool Lia Arith.
From Stdlib Require Import Permutation Sorted DecimalString OrdersEx.
From Equations Require Import Equations.
Import ListNotations.

Open Scope string_scope.
Open Scope nat_scope.

(* ===================================================================== *)
(** ** Configuration *)
(* ===================================================================== *)

Module CONFIG.
Definition TIMEZONE_OFFSET_HOURS : Z := 8.
Definition KEY_MASK_PREFIX_LENGTH : Z := 4.
Definition KEY_MASK_SUFFIX_LENGTH : Z := 4.
Definition AUTO_REFRESH_INTERVAL_SECONDS : Z := 60.
End CONFIG.

(* ===================================================================== *)
(** ** JavaScript string primitives used by the source *)
(* ===================================================================== *)

(** An index argument of [String.prototype.substring] is clamped to
    [0 .. length]. *)
Definition clamp_index (len : nat) (i : Z) : nat :=
  Z.to_nat (Z.min (Z.max i 0) (Z.of_nat len)).

(** [s.substring(start, end)]: both indices are clamped, swapped when
    [start > end], and the code units in between are returned; a missing
    [end] stands for the length of the string. *)
Definition js_substring (s : string) (start : Z) (end_ : option Z) : string :=
  let len := String.length s in
  let a := clamp_index len start in
  let b := match end_ with
           | Some e => clamp_index len e
           | None => len
           end in
  String.substring (Nat.min a b) (Nat.max a b - Nat.min a b) s.

(** [t] occurs in [s] as a contiguous run of code units. *)
Definition is_substring (t s : string) : Prop :=
  exists pre post : string, s = pre ++ t ++ post.

(** [p] is an initial segment of [s]. *)
Definition starts_with (s p : string) : Prop :=
  exists rest : string, s = p ++ rest.

(* ===================================================================== *)
(** ** KeyMasker: [maskApiKey] *)
(* ===================================================================== *)

Definition maskApiKey (key : string) : string :=
  if (Z.of_nat (String.length key)
        <=? CONFIG.KEY_MASK_PREFIX_LENGTH + CONFIG.KEY_MASK_SUFFIX_LENGTH)%Z
  then js_substring key 0 (Some CONFIG.KEY_MASK_PREFIX_LENGTH) ++ "..."
  else js_substring key 0 (Some CONFIG.KEY_MASK_PREFIX_LENGTH) ++ "..."
       ++ js_substring key
            (Z.of_nat (String.length key) - CONFIG.KEY_MASK_SUFFIX_LENGTH) None.

(** The masker as the specification words it, for prefix length [P] and
    suffix length [S]: [secret[0:P] + "..."] when [len(secret) <= P+S],
    and [secret[0:P] + "..." + secret[len-S:]] otherwise. *)
Definition slice_to (P : nat) (s : string) : string := String.substring 0 P s.
Definition slice_from (n : nat) (s : string) : string :=
  String.substring n (String.length s - n) s.

Definition mask_spec (P S : nat) (secret : string) : string :=
  if String.length secret <=? P + S
  then slice_to P secret ++ "..."
  else slice_to P secret ++ "..." ++ slice_from (String.length secret - S) secret.

(* ===================================================================== *)
(** ** JavaScript numbers *)
(* ===================================================================== *)

Open Scope Z_scope.

(** A JavaScript number is an IEEE 754 double: NaN, one of the two
    infinities, or a finite value. Every finite double is an integer
    multiple of 2^-1074, the smallest positive double: [Finite n] is the
    double [n * 2^-1074]. The doubles are the [Finite n] with
    [round n = Finite n]: every [n] below 2^53 in magnitude (the
    subnormal doubles and the first binade), and beyond that the [n] of
    at most 53 significant bits below 2^1024. The two zeros are one
    value here: the source never divides by a number, and comparison,
    truthiness and [JSON.stringify] treat the two alike. *)
Inductive number :=
| NaN
| PosInfinity
| NegInfinity
| Finite (n : Z).

(** The number 1 is [Finite scale]. *)
Definition scale : Z := 2 ^ 1074.

Arguments scale : simpl never.

(** The double nearest to the exact value [x * 2^-1074], ties to the even
    significand: the rounding of every arithmetic operation. A value of at
    least 2^1024 after rounding is an infinity. *)
Definition round (x : Z) : number :=
  let a := Z.abs x in
  if a <? 2 ^ 53 then Finite x
  else
    let k := Z.log2 a - 52 in
    let q := a / 2 ^ k in
    let r := a mod 2 ^ k in
    let half := 2 ^ (k - 1) in
    let q' := if (half <? r) || ((half =? r) && Z.odd q) then q + 1 else q in
    if 2 ^ 2098 <=? q' * 2 ^ k
    then (if x <? 0 then NegInfinity else PosInfinity)
    else Finite (Z.sgn x * (q' * 2 ^ k)).

(** The number that an integer literal or an integer of a JSON text
    denotes. *)
Definition of_Z (z : Z) : number := round (z * scale).

Arguments round : simpl never.
Arguments of_Z : simpl never.

(** [x + y] *)
Definition js_add (x y : number) : number :=
  match x, y with
  | NaN, _ | _, NaN => NaN
  | PosInfinity, NegInfinity | NegInfinity, PosInfinity => NaN
  | PosInfinity, _ | _, PosInfinity => PosInfinity
  | NegInfinity, _ | _, NegInfinity => NegInfinity
  | Finite a, Finite b => round (a + b)
  end.

(** [- x] *)
Definition js_neg (x : number) : number :=
  match x with
  | NaN => NaN
  | PosInfinity => NegInfinity
  | NegInfinity => PosInfinity
  | Finite a => Finite (- a)
  end.

(** [x - y] *)
Definition js_sub (x y : number) : number := js_add x (js_neg y).

(** [x < y]: false when one of the two is NaN. *)
Definition js_lt (x y : number) : bool :=
  match x, y with
  | NaN, _ | _, NaN => false
  | _, NegInfinity => false
  | NegInfinity, _ => true
  | PosInfinity, _ => false
  | _, PosInfinity => true
  | Finite a, Finite b => a <? b
  end.

(** [Math.max(x, y)]: NaN when one of the two is NaN. *)
Definition Math_max (x y : number) : number :=
  match x, y with
  | NaN, _ | _, NaN => NaN
  | _, _ => if js_lt x y then y else x
  end.

(** The truthiness of a number: 0 and NaN are falsy. *)
Definition js_truthy (x : number) : bool :=
  match x with
  | NaN => false
  | Finite n => negb (n =? 0)
  | _ => true
  end.

(** [x === 0] *)
Definition is_zero (x : number) : bool :=
  match x with
  | Finite n => n =? 0
  | _ => false
  end.

Close Scope Z_scope.

(* ===================================================================== *)
(** ** JavaScript dates *)
(* ===================================================================== *)

(** [n.toString()] (and the interpolation of a number in a template
    literal) for an integer. *)
Definition js_toString (n : Z) : string :=
  DecimalString.NilZero.string_of_int (Z.to_int n).

Open Scope Z_scope.

(** The character of the last decimal digit of [d]; "0" has code 48. *)
Definition digit_char (d : Z) : ascii :=
  ascii_of_nat (48 + Z.to_nat (d mod 10))%nat.

(** The last [width] decimal digits of [n], zero-padded on the left. *)
Fixpoint pad_digits (width : nat) (n : Z) : string :=
  match width with
  | O => ""
  | S w => pad_digits w (n / 10) ++ String (digit_char n) ""
  end.

(** [n.toString().padStart(2, '0')] *)
Definition pad (n : Z) : string :=
  let s := js_toString n in
  if (String.length s <? 2)%nat
  then pad_digits (2 - String.length s)%nat 0 ++ s else s.

Definition msPerDay : Z := 86400000.

(** [TimeClip]: a time value is valid up to 8.64e15 ms either side of the
    epoch; beyond it the [Date] is invalid. *)
Definition time_valid (t : Z) : bool :=
  Z.abs t <=? 8640000000000000.

(** The year, month (1..12) and day of the month (1..31) that [Date] gives,
    in UTC, to the day that lies [days] days after 1970-01-01: the date of
    the proleptic Gregorian calendar, computed era by era (an era is 400
    years, 146097 days, and starts on a 1st of March). *)
Definition civil_from_days (days : Z) : Z * Z * Z :=
  let z := days + 719468 in
  let era := z / 146097 in
  let doe := z - era * 146097 in
  let yoe := (doe - doe / 1460 + doe / 36524 - doe / 146096) / 365 in
  let doy := doe - (365 * yoe + yoe / 4 - yoe / 100) in
  let mp := (5 * doy + 2) / 153 in
  let d := doy - (153 * mp + 2) / 5 + 1 in
  let m := if mp <? 10 then mp + 3 else mp - 9 in
  let y := yoe + era * 400 + (if m <=? 2 then 1 else 0) in
  (y, m, d).

(** The day number (days after 1970-01-01) of a date of the proleptic
    Gregorian calendar; [civil_from_days] is its inverse
    ([civil_from_days_spec]). *)
Definition days_from_civil (y m d : Z) : Z :=
  let y' := if m <=? 2 then y - 1 else y in
  let era := y' / 400 in
  let yoe := y' - era * 400 in
  let mp := if m <=? 2 then m + 9 else m - 3 in
  let doy := (153 * mp + 2) / 5 + d - 1 in
  let doe := yoe * 365 + yoe / 4 - yoe / 100 + doy in
  era * 146097 + doe - 719468.

(** The year of an ISO date: four digits for the years 0 to 9999, and a sign
    followed by six digits otherwise. *)
Definition iso_year (y : Z) : string :=
  if (0 <=? y) && (y <=? 9999) then pad_digits 4 y
  else if y <? 0 then "-" ++ pad_digits 6 (- y)
  else "+" ++ pad_digits 6 y.

Definition iso_date (t : Z) : string :=
  let '(y, m, d) := civil_from_days (t / msPerDay) in
  iso_year y ++ "-" ++ pad_digits 2 m ++ "-" ++ pad_digits 2 d.

Definition iso_time (t : Z) : string :=
  let ms := t mod msPerDay in
  pad_digits 2 (ms / 3600000) ++ ":" ++ pad_digits 2 (ms / 60000 mod 60)
  ++ ":" ++ pad_digits 2 (ms / 1000 mod 60) ++ "." ++ pad_digits 3 (ms mod 1000).

(** [new Date(t).toISOString()]: [None] stands for the [RangeError] thrown
    on an invalid date. *)
Definition js_toISOString (t : Z) : option string :=
  if time_valid t then Some (iso_date t ++ "T" ++ iso_time t ++ "Z") else None.

(** [s.split('T')[0]]: the code units before the first "T". *)
Fixpoint split_T_first (s : string) : string :=
  match s with
  | EmptyString => ""
  | String c s' => if Ascii.eqb c "T" then "" else String c (split_T_first s')
  end.

(** [new Date(t)] for a number [t]: the time value of the date,
    [TimeClip(t)]. A number that is not finite or lies beyond 8.64e15 ms
    gives an invalid date ([None]); a fraction of a millisecond is cut
    off towards zero. *)
Definition TimeClip (t : number) : option Z :=
  match t with
  | Finite n =>
      if Z.abs n <=? 8640000000000000 * scale then Some (Z.quot n scale)
      else None
  | _ => None
  end.

(** [formatDate]: [None] is a [null] or [undefined] timestamp. The test
    [!timestamp && timestamp !== 0] also holds for NaN. *)
Definition formatDate (timestamp : option number) : string :=
  match timestamp with
  | None => "N/A"
  | Some t =>
      if negb (js_truthy t) && negb (is_zero t) then "N/A"
      else
        match TimeClip t with
        | None => "Invalid Date"
        | Some time =>
            match js_toISOString time with
            | Some iso => split_T_first iso
            | None => "Invalid Date"
            end
        end
  end.

(** [getBeijingTime], from the reading [now] of [Date.now()]: the time the
    [Date] is made from. *)
Definition getBeijingTime (now : Z) : Z :=
  now + CONFIG.TIMEZONE_OFFSET_HOURS * 60 * 60 * 1000.

(** [formatDateTime] of the [Date] made from the time [date]; the
    local-time getters of the source read the date in the runtime's time
    zone, which is UTC on the Workers platform. Beyond the range of valid
    times the [Date] is invalid and every getter gives NaN. *)
Definition formatDateTime (date : Z) : string :=
  if time_valid date then
    let '(y, m, d) := civil_from_days (date / msPerDay) in
    let ms := date mod msPerDay in
    js_toString y ++ "-" ++ pad m ++ "-" ++ pad d ++ " "
    ++ pad (ms / 3600000) ++ ":" ++ pad (ms / 60000 mod 60) ++ ":"
    ++ pad (ms / 1000 mod 60)
  else "NaN-NaN-NaN NaN:NaN:NaN".

Close Scope Z_scope.

(** The timestamps whose UTC year lies in 0000..9999: from
    0000-01-01T00:00:00.000Z to 9999-12-31T23:59:59.999Z. *)
Definition four_digit_year_time (t : Z) : Prop :=
  (-62167219200000 <= t <= 253402300799999)%Z.

(** The proleptic Gregorian calendar: the leap years, the lengths of the
    months, and the dates that exist. *)
Definition leap_year (y : Z) : bool :=
  ((y mod 4 =? 0) && (negb (y mod 100 =? 0) || (y mod 400 =? 0)))%Z.

Definition days_in_month (y m : Z) : Z :=
  if (m =? 2)%Z then (if leap_year y then 29 else 28)%Z
  else if ((m =? 4) || (m =? 6) || (m =? 9) || (m =? 11))%Z then 30%Z
  else 31%Z.

Definition calendar_date (y m d : Z) : Prop :=
  (1 <= m <= 12)%Z /\ (1 <= d <= days_in_month y m)%Z.

(** The time [t] (ms since the epoch) falls on the day [d] of the month [m]
    of the year [y], in UTC. *)
Definition utc_date (t : Z) (y m d : Z) : Prop :=
  calendar_date y m d /\ days_from_civil y m d = (t / msPerDay)%Z.

(** [s] is the text YYYY-MM-DD of the UTC calendar date on which [t] falls. *)
Definition renders_utc_date (t : Z) (s : string) : Prop :=
  exists y m d : Z,
    utc_date t y m d
    /\ (0 <= y <= 9999)%Z
    /\ s = pad_digits 4 y ++ "-" ++ pad_digits 2 m ++ "-" ++ pad_digits 2 d
    /\ String.length s = 10.

(** [s] is the same date with the year written as a sign and six digits. *)
Definition renders_expanded_date (t : Z) (s : string) : Prop :=
  exists (y m d : Z) (sign : string),
    utc_date t y m d
    /\ ((y < 0)%Z /\ sign = "-" \/ (9999 < y)%Z /\ sign = "+")
    /\ s = sign ++ pad_digits 6 (Z.abs y) ++ "-" ++ pad_digits 2 m
           ++ "-" ++ pad_digits 2 d.

(** No code unit of [s] is a "T". *)
Fixpoint no_T (s : string) : bool :=
  match s with
  | EmptyString => true
  | String c s' => negb (Ascii.eqb c "T") && no_T s'
  end.

(* ===================================================================== *)
(** ** Data model *)
(* ===================================================================== *)

Record ApiKey := { ApiKey_id : string; ApiKey_key : string }.

Record ApiUsageData := {
  usage_id : string;
  usage_key : string;
  startDate : string;
  endDate : string;
  orgTotalTokensUsed : number;
  totalAllowance : number;
  usedRatio : number
}.

Record ApiErrorData := {
  error_id : string;
  error_key : string;
  error : string
}.

(** [ApiKeyResult = ApiUsageData | ApiErrorData]; the source tells the two
    apart by the presence of the [error] property. *)
Inductive ApiKeyResult :=
| Usage (d : ApiUsageData)
| Failure (e : ApiErrorData).

Definition result_id (r : ApiKeyResult) : string :=
  match r with Usage d => usage_id d | Failure e => error_id e end.

Definition result_key (r : ApiKeyResult) : string :=
  match r with Usage d => usage_key d | Failure e => error_key e end.

(** ['error' in result] *)
Definition has_error (r : ApiKeyResult) : bool :=
  match r with Usage _ => false | Failure _ => true end.

Definition isApiUsageData (r : ApiKeyResult) : bool := negb (has_error r).

Record UsageTotals := {
  total_orgTotalTokensUsed : number;
  total_totalAllowance : number;
  totalRemaining : number
}.

Record AggregatedResponse := {
  update_time : string;
  total_count : nat;
  totals : UsageTotals;
  data : list ApiKeyResult
}.

(** The upstream body, as far as [fetchApiKeyData] looks at it: a JSON
    value other than [null] that [response.json()] has yielded.
    - [usage] is [None] when the property is missing or is not an object
      ([null], a number, a text, a boolean), so that [usage?.standard] is
      [undefined]; this is also the case of a body that is not an object
      (a number, a text, a boolean, an array).
    - [standard] is [None] when the property is missing or falsy ([null],
      [false], 0, the empty text). A [standard] that is truthy but not an
      object has no fields: it is a [Standard] whose three fields are
      [None].
    - A number field is [None] when the property is missing or [null],
      and holds the number otherwise, as the interface [ApiResponse]
      declares it (a JSON text denotes a finite number or, when its
      magnitude is 2^1024 or more, an infinity). *)
Module Upstream.
Record Standard := {
  orgTotalTokensUsed : option number;
  totalAllowance : option number;
  usedRatio : option number
}.
Record Usage := {
  startDate : option number;
  endDate : option number;
  standard : option Standard
}.
Record ApiResponse := { usage : option Usage }.
End Upstream.

(** [v || 0] on an optional number: a missing value and the falsy numbers
    0 and NaN give 0. *)
Definition or_zero (v : option number) : number :=
  match v with
  | Some n => if js_truthy n then n else Finite 0
  | None => Finite 0
  end.

(* ===================================================================== *)
(** ** UsageClient: [fetchApiKeyData] *)
(* ===================================================================== *)

(** What one call of [fetch] and the reading of its body come to: either
    [fetch] rejects (network error, timeout), or a response arrives with
    its status. Its [body] is [None] when the reading of the body throws:
    [response.json()] rejects (the body is not a JSON text), or it yields
    [null], whose destructuring [const { usage } = apiData] throws a
    [TypeError]. Every other JSON value is a [Some]. *)
Inductive FetchOutcome :=
| FetchRejected
| FetchResponse (status : Z) (body : option Upstream.ApiResponse).

(** [response.ok] *)
Definition response_ok (status : Z) : bool :=
  (200 <=? status)%Z && (status <=? 299)%Z.

(** The effects of the client, in program order: a GET to the upstream
    endpoint with the header [Authorization: Bearer bearer], and a
    [setTimeout] wait. *)
Inductive Effect :=
| UpstreamCall (bearer : string)
| Sleep (ms : Z).

Definition maxRetries : nat := 2.

(** Lines 193-209: the result built from a parsed 2xx body. *)
Definition result_of_body (id maskedKey : string) (apiData : Upstream.ApiResponse)
  : ApiKeyResult :=
  match Upstream.usage apiData with
  | None =>
      Failure {| error_id := id; error_key := maskedKey;
                 error := "Invalid API response" |}
  | Some usage =>
      match Upstream.standard usage with
      | None =>
          Failure {| error_id := id; error_key := maskedKey;
                     error := "Invalid API response" |}
      | Some standard =>
          Usage {| usage_id := id;
                   usage_key := maskedKey;
                   startDate := formatDate (Upstream.startDate usage);
                   endDate := formatDate (Upstream.endDate usage);
                   orgTotalTokensUsed := or_zero (Upstream.orgTotalTokensUsed standard);
                   totalAllowance := or_zero (Upstream.totalAllowance standard);
                   usedRatio := or_zero (Upstream.usedRatio standard) |}
      end
  end.

(** The continuation of a retry: the wait and the recursive call follow the
    upstream call that was answered 401. *)
Definition after_retry (key : string) (delayMs : Z)
  (rest : ApiKeyResult * list Effect) : ApiKeyResult * list Effect :=
  (fst rest, UpstreamCall key :: Sleep delayMs :: snd rest).

Section UsageClient.

(** The upstream service: the outcome of the call made for a secret on its
    attempt number [retryCount]. *)
Variable upstream : string -> nat -> FetchOutcome.

Equations? fetchApiKeyData (id key : string) (retryCount : nat)
  : ApiKeyResult * list Effect by wf (maxRetries - retryCount) lt :=
fetchApiKeyData id key retryCount with upstream key retryCount := {
  | FetchRejected :=
      (Failure {| error_id := id; error_key := maskApiKey key;
                  error := "Failed to fetch" |},
       [UpstreamCall key]);
  | FetchResponse status body with response_ok status := {
    | false with Z.eqb status 401, lt_dec retryCount maxRetries := {
      | true, left _ :=
          after_retry key ((Z.of_nat retryCount + 1) * 1000)
            (fetchApiKeyData id key (retryCount + 1));
      | _, _ :=
          (Failure {| error_id := id; error_key := maskApiKey key;
                      error := "HTTP " ++ js_toString status |},
           [UpstreamCall key]) };
    | true with body := {
      | None :=
          (Failure {| error_id := id; error_key := maskApiKey key;
                      error := "Failed to fetch" |},
           [UpstreamCall key]);
      | Some apiData :=
          (result_of_body id (maskApiKey key) apiData, [UpstreamCall key]) } } }.
Proof.
  unfold maxRetries in *.
  destruct retryCount as [|[|n]]; simpl; lia.
Qed.

End UsageClient.

(** The number of upstream calls and the waits of a trace. *)
Definition upstream_calls (tr : list Effect) : nat :=
  List.length (filter (fun e => match e with UpstreamCall _ => true | _ => false end) tr).

Fixpoint sleeps (tr : list Effect) : list Z :=
  match tr with
  | [] => []
  | Sleep ms :: tr' => ms :: sleeps tr'
  | UpstreamCall _ :: tr' => sleeps tr'
  end.

(* ===================================================================== *)
(** ** BatchScheduler: [batchProcess] *)
(* ===================================================================== *)

Open Scope list_scope.

(** [items.slice(a, b)] for indices [0 <= a <= b]. *)
Definition js_slice {T : Type} (items : list T) (a b : nat) : list T :=
  firstn (b - a) (skipn a items).

Section BatchScheduler.

Context {T R E : Type}.

(** What the scheduler does, in program order: it starts the processors of
    a batch together, resumes once every one of them has settled (their
    own effects, one trace per processor, lie in between), and waits
    between batches. *)
Inductive BatchEvent :=
| BatchStart (batch : list T)
| BatchSettled (traces : list (list E))
| BatchDelay (ms : Z).

(** A processor returns its result and the trace of its own effects; what
    it comes to for an item is taken to be a function of the item. *)
Variable processor : T -> R * list E.

(** The [for] loop of [batchProcess], from the loop variable [i] on; one
    unit of [fuel] is spent per iteration, and [None] is a loop that has
    not come to its end within [fuel] iterations. *)
Fixpoint batchLoop (fuel : nat) (items : list T) (concurrency : nat)
  (delayMs : Z) (i : nat) (results : list R) (trace : list BatchEvent)
  : option (list R * list BatchEvent) :=
  if i <? List.length items then
    match fuel with
    | O => None
    | S fuel' =>
        let batch := js_slice items i (i + concurrency) in
        let settled := map processor batch in
        let results' := results ++ map fst settled in
        let trace' := trace ++ [BatchStart batch; BatchSettled (map snd settled)] in
        let trace'' :=
          if i + concurrency <? List.length items
          then trace' ++ [BatchDelay delayMs] else trace' in
        batchLoop fuel' items concurrency delayMs (i + concurrency) results' trace''
    end
  else Some (results, trace).

(** [batchProcess]: for a concurrency of at least 1 the loop ends within
    [items.length] iterations (see [batchProcess_returns]); for a
    concurrency of 0 and a non-empty [items] it never ends (see
    [batchLoop_zero_concurrency]). *)
Definition batchProcess (items : list T) (concurrency : nat) (delayMs : Z)
  : option (list R * list BatchEvent) :=
  batchLoop (List.length items) items concurrency delayMs 0 [] [].

(** The scheduler as the specification words it: the items are cut into
    consecutive chunks of size [concurrency], every chunk is run and
    awaited as a whole, and one delay lies between two consecutive
    chunks. *)
Fixpoint chunks (fuel : nat) (concurrency : nat) (items : list T) : list (list T) :=
  match fuel, items with
  | _, [] => []
  | O, _ => []
  | S fuel', _ =>
      firstn concurrency items :: chunks fuel' concurrency (skipn concurrency items)
  end.

Definition run_chunk (chunk : list T) : list BatchEvent :=
  [BatchStart chunk; BatchSettled (map (fun x => snd (processor x)) chunk)].

Fixpoint schedule (delayMs : Z) (cs : list (list T)) : list BatchEvent :=
  match cs with
  | [] => []
  | [c] => run_chunk c
  | c :: cs' => run_chunk c ++ BatchDelay delayMs :: schedule delayMs cs'
  end.

Definition delays (trace : list BatchEvent) : list Z :=
  flat_map (fun e => match e with BatchDelay ms => [ms] | _ => [] end) trace.

End BatchScheduler.

Arguments BatchEvent : clear implicits.

(* ===================================================================== *)
(** ** Aggregator: the report of [getAggregatedData] *)
(* ===================================================================== *)

Section Sort.

Context {A : Type}.
Variable comparefn : A -> A -> number.

(** [Array.prototype.sort(comparefn)] is a stable sort: [x] is moved behind
    [y] only when [comparefn(x, y)] is positive; a result that is 0,
    negative or NaN (which the sort reads as 0) leaves [x] in front.
    Insertion from the right is such a sort. When [comparefn] is not a
    consistent comparison of the elements (which takes a NaN result) the
    language leaves the order to the engine; insertion is then one of the
    orders an engine may give, and no property of the order is stated for
    that case. *)
Fixpoint sort_insert (x : A) (l : list A) : list A :=
  match l with
  | [] => [x]
  | y :: l' =>
      if js_lt (Finite 0) (comparefn x y) then y :: sort_insert x l'
      else x :: y :: l'
  end.

Fixpoint js_sort (l : list A) : list A :=
  match l with
  | [] => []
  | x :: l' => sort_insert x (js_sort l')
  end.

End Sort.

(** [results.filter(isApiUsageData)], with the narrowing of its type. *)
Fixpoint usage_results (results : list ApiKeyResult) : list ApiUsageData :=
  match results with
  | [] => []
  | Usage d :: rest => d :: usage_results rest
  | Failure _ :: rest => usage_results rest
  end.

(** [Math.max(0, r.totalAllowance - r.orgTotalTokensUsed)] *)
Definition remaining (r : ApiUsageData) : number :=
  Math_max (Finite 0) (js_sub (totalAllowance r) (orgTotalTokensUsed r)).

Definition emptyTotals : UsageTotals :=
  {| total_orgTotalTokensUsed := Finite 0;
     total_totalAllowance := Finite 0;
     totalRemaining := Finite 0 |}.

Definition emptyResponse (beijingTime : Z) : AggregatedResponse :=
  {| update_time := formatDateTime beijingTime;
     total_count := 0;
     totals := emptyTotals;
     data := [] |}.

(** Lines 236-240. *)
Definition sortedValid (validResults : list ApiUsageData) : list ApiUsageData :=
  map fst
    (js_sort (fun a b => js_sub (snd b) (snd a))
       (map (fun r => (r, remaining r)) validResults)).

(** Lines 242-246. *)
Definition sum_totals (validResults : list ApiUsageData) : UsageTotals :=
  fold_left
    (fun acc res =>
       {| total_orgTotalTokensUsed :=
            js_add (total_orgTotalTokensUsed acc) (orgTotalTokensUsed res);
          total_totalAllowance :=
            js_add (total_totalAllowance acc) (totalAllowance res);
          totalRemaining :=
            js_add (totalRemaining acc)
              (Math_max (Finite 0)
                 (js_sub (totalAllowance res) (orgTotalTokensUsed res))) |})
    validResults emptyTotals.

(** Lines 236-253: the report built from the key pairs and their results. *)
Definition aggregate (beijingTime : Z) (keyPairs : list ApiKey)
  (results : list ApiKeyResult) : AggregatedResponse :=
  let validResults := usage_results results in
  {| update_time := formatDateTime beijingTime;
     total_count := List.length keyPairs;
     totals := sum_totals validResults;
     data := map Usage (sortedValid validResults) ++ filter has_error results |}.

(** The value stored under "cache:data" and the absolute time (ms) at which
    the store drops it. The store keeps the text [JSON.stringify(report)],
    and a read parses it; a report in the cache slot or in the body of a
    response stands for that text. (The text writes a number that is not
    finite as [null], so that two reports which differ only in such
    numbers stand for the same text.) *)
Record CacheEntry := { cached : AggregatedResponse; expiresAt : Z }.

(** The key-value namespace [API_KEYS]: the entries under the prefix
    "api_keys:" as (id, value) pairs in listing order, and the slot
    "cache:data". *)
Record KVNamespace := {
  api_keys : list (string * string);
  cache_data : option CacheEntry
}.

(** [getAllKeys]: an entry whose value is falsy (the empty string) is
    skipped. *)
Definition getAllKeys (kv : KVNamespace) : list ApiKey :=
  map (fun e => {| ApiKey_id := fst e; ApiKey_key := snd e |})
      (filter (fun e => negb (String.eqb (snd e) "")) (api_keys kv)).

(** What an aggregation run does: nothing, or one run of the scheduler. *)
Inductive RunEvent :=
| SchedulerRun (events : list (BatchEvent ApiKey Effect)).

Definition batch_upstream_calls (e : BatchEvent ApiKey Effect) : nat :=
  match e with
  | BatchSettled traces => list_sum (map upstream_calls traces)
  | _ => 0
  end.

Definition run_upstream_calls (tr : list RunEvent) : nat :=
  list_sum (map (fun e => match e with
                          | SchedulerRun evs => list_sum (map batch_upstream_calls evs)
                          end) tr).

Definition scheduler_runs (tr : list RunEvent) : nat := List.length tr.

(** Modelled from the spec: the [get] and [put] of the key-value store are
    platform code. [put] with [expirationTtl] (seconds) stores the value
    with the absolute expiry now + ttl; [get] returns the stored value
    only while it has not expired, and nothing otherwise. *)
Definition kv_get_cache (kv : KVNamespace) (now : Z) : option AggregatedResponse :=
  match cache_data kv with
  | Some e => if (now <? expiresAt e)%Z then Some (cached e) else None
  | None => None
  end.

Definition kv_put_cache (kv : KVNamespace) (value : AggregatedResponse)
  (expirationTtl : Z) (now : Z) : KVNamespace :=
  {| api_keys := api_keys kv;
     cache_data := Some {| cached := value;
                           expiresAt := (now + expirationTtl * 1000)%Z |} |}.

(** [getCachedData] and [setCachedData], at the reading [now] of the clock
    of the store. *)
Definition getCachedData (kv : KVNamespace) (now : Z) : option AggregatedResponse :=
  kv_get_cache kv now.

Definition setCachedData (kv : KVNamespace) (data : AggregatedResponse) (now : Z)
  : KVNamespace :=
  kv_put_cache kv data (CONFIG.AUTO_REFRESH_INTERVAL_SECONDS * 2)%Z now.

Inductive ResponseBody :=
| JsonData (report : AggregatedResponse)
| JsonError (message : string).

Record Response := { status : Z; body : ResponseBody }.

Definition createJsonResponse (report : AggregatedResponse) : Response :=
  {| status := 200; body := JsonData report |}.

(* ===================================================================== *)
(** ** Orchestrator: [getAggregatedData] and [handleGetData] *)
(* ===================================================================== *)

Section Orchestrator.

Variable upstream : string -> nat -> FetchOutcome.

(** [getAggregatedData], at the reading [now] of [Date.now()]; [None] is a
    scheduler that does not return. *)
Definition getAggregatedData (kv : KVNamespace) (now : Z)
  : option (AggregatedResponse * list RunEvent) :=
  let keyPairs := getAllKeys kv in
  let beijingTime := getBeijingTime now in
  if Nat.eqb (List.length keyPairs) 0 then Some (emptyResponse beijingTime, [])
  else
    match batchProcess
            (fun p => fetchApiKeyData upstream (ApiKey_id p) (ApiKey_key p) 0)
            keyPairs 10 100 with
    | None => None
    | Some (results, events) =>
        Some (aggregate beijingTime keyPairs results, [SchedulerRun events])
    end.

(** [handleGetData]; the three readings of the clock are the times of the
    cache read, of the aggregation run and of the cache write. The
    outcome is the response, the store afterwards and the effects. The
    operations of the store do not throw in this model, so the [catch]
    branch of the source is not reached. *)
Definition handleGetData (kv : KVNamespace) (t_get t_run t_put : Z)
  : option (Response * KVNamespace * list RunEvent) :=
  match getCachedData kv t_get with
  | Some cachedData => Some (createJsonResponse cachedData, kv, [])
  | None =>
      match getAggregatedData kv t_run with
      | None => None
      | Some (fresh, tr) =>
          Some (createJsonResponse fresh, setCachedData kv fresh t_put, tr)
      end
  end.

End Orchestrator.

(* ===================================================================== *)
(** ** Main worker handler: the routing of [fetch] *)
(* ===================================================================== *)

(** [s.startsWith(p)] is [String.prefix p s]; [s] ends with [suffix]. *)
Definition ends_with (s suffix : string) : bool :=
  (String.length suffix <=? String.length s)
  && String.eqb (slice_from (String.length s - String.length suffix) s) suffix.

(** No code unit of [s] is a line feed or a carriage return: the code units
    that "." of a regular expression does not match. *)
Fixpoint no_line_terminator (s : string) : bool :=
  match s with
  | EmptyString => true
  | String c s' =>
      negb (Ascii.eqb c "010") && negb (Ascii.eqb c "013")
      && no_line_terminator s'
  end.

(** [pathname.match(/^\/api\/keys\/.+\/refresh$/)]: the path starts with
    "/api/keys/", ends with "/refresh", and what lies in between is not
    empty and has no line terminator. *)
Definition matches_refresh (pathname : string) : bool :=
  String.prefix "/api/keys/" pathname
  && ends_with pathname "/refresh"
  && (19 <=? String.length pathname)
  && no_line_terminator
       (String.substring 10 (String.length pathname - 18) pathname).

(** Where [fetch] hands a request: the answers it gives itself (the CORS
    preflight, the dashboard page, "Not Found") and the route handlers. *)
Inductive Route :=
| RoutePreflight
| RouteDashboard
| RouteGetData
| RouteGetKeys
| RouteAddKeys
| RouteBatchDeleteKeys
| RouteExportKeys
| RouteDeleteKey
| RouteRefreshSingleKey
| RouteNotFound.

(** The chain of tests of [fetch], on the method of the request and the
    pathname of its URL. *)
Definition route (method pathname : string) : Route :=
  if String.eqb method "OPTIONS" then RoutePreflight
  else if String.eqb pathname "/" then RouteDashboard
  else if String.eqb pathname "/api/data" && String.eqb method "GET"
  then RouteGetData
  else if String.eqb pathname "/api/keys" && String.eqb method "GET"
  then RouteGetKeys
  else if String.eqb pathname "/api/keys" && String.eqb method "POST"
  then RouteAddKeys
  else if String.eqb pathname "/api/keys/batch-delete" && String.eqb method "POST"
  then RouteBatchDeleteKeys
  else if String.eqb pathname "/api/keys/export" && String.eqb method "POST"
  then RouteExportKeys
  else if String.prefix "/api/keys/" pathname && String.eqb method "DELETE"
  then RouteDeleteKey
  else if matches_refresh pathname && String.eqb method "POST"
  then RouteRefreshSingleKey
  else RouteNotFound.

(* ===================================================================== *)
(** ** Vocabulary of the properties, and sample data *)
(* ===================================================================== *)

Definition invalid_api_response (id key : string) : ApiKeyResult :=
  Failure {| error_id := id; error_key := maskApiKey key;
             error := "Invalid API response" |}.

Definition failed_to_fetch (id key : string) : ApiKeyResult :=
  Failure {| error_id := id; error_key := maskApiKey key;
             error := "Failed to fetch" |}.

Definition http_failure (id key : string) (status : Z) : ApiKeyResult :=
  Failure {| error_id := id; error_key := maskApiKey key;
             error := ("HTTP " ++ js_toString status)%string |}.

(** [usage?.standard] *)
Definition usage_standard (apiData : Upstream.ApiResponse)
  : option Upstream.Standard :=
  match Upstream.usage apiData with
  | Some usage => Upstream.standard usage
  | None => None
  end.

(** Sample upstream bodies and services for the worked examples. *)
Definition sample_body (startDate endDate : option Z) (used allowance : option Z)
  : Upstream.ApiResponse :=
  {| Upstream.usage :=
       Some {| Upstream.startDate := option_map of_Z startDate;
               Upstream.endDate := option_map of_Z endDate;
               Upstream.standard :=
                 Some {| Upstream.orgTotalTokensUsed := option_map of_Z used;
                         Upstream.totalAllowance := option_map of_Z allowance;
                         Upstream.usedRatio := None |} |} |}.

(** Answers 401 to the first two attempts and 200 to the third. *)
Definition upstream_401_401_200 (key : string) (attempt : nat) : FetchOutcome :=
  if attempt <? 2 then FetchResponse 401 None
  else FetchResponse 200
         (Some (sample_body (Some 1709164800000%Z) None (Some 100%Z) (Some 500%Z))).

(** Answers 200 with a window that starts in the year 10000. *)
Definition upstream_year_10000 (key : string) (attempt : nat) : FetchOutcome :=
  FetchResponse 200
    (Some (sample_body (Some 253402300800000%Z) None (Some 100%Z) (Some 500%Z))).

(** The results of the key pairs, in their order: what the scheduler hands
    to the aggregation. *)
Definition fetch_all (upstream : string -> nat -> FetchOutcome)
  (keyPairs : list ApiKey) : list ApiKeyResult :=
  map (fun p => fst (fetchApiKeyData upstream (ApiKey_id p) (ApiKey_key p) 0))
      keyPairs.

Definition sumZ (l : list Z) : Z := fold_right Z.add 0%Z l.

(** The comparator [(a, b) => key(b) - key(a)]: descending by [key]. *)
Definition descending {A : Type} (key : A -> number) (a b : A) : number :=
  js_sub (key b) (key a).

(** The success entries and the failure entries of a list of results, in
    their order. *)
Definition successes_of (results : list ApiKeyResult) : list ApiUsageData :=
  flat_map (fun r => match r with Usage d => [d] | Failure _ => [] end) results.


(** The sort key of the specification, remaining = max(0, allowance - used),
    as a double: for finite numbers the double nearest to the exact value,
    for an infinity the limit, and NaN where the difference is undefined
    (a NaN operand, or two infinities of one sign). *)
Definition remaining_key (d : ApiUsageData) : number :=
  match totalAllowance d, orgTotalTokensUsed d with
  | Finite a, Finite u => round (Z.max 0 (a - u))
  | PosInfinity, Finite _ | PosInfinity, NegInfinity
  | Finite _, NegInfinity => PosInfinity
  | NegInfinity, Finite _ | NegInfinity, PosInfinity
  | Finite _, PosInfinity => Finite 0
  | _, _ => NaN
  end.






(** A number that is not less than 0: a number that is not negative, or
    NaN. *)
Definition not_negative (x : number) : Prop := js_lt x (Finite 0) = false.

(** The success entries of [results] hold the integers [ints], pairs of
    (used, allowance) in their order, which are not negative and whose
    exact sums are at most 2^53. *)
Definition integer_entries (results : list ApiKeyResult) (ints : list (Z * Z))
  : Prop :=
  map (fun d => (orgTotalTokensUsed d, totalAllowance d)) (successes_of results)
  = map (fun p => (of_Z (fst p), of_Z (snd p))) ints
  /\ Forall (fun p => (0 <= fst p)%Z /\ (0 <= snd p)%Z) ints
  /\ (sumZ (map fst ints) <= 2 ^ 53)%Z
  /\ (sumZ (map snd ints) <= 2 ^ 53)%Z.

(** The trace of a fetch that has waited [waits] in turn: a call, and after
    every wait one more call. *)
Fixpoint alternating (key : string) (waits : list Z) : list Effect :=
  match waits with
  | [] => [UpstreamCall key]
  | w :: ws => UpstreamCall key :: Sleep w :: alternating key ws
  end.

(** A success entry whose two token counts are the integers [used] and
    [allowance]. *)
Definition holds_integers (d : ApiUsageData) (used allowance : Z) : Prop :=
  orgTotalTokensUsed d = of_Z used /\ totalAllowance d = of_Z allowance.

(** Sample success entries: an allowance of 2^53 with nothing used, an
    allowance of 2^53 + 2 with one token used, and an allowance of one
    token. *)
Definition sample_tie_first : ApiUsageData :=
  {| usage_id := "b"; usage_key := "B-se...-key";
     startDate := "N/A"; endDate := "N/A";
     orgTotalTokensUsed := of_Z 0; totalAllowance := of_Z (2 ^ 53);
     usedRatio := of_Z 0 |}.


Definition sample_one_token : ApiUsageData :=
  {| usage_id := "c"; usage_key := "C-se...-key";
     startDate := "N/A"; endDate := "N/A";
     orgTotalTokensUsed := of_Z 0; totalAllowance := of_Z 1;
     usedRatio := of_Z 0 |}.


(** Sample key stores and services for the worked examples. *)
Definition sample_kv : KVNamespace :=
  {| api_keys := [("a", "A-secret-key"); ("b", "B-secret-key");
                  ("c", "C-secret-key")];
     cache_data := None |}.

Definition empty_kv : KVNamespace := {| api_keys := []; cache_data := None |}.

(** Key A has used 100 of 500, key B is answered 401 on every attempt, and
    key C has used 500 of 500. *)
Definition sample_upstream (key : string) (attempt : nat) : FetchOutcome :=
  if String.eqb key "A-secret-key"
  then FetchResponse 200 (Some (sample_body (Some 0%Z) None (Some 100%Z) (Some 500%Z)))
  else if String.eqb key "C-secret-key"
  then FetchResponse 200 (Some (sample_body (Some 0%Z) None (Some 500%Z) (Some 500%Z)))
  else FetchResponse 401 None.

Definition sample_results : list ApiKeyResult :=
  fetch_all sample_upstream (getAllKeys sample_kv).

(** The store holds a report that has not expired at time [now]. *)
Definition cache_fresh (kv : KVNamespace) (now : Z) : Prop :=
  exists e, cache_data kv = Some e /\ (now < expiresAt e)%Z.

(** The store without its cache slot. *)
Definition without_cache (kv : KVNamespace) : KVNamespace :=
  {| api_keys := api_keys kv; cache_data := None |}.

(* ===================================================================== *)
(** ** Key store: [addKey], [deleteKey], [apiKeyExists] *)
(* ===================================================================== *)

(** Modelled from the spec: [put], [delete] and [get] of the key-value store
    are platform code. The store holds one value per name and lists the
    names under a prefix in their lexicographic order: [put] replaces the
    entry of the name or adds it at its place in the listing, [delete]
    drops it, and [delete] of a name that is not stored does nothing. The
    entries kept here are those under "api_keys:", by the id that follows
    the prefix. *)
Fixpoint kv_place (id value : string) (entries : list (string * string))
  : list (string * string) :=
  match entries with
  | [] => [(id, value)]
  | e :: rest =>
      match String_as_OT.compare id (fst e) with
      | Gt => e :: kv_place id value rest
      | _ => (id, value) :: e :: rest
      end
  end.

Definition kv_remove (id : string) (entries : list (string * string))
  : list (string * string) :=
  filter (fun e => negb (String.eqb (fst e) id)) entries.

Definition kv_put (id value : string) (entries : list (string * string))
  : list (string * string) :=
  kv_place id value (kv_remove id entries).

Fixpoint kv_get (id : string) (entries : list (string * string)) : option string :=
  match entries with
  | [] => None
  | e :: rest => if String.eqb (fst e) id then Some (snd e) else kv_get id rest
  end.

(** [addKey] *)
Definition addKey (kv : KVNamespace) (id key : string) : KVNamespace :=
  {| api_keys := kv_put id key (api_keys kv); cache_data := cache_data kv |}.

(** [deleteKey] *)
Definition deleteKey (kv : KVNamespace) (id : string) : KVNamespace :=
  {| api_keys := kv_remove id (api_keys kv); cache_data := cache_data kv |}.

(** [apiKeyExists] *)
Definition apiKeyExists (kv : KVNamespace) (key : string) : bool :=
  existsb (fun k => String.eqb (ApiKey_key k) key) (getAllKeys kv).

(* ===================================================================== *)
(** ** Path parsing of the handlers *)
(* ===================================================================== *)

(** [s.split(sep)[1]] for a non-empty separator: the text between the first
    and the second occurrence of [sep] (or the end); [None] is [undefined],
    the value when [sep] does not occur. *)
Definition split_second (sep s : string) : option string :=
  match String.index 0 sep s with
  | None => None
  | Some m =>
      let rest := slice_from (m + String.length sep) s in
      match String.index 0 sep rest with
      | None => Some rest
      | Some k => Some (slice_to k rest)
      end
  end.

(** [s.replace(pattern, "")] for a non-empty string pattern: the first
    occurrence is taken out. *)
Definition js_replace_first (pattern s : string) : string :=
  match String.index 0 pattern s with
  | None => s
  | Some m => (slice_to m s ++ slice_from (m + String.length pattern) s)%string
  end.

(* ===================================================================== *)
(** ** Route handlers of the key store *)
(* ===================================================================== *)

(** The JSON bodies of the responses of these handlers, and
    [createJsonResponse] and [createErrorResponse] for them. *)
Inductive ReplyBody :=
| ReplySuccess
| ReplyImport (added skipped : nat)
| ReplyDeleted (deleted : nat)
| ReplyResult (result : ApiKeyResult)
| ReplyKeys (keys : list ApiKey)
| ReplyError (message : string).

Record Reply := { reply_status : Z; reply_body : ReplyBody }.

Definition createJsonReply (body : ReplyBody) : Reply :=
  {| reply_status := 200; reply_body := body |}.

Definition createErrorResponse (message : string) (status : Z) : Reply :=
  {| reply_status := status; reply_body := ReplyError message |}.

(** The [key] property of a body that is to add a key; the source types it
    [any], and a JSON text can hold there:
    - a text, [KeyText s], which is falsy when it is empty;
    - a falsy value that is not a text, [KeyFalsy]: [null], [false], 0;
    - a truthy value that is not a text and not an object, [KeyScalar]: a
      number other than 0, or [true]. The text that [String] makes of the
      value has a first character [c] and goes on with [text]; the [put]
      of the store (platform code) keeps a value that is not an object
      as that text. Two such values are the same value exactly when
      their texts are equal, and none of them is the same value as a
      text.
    An object or an array as [key] is outside the model: [put] does not
    accept it. *)
Inductive KeyValue :=
| KeyText (s : string)
| KeyFalsy
| KeyScalar (c : ascii) (text : string).

(** [!key] *)
Definition key_falsy (key : KeyValue) : bool :=
  match key with
  | KeyText s => String.eqb s ""
  | KeyFalsy => true
  | KeyScalar _ _ => false
  end.

(** The text that the store keeps for a key that is put. *)
Definition key_text (key : KeyValue) : string :=
  match key with
  | KeyText s => s
  | KeyFalsy => ""
  | KeyScalar c text => String c text
  end.

(** The same value, as [Set.prototype.has] compares. *)
Definition same_value (a b : KeyValue) : bool :=
  match a, b with
  | KeyText s, KeyText t => String.eqb s t
  | KeyFalsy, KeyFalsy => true
  | KeyScalar c s, KeyScalar d t => Ascii.eqb c d && String.eqb s t
  | _, _ => false
  end.

(** [apiKeyExists(kv, key)] for a [key] of any type: the strict equality
    [k.key === key] with a stored text holds for a text only. *)
Definition key_exists (kv : KVNamespace) (key : KeyValue) : bool :=
  match key with
  | KeyText s => apiKeyExists kv s
  | _ => false
  end.

(** What the handlers look at in a body that is to add a key: whether it is
    an object with a [key] property ([NoKey] is a body that is falsy, is
    not an object or has no such property), and that property. *)
Inductive KeyBody :=
| NoKey
| WithKey (key : KeyValue).

(** What [handleBatchDeleteKeys] looks at in the body of its request.
    - [BodyThrows message]: the reading throws inside the [try]:
      [req.json()] rejects (the body is not a JSON text), or it yields
      [null], whose destructuring throws; [message] is the message of the
      error, a text of the engine.
    - [BodyIds ids]: every other JSON value; [ids] is [None] when its
      [ids] property is not an array, and holds the ids otherwise, each
      one by the text that the template literal [`api_keys:${id}`] makes
      of it. *)
Inductive DeleteBody :=
| BodyThrows (message : string)
| BodyIds (ids : option (list string)).

Section KeyHandlers.

Variable upstream : string -> nat -> FetchOutcome.

(** Lines 337-338, 349-350, 364-365 and 318-319: the report is computed
    anew and written to the cache. *)
Definition refreshCache (kv : KVNamespace) (t_run t_put : Z)
  : option (KVNamespace * list RunEvent) :=
  match getAggregatedData upstream kv t_run with
  | None => None
  | Some (data, tr) => Some (setCachedData kv data t_put, tr)
  end.

(** [handleSingleKeyAdd]; [newId] is the id the handler makes up from the
    clock and the random number generator. The operations of the store do
    not fail in this model; in the source a failure of one of them, also
    after the key has been put, is answered 400 by the [catch] of
    [handleAddKeys]. *)
Definition handleSingleKeyAdd (body : KeyBody) (kv : KVNamespace)
  (newId : string) (t_run t_put : Z)
  : option (Reply * KVNamespace * list RunEvent) :=
  match body with
  | NoKey => Some (createErrorResponse "key is required" 400, kv, [])
  | WithKey key =>
      if key_falsy key then
        Some (createErrorResponse "key cannot be empty" 400, kv, [])
      else if key_exists kv key then
        Some (createErrorResponse "API key already exists" 409, kv, [])
      else
        match refreshCache (addKey kv newId (key_text key)) t_run t_put with
        | None => None
        | Some (kv', tr) => Some (createJsonReply ReplySuccess, kv', tr)
        end
  end.

(** The [for] loop of [handleBatchImport]: [existingKeys] is the set of the
    keys seen, and [newIds n] the id made up for the addition number [n]. *)
Fixpoint importLoop (items : list KeyBody) (newIds : nat -> string)
  (added skipped : nat) (existingKeys : list KeyValue) (kv : KVNamespace)
  : nat * nat * KVNamespace :=
  match items with
  | [] => (added, skipped, kv)
  | NoKey :: rest => importLoop rest newIds added skipped existingKeys kv
  | WithKey key :: rest =>
      if key_falsy key || existsb (same_value key) existingKeys then
        importLoop rest newIds added
          (if negb (key_falsy key) then S skipped else skipped)
          existingKeys kv
      else
        importLoop rest newIds (S added) skipped (key :: existingKeys)
          (addKey kv (newIds added) (key_text key))
  end.

(** [handleBatchImport]; the set [existingKeys] starts with the stored
    texts. *)
Definition handleBatchImport (items : list KeyBody) (kv : KVNamespace)
  (newIds : nat -> string) (t_run t_put : Z)
  : option (Reply * KVNamespace * list RunEvent) :=
  let existingKeys := map (fun k => KeyText (ApiKey_key k)) (getAllKeys kv) in
  let '(added, skipped, kv1) := importLoop items newIds 0 0 existingKeys kv in
  if 0 <? added then
    match refreshCache kv1 t_run t_put with
    | None => None
    | Some (kv2, tr) => Some (createJsonReply (ReplyImport added skipped), kv2, tr)
    end
  else Some (createJsonReply (ReplyImport added skipped), kv1, []).

(** [handleDeleteKey] *)
Definition handleDeleteKey (pathname : string) (kv : KVNamespace)
  (t_run t_put : Z) : option (Reply * KVNamespace * list RunEvent) :=
  match split_second "/api/keys/" pathname with
  | None => Some (createErrorResponse "Key ID is required" 400, kv, [])
  | Some id =>
      if String.eqb id "" then
        Some (createErrorResponse "Key ID is required" 400, kv, [])
      else
        match refreshCache (deleteKey kv id) t_run t_put with
        | None => None
        | Some (kv', tr) => Some (createJsonReply ReplySuccess, kv', tr)
        end
  end.

(** [handleBatchDeleteKeys]. An error thrown by the reading of the body is
    answered by the [catch] with its message. The deletions are started
    together; each one drops one name, and they are taken here in the
    order of [ids] (the order does not matter, see [deleteKey_comm]). The
    operations of the store do not fail in this model. *)
Definition handleBatchDeleteKeys (body : DeleteBody)
  (kv : KVNamespace) (t_run t_put : Z)
  : option (Reply * KVNamespace * list RunEvent) :=
  match body with
  | BodyThrows message => Some (createErrorResponse message 400, kv, [])
  | BodyIds None =>
      Some (createErrorResponse "ids array is required" 400, kv, [])
  | BodyIds (Some []) =>
      Some (createErrorResponse "ids array is required" 400, kv, [])
  | BodyIds (Some ids) =>
      match refreshCache (fold_left deleteKey ids kv) t_run t_put with
      | None => None
      | Some (kv', tr) =>
          Some (createJsonReply (ReplyDeleted (List.length ids)), kv', tr)
      end
  end.

(** [handleRefreshSingleKey]; when the path has no "/api/keys/" the
    [replace] on [undefined] throws, and the [catch] answers 500 with the
    message of the engine. *)
Definition handleRefreshSingleKey (pathname : string) (kv : KVNamespace)
  : Reply * KVNamespace * list Effect :=
  match split_second "/api/keys/" pathname with
  | None =>
      (createErrorResponse
         "Cannot read properties of undefined (reading 'replace')" 500,
       kv, [])
  | Some rest =>
      let id := js_replace_first "/refresh" rest in
      if String.eqb id "" then
        (createErrorResponse "Key ID is required" 400, kv, [])
      else
        match kv_get id (api_keys kv) with
        | None => (createErrorResponse "Key not found" 404, kv, [])
        | Some key =>
            if String.eqb key "" then
              (createErrorResponse "Key not found" 404, kv, [])
            else
              let keyData := fetchApiKeyData upstream id key 0 in
              (createJsonReply (ReplyResult (fst keyData)), kv, snd keyData)
        end
  end.

End KeyHandlers.

(** The waits between the batches of a run. *)
Definition run_delays (tr : list RunEvent) : list Z :=
  flat_map (fun e => match e with SchedulerRun evs => delays evs end) tr.

(** The bearers of the upstream calls of a trace. *)
Fixpoint bearers (tr : list Effect) : list string :=
  match tr with
  | [] => []
  | UpstreamCall b :: tr' => b :: bearers tr'
  | Sleep _ :: tr' => bearers tr'
  end.

(** The report of the key pairs of a store, computed at the reading
    [t_run] of the clock. *)
Definition fresh_report (upstream : string -> nat -> FetchOutcome)
  (kv : KVNamespace) (t_run : Z) : AggregatedResponse :=
  aggregate (getBeijingTime t_run) (getAllKeys kv)
    (fetch_all upstream (getAllKeys kv)).

(** The store with [report] in its cache slot, written at [t_put]. *)
Definition with_cache (kv : KVNamespace) (report : AggregatedResponse)
  (t_put : Z) : KVNamespace :=
  {| api_keys := api_keys kv;
     cache_data := Some {| cached := report;
                           expiresAt := (t_put + 120 * 1000)%Z |} |}.

(** The items of an import that carry a truthy key. *)
Definition has_key (item : KeyBody) : bool :=
  match item with
  | NoKey => false
  | WithKey (KeyText s) => negb (String.eqb s "")
  | WithKey KeyFalsy => false
  | WithKey (KeyScalar _ _) => true
  end.

(** The items of an import whose key, if any, is a text. *)
Definition text_keys (items : list KeyBody) : Prop :=
  forall key, In (WithKey key) items -> exists s, key = KeyText s.

Definition count_keyed (items : list KeyBody) : nat :=
  List.length (filter has_key items).

(** The secrets of the key pairs of a store. *)
Definition secrets (kv : KVNamespace) : list string :=
  map ApiKey_key (getAllKeys kv).

(** The keys seen at the start of an import: the stored texts. *)
Definition stored_texts (kv : KVNamespace) : list KeyValue :=
  map (fun k => KeyText (ApiKey_key k)) (getAllKeys kv).

(** Sample ids and a sample import for the worked examples: the n-th id is
    "key-" followed by n strokes. *)
Fixpoint strokes (n : nat) : string :=
  match n with
  | O => ""
  | S n' => String "1" (strokes n')
  end.

Definition sample_ids (n : nat) : string := ("key-" ++ strokes n)%string.

Definition sample_import : list KeyBody :=
  [WithKey (KeyText "D-secret-key"); NoKey; WithKey (KeyText "");
   WithKey (KeyText "A-secret-key"); WithKey (KeyText "D-secret-key");
   WithKey (KeyText "E-secret-key")].

(** No code unit of [s] is a "/". *)
Fixpoint no_slash (s : string) : bool :=
  match s with
  | EmptyString => true
  | String c s' => negb (Ascii.eqb c "/") && no_slash s'
  end.

(** The times whose UTC year is written with four digits without padding:
    from 1000-01-01T00:00:00.000Z to 9999-12-31T23:59:59.999Z. *)
Definition plain_year_time (t : Z) : Prop :=
  (-30610224000000 <= t <= 253402300799999)%Z.

(** The text HH:MM:SS of the UTC time of day of [t]. *)
Definition time_of_day_text (t : Z) : string :=
  (pad_digits 2 (t mod msPerDay / 3600000) ++ ":"
   ++ pad_digits 2 (t mod msPerDay / 60000 mod 60) ++ ":"
   ++ pad_digits 2 (t mod msPerDay / 1000 mod 60))%string.

(* ===================================================================== *)
(** * Properties *)
(* ===================================================================== *)

Open Scope string_scope.

(* ===================================================================== *)
(** ** Facts about strings *)
(* ===================================================================== *)

Lemma length_append (s t : string) :
  String.length (s ++ t) = String.length s + String.length t.
Proof. induction s as [|c s IH]; simpl; [reflexivity | now rewrite IH]. Qed.

Lemma append_assoc (s t u : string) : (s ++ t) ++ u = s ++ (t ++ u).
Proof. induction s as [|c s IH]; simpl; [reflexivity | now rewrite IH]. Qed.

Lemma substring_0_length (n : nat) (s : string) :
  String.length (String.substring 0 n s) = Nat.min n (String.length s).
Proof.
  revert s; induction n as [|n IH]; intros [|c s]; simpl; try reflexivity.
  now rewrite IH.
Qed.

Lemma substring_0_all (n : nat) (s : string) :
  String.length s <= n -> String.substring 0 n s = s.
Proof.
  revert s; induction n as [|n IH]; intros [|c s]; simpl; intros H;
    try reflexivity; try lia.
  f_equal. apply IH. lia.
Qed.

Lemma substring_0_split (n : nat) (s : string) :
  s = String.substring 0 n s ++ String.substring n (String.length s - n) s.
Proof.
  revert s; induction n as [|n IH]; intros [|c s]; simpl; try reflexivity.
  - f_equal. symmetry. apply substring_0_all. lia.
  - f_equal. apply IH.
Qed.

Lemma substring_length_le (n m : nat) (s : string) :
  n + m <= String.length s -> String.length (String.substring n m s) = m.
Proof.
  revert m s; induction n as [|n IH]; intros m s H.
  - rewrite substring_0_length. lia.
  - destruct s as [|c s]; simpl in *; [lia |]. apply IH. lia.
Qed.

Lemma js_substring_prefix (s : string) (n : nat) :
  js_substring s 0 (Some (Z.of_nat n)) = slice_to n s.
Proof.
  unfold js_substring, slice_to, clamp_index. cbv zeta.
  assert (E0 : Z.to_nat (Z.min (Z.max 0 0) (Z.of_nat (String.length s))) = 0)
    by lia.
  assert (E1 : Z.to_nat (Z.min (Z.max (Z.of_nat n) 0) (Z.of_nat (String.length s)))
               = Nat.min n (String.length s)) by lia.
  rewrite E0, E1. cbn [Nat.min Nat.max]. rewrite Nat.sub_0_r.
  destruct (Nat.le_gt_cases n (String.length s)) as [H|H].
  - now rewrite Nat.min_l.
  - rewrite Nat.min_r by lia. rewrite !substring_0_all; [reflexivity | lia | lia].
Qed.

Lemma js_substring_suffix (s : string) (n : nat) :
  n <= String.length s ->
  js_substring s (Z.of_nat (String.length s) - Z.of_nat n) None
  = slice_from (String.length s - n) s.
Proof.
  intros H. unfold js_substring, slice_from, clamp_index.
  replace (Z.to_nat (Z.min (Z.max (Z.of_nat (String.length s) - Z.of_nat n) 0)
                       (Z.of_nat (String.length s))))
    with (String.length s - n) by lia.
  rewrite Nat.min_l, Nat.max_r by lia. reflexivity.
Qed.

Example maskApiKey_long : maskApiKey "fk-0123456789abcdef" = "fk-0...cdef".
Proof. reflexivity. Qed.

Example maskApiKey_short : maskApiKey "abc" = "abc...".
Proof. reflexivity. Qed.

Lemma maskApiKey_refines (s : string) : maskApiKey s = mask_spec 4 4 s.
Proof.
  unfold maskApiKey, mask_spec, CONFIG.KEY_MASK_PREFIX_LENGTH,
    CONFIG.KEY_MASK_SUFFIX_LENGTH.
  change 4%Z with (Z.of_nat 4). rewrite js_substring_prefix.
  destruct (Z.leb_spec (Z.of_nat (String.length s)) (Z.of_nat 4 + Z.of_nat 4));
    destruct (Nat.leb_spec (String.length s) (4 + 4)); try lia.
  - reflexivity.
  - rewrite js_substring_suffix by lia. reflexivity.
Qed.

(* ===================================================================== *)
(** ** KeyMasker: properties *)
(* ===================================================================== *)

Lemma maskApiKey_short_eq (s : string) :
  String.length s <= 8 -> maskApiKey s = slice_to 4 s ++ "...".
Proof.
  intros H. rewrite maskApiKey_refines. unfold mask_spec.
  destruct (Nat.leb_spec (String.length s) (4 + 4)); [reflexivity | lia].
Qed.

Lemma maskApiKey_long_eq (s : string) :
  8 < String.length s ->
  maskApiKey s
  = slice_to 4 s ++ "..." ++ slice_from (String.length s - 4) s.
Proof.
  intros H. rewrite maskApiKey_refines. unfold mask_spec.
  destruct (Nat.leb_spec (String.length s) (4 + 4)); [lia | reflexivity].
Qed.

Lemma maskApiKey_long_length (s : string) :
  8 < String.length s -> String.length (maskApiKey s) = 11.
Proof.
  intros H. rewrite maskApiKey_long_eq by exact H.
  unfold slice_to, slice_from.
  rewrite !length_append, substring_0_length.
  rewrite substring_length_le by lia.
  change (String.length "...") with 3. lia.
Qed.

Lemma maskApiKey_long_dot (s : string) :
  8 < String.length s -> String.get 4 (maskApiKey s) = Some "."%char.
Proof.
  intros H. rewrite maskApiKey_long_eq by exact H.
  assert (L : String.length (slice_to 4 s) = 4).
  { unfold slice_to. rewrite substring_0_length. lia. }
  rewrite <- L at 1.
  change (String.length (slice_to 4 s)) with (0 + String.length (slice_to 4 s)).
  rewrite <- append_correct2. reflexivity.
Qed.

Lemma maskApiKey_starts_with (s : string) :
  starts_with (maskApiKey s) (slice_to 4 s).
Proof.
  destruct (Nat.le_gt_cases (String.length s) 8) as [H|H].
  - rewrite maskApiKey_short_eq by exact H. now exists "...".
  - rewrite maskApiKey_long_eq by exact H. eexists. reflexivity.
Qed.

Lemma is_substring_length (t s : string) :
  is_substring t s -> String.length t <= String.length s.
Proof. intros (pre & post & ->). rewrite !length_append. lia. Qed.

(** A code unit of the container that lies inside the occurrence is a code
    unit of the contained string. *)
Lemma is_substring_get (t s : string) (i : nat) :
  is_substring t s ->
  String.length s - String.length t <= i < String.length t ->
  exists j, String.get j t = String.get i s.
Proof.
  intros (pre & post & ->) Hi. rewrite !length_append in Hi.
  exists (i - String.length pre).
  replace i with ((i - String.length pre) + String.length pre) at 2 by lia.
  rewrite <- append_correct2. apply append_correct1. lia.
Qed.

Lemma maskApiKey_hides_long (s : string) :
  8 < String.length s ->
  11 < String.length s \/ (forall i, String.get i s <> Some "."%char) ->
  ~ is_substring s (maskApiKey s).
Proof.
  intros H8 Hcase Hsub.
  pose proof (maskApiKey_long_length s H8) as L.
  pose proof (is_substring_length _ _ Hsub) as Hle.
  destruct Hcase as [H11 | Hdot]; [lia |].
  destruct (is_substring_get s (maskApiKey s) 4 Hsub) as [j Hj]; [lia |].
  rewrite maskApiKey_long_dot in Hj by exact H8.
  exact (Hdot j Hj).
Qed.

(** The secrets that are their own mask: seven or eleven characters with
    three dots after the first four. *)
Lemma maskApiKey_fixed (s : string) :
  maskApiKey s = s
  <-> (String.length s = 7 \/ String.length s = 11)
      /\ String.substring 4 3 s = "...".
Proof.
  split.
  - intros E. assert (L : String.length (maskApiKey s) = String.length s)
      by now rewrite E.
    rewrite maskApiKey_refines in E, L. unfold mask_spec in E, L.
    destruct (Nat.leb_spec (String.length s) (4 + 4)) as [Hle|Hgt].
    + unfold slice_to in L. rewrite length_append, substring_0_length in L.
      cbn [String.length] in L.
      assert (L7 : String.length s = 7) by lia.
      split; [left; exact L7 |].
      do 7 (destruct s as [|? s]; [simpl in L7; discriminate L7 |]).
      destruct s; [| simpl in L7; discriminate L7].
      cbn in E. injection E as <- <- <-. reflexivity.
    + unfold slice_to, slice_from in L.
      rewrite !length_append, substring_0_length, substring_length_le in L by lia.
      cbn [String.length] in L.
      assert (L11 : String.length s = 11) by lia.
      split; [right; exact L11 |].
      do 11 (destruct s as [|? s]; [simpl in L11; discriminate L11 |]).
      destruct s; [| simpl in L11; discriminate L11].
      cbn in E. injection E as <- <- <-. reflexivity.
  - intros [[L|L] E].
    + do 7 (destruct s as [|? s]; [simpl in L; discriminate L |]).
      destruct s; [| simpl in L; discriminate L].
      cbn in E. injection E as -> -> ->. reflexivity.
    + do 11 (destruct s as [|? s]; [simpl in L; discriminate L |]).
      destruct s; [| simpl in L; discriminate L].
      cbn in E. injection E as -> -> ->. reflexivity.
Qed.

(** C9, the claim as stated fails: the eleven-character secret whose fifth to
    seventh characters are dots is longer than P+S = 8, yet its masked
    identifier is the secret itself, so the mask contains the full secret
    as a contiguous substring. *)
Lemma C9_mask_contains_long_secret :
  8 < String.length "abcd...efgh"
  /\ maskApiKey "abcd...efgh" = "abcd...efgh"
  /\ is_substring "abcd...efgh" (maskApiKey "abcd...efgh").
Proof.
  split; [simpl; lia |]. split; [reflexivity |].
  exists "", "". reflexivity.
Qed.

(** C9 (amended): with P = 4 and S = 4, [maskApiKey] computes
    secret[0:P] + "..." when len <= P+S and secret[0:P] + "..." +
    secret[len-S:] otherwise; it is a total function that maps the empty
    string to "..."; its result always starts with the first P characters of
    the secret; and the result does not contain the full secret as a
    contiguous substring when len > P+S+3 = 11, nor when len > P+S and the
    secret has no "." character. *)
Theorem C9_maskApiKey_amended (secret : string) :
  maskApiKey secret = mask_spec 4 4 secret
  /\ maskApiKey "" = "..."
  /\ starts_with (maskApiKey secret) (slice_to 4 secret)
  /\ (8 < String.length secret ->
      11 < String.length secret
      \/ (forall i, String.get i secret <> Some "."%char) ->
      ~ is_substring secret (maskApiKey secret)).
Proof.
  split; [apply maskApiKey_refines |].
  split; [reflexivity |].
  split; [apply maskApiKey_starts_with |].
  apply maskApiKey_hides_long.
Qed.

Lemma C9_maskApiKey_amended_witness :
  8 < String.length "fk-0123456789abcdef"
  /\ 11 < String.length "fk-0123456789abcdef"
  /\ maskApiKey "fk-0123456789abcdef" = "fk-0...cdef"
  /\ ~ is_substring "fk-0123456789abcdef" (maskApiKey "fk-0123456789abcdef").
Proof.
  split; [simpl; lia |]. split; [simpl; lia |]. split; [reflexivity |].
  apply (C9_maskApiKey_amended "fk-0123456789abcdef");
    [simpl; lia | left; simpl; lia].
Defined.

(** C10: for every non-empty secret of length at most the prefix length 4,
    the masked identifier is the whole secret followed by "...", so the raw
    secret occurs in the mask as a contiguous substring. *)
Theorem C10_short_secret_disclosed (secret : string) :
  0 < String.length secret <= 4 ->
  maskApiKey secret = secret ++ "..."
  /\ is_substring secret (maskApiKey secret).
Proof.
  intros H.
  assert (E : maskApiKey secret = secret ++ "...").
  { rewrite maskApiKey_short_eq by lia. unfold slice_to.
    rewrite substring_0_all by lia. reflexivity. }
  split; [exact E |]. rewrite E. exists "", "...". reflexivity.
Qed.

Lemma C10_short_secret_disclosed_witness :
  0 < String.length "abc" <= 4
  /\ maskApiKey "abc" = "abc..."
  /\ is_substring "abc" (maskApiKey "abc").
Proof.
  split; [simpl; lia |].
  apply (C10_short_secret_disclosed "abc"). simpl; lia.
Defined.

(* ===================================================================== *)
(** ** Numbers: rounding and comparison *)
(* ===================================================================== *)

Open Scope Z_scope.

(** A value below 2^53 in magnitude is a double. *)
Lemma round_small (x : Z) : Z.abs x < 2 ^ 53 -> round x = Finite x.
Proof. intros H. unfold round. cbv zeta. apply Z.ltb_lt in H. now rewrite H. Qed.

Lemma round_exact (m e : Z) :
  0 <= e -> Z.abs m < 2 ^ 53 -> Z.abs m * 2 ^ e < 2 ^ 2098 ->
  round (m * 2 ^ e) = Finite (m * 2 ^ e).
Proof.
  intros He Hm Hov. unfold round. cbv zeta.
  assert (P : 0 < 2 ^ e) by (apply Z.pow_pos_nonneg; lia).
  assert (Ea : Z.abs (m * 2 ^ e) = Z.abs m * 2 ^ e)
    by (rewrite Z.abs_mul, (Z.abs_eq (2 ^ e)); lia).
  rewrite Ea.
  destruct (Z.ltb_spec (Z.abs m * 2 ^ e) (2 ^ 53)) as [|Hbig]; [reflexivity |].
  assert (Hm0 : 0 < Z.abs m) by (destruct (Z.eq_dec (Z.abs m) 0) as [E|]; [rewrite E in Hbig; simpl in Hbig; lia | lia]).
  set (k := Z.log2 (Z.abs m * 2 ^ e) - 52).
  assert (Hk : 1 <= k <= e).
  { subst k. rewrite Z.log2_mul_pow2 by lia.
    assert (Z.log2 (Z.abs m) < 53) by (apply Z.log2_lt_pow2; lia).
    assert (53 <= Z.log2 (Z.abs m * 2 ^ e)).
    { apply Z.log2_le_pow2; lia. }
    rewrite Z.log2_mul_pow2 in H0 by lia. lia. }
  assert (E2 : 2 ^ e = 2 ^ (e - k) * 2 ^ k)
    by (rewrite <- Z.pow_add_r by lia; f_equal; lia).
  assert (Pk : 0 < 2 ^ k) by (apply Z.pow_pos_nonneg; lia).
  assert (Ph : 0 < 2 ^ (k - 1)) by (apply Z.pow_pos_nonneg; lia).
  assert (Er : (Z.abs m * 2 ^ e) mod 2 ^ k = 0).
  { rewrite E2, Z.mul_assoc. apply Z.mod_mul. lia. }
  assert (Eq : (Z.abs m * 2 ^ e) / 2 ^ k * 2 ^ k = Z.abs m * 2 ^ e).
  { rewrite E2 at 1. rewrite Z.mul_assoc, Z.div_mul by lia. rewrite <- Z.mul_assoc, <- E2. reflexivity. }
  rewrite Er.
  destruct (Z.ltb_spec (2 ^ (k - 1)) 0); [lia |].
  destruct (Z.eqb_spec (2 ^ (k - 1)) 0); [lia |].
  cbn [orb andb]. rewrite Eq.
  destruct (Z.leb_spec (2 ^ 2098) (Z.abs m * 2 ^ e)); [lia |].
  f_equal. rewrite <- Ea. rewrite Z.mul_comm. apply Z.abs_sgn.
Qed.

Lemma scale_pos : 0 < scale.
Proof. unfold scale. apply Z.pow_pos_nonneg; lia. Qed.

Lemma scale_eq : scale = 2 ^ 1074.
Proof. reflexivity. Qed.

Lemma pow2_pos (e : Z) : 0 <= e -> 0 < 2 ^ e.
Proof. intros H. apply Z.pow_pos_nonneg; lia. Qed.

(** An integer of magnitude at most 2^53 is a number, exactly. *)
Lemma of_Z_safe (z : Z) : Z.abs z <= 2 ^ 53 -> of_Z z = Finite (z * scale).
Proof.
  intros H. unfold of_Z. rewrite scale_eq.
  destruct (Z.eq_dec (Z.abs z) (2 ^ 53)) as [E|N].
  - assert (Ez : z = 2 ^ 52 * 2 \/ z = - 2 ^ 52 * 2).
    { change (2 ^ 53) with (2 ^ 52 * 2) in E. lia. }
    assert (P : 2 ^ 1075 = 2 * 2 ^ 1074) by (change 1075 with (1 + 1074); rewrite Z.pow_add_r by lia; reflexivity).
    destruct Ez as [-> | ->].
    + replace (2 ^ 52 * 2 * 2 ^ 1074) with (2 ^ 52 * 2 ^ 1075) by lia.
      apply round_exact; [lia | reflexivity | vm_compute; reflexivity].
    + replace (- 2 ^ 52 * 2 * 2 ^ 1074) with (- 2 ^ 52 * 2 ^ 1075) by lia.
      apply round_exact; [lia | reflexivity | vm_compute; reflexivity].
  - apply round_exact; [lia | lia |].
    apply Z.lt_trans with (2 ^ 53 * 2 ^ 1074).
    + apply Z.mul_lt_mono_pos_r; [apply pow2_pos; lia | lia].
    + rewrite <- Z.pow_add_r by lia. apply Z.pow_lt_mono_r; lia.
Qed.

(** Rounding keeps the sign. *)
Lemma round_sign (d : Z) : js_lt (Finite 0) (round d) = (0 <? d).
Proof.
  unfold round. cbv zeta.
  destruct (Z.ltb_spec (Z.abs d) (2 ^ 53)) as [|Hbig]; [reflexivity |].
  set (a := Z.abs d) in *.
  set (k := Z.log2 a - 52).
  assert (Ha : 0 < a) by (assert (0 < 2 ^ 53) by (apply pow2_pos; lia); lia).
  assert (Hk : 1 <= k).
  { subst k. assert (53 <= Z.log2 a) by (apply Z.log2_le_pow2; lia). lia. }
  assert (Pk : 0 < 2 ^ k) by (apply pow2_pos; lia).
  assert (Hq : 0 < a / 2 ^ k).
  { apply Z.div_str_pos. split; [exact Pk |].
    apply Z.le_trans with (2 ^ Z.log2 a).
    - apply Z.pow_le_mono_r; lia.
    - apply Z.log2_spec. exact Ha. }
  set (q' := if (2 ^ (k - 1) <? a mod 2 ^ k)
                || (2 ^ (k - 1) =? a mod 2 ^ k) && Z.odd (a / 2 ^ k)
             then a / 2 ^ k + 1 else a / 2 ^ k).
  assert (Hq' : 0 < q') by (subst q'; destruct (_ || _); lia).
  assert (Hv : 0 < q' * 2 ^ k) by (apply Z.mul_pos_pos; assumption).
  destruct (Z.leb_spec (2 ^ 2098) (q' * 2 ^ k)).
  - destruct (Z.ltb_spec d 0); destruct (Z.ltb_spec 0 d); simpl; try reflexivity; lia.
  - simpl. destruct (Z.ltb_spec 0 d) as [Hd|Hd].
    + rewrite Z.sgn_pos by lia. apply Z.ltb_lt. lia.
    + assert (d < 0) by lia. rewrite Z.sgn_neg by lia. apply Z.ltb_ge. lia.
Qed.

(** Rounding never gives NaN. *)
Lemma round_not_NaN (d : Z) : round d <> NaN.
Proof.
  unfold round. cbv zeta. destruct (_ <? _); [discriminate |].
  destruct (_ <=? _); [destruct (_ <? _); discriminate | discriminate].
Qed.

(** Rounding a value that is not negative gives a number that is not negative. *)
Lemma round_nonneg (d : Z) :
  0 <= d -> round d = PosInfinity \/ exists n, round d = Finite n /\ 0 <= n.
Proof.
  intros H. pose proof (round_sign d) as S.
  destruct (round d) as [| | |n] eqn:E.
  - exfalso. eapply round_not_NaN. exact E.
  - now left.
  - simpl in S. destruct (Z.ltb_spec 0 d); [discriminate |].
    assert (d = 0) by lia. subst d. discriminate E.
  - right. exists n. split; [reflexivity |]. simpl in S.
    destruct (Z.ltb_spec 0 d) as [Hd|Hd].
    + apply Z.ltb_lt in S. lia.
    + assert (d = 0) by lia. subst d. injection E as <-. lia.
Qed.






(** [Math.max(0, a - u)] is the sort key of the specification. *)
Lemma Math_max_zero_round (x : Z) :
  Math_max (Finite 0) (round x) = round (Z.max 0 x).
Proof.
  pose proof (round_sign x) as S. pose proof (round_not_NaN x) as N.
  destruct (Z.ltb_spec 0 x) as [Hx|Hx].
  - rewrite Z.max_r by lia. destruct (round x); try congruence;
      unfold Math_max; rewrite S; reflexivity.
  - rewrite Z.max_l by lia.
    destruct (round x); try congruence; unfold Math_max; rewrite S; reflexivity.
Qed.

Close Scope Z_scope.

(* ===================================================================== *)
(** ** Dates: examples *)
(* ===================================================================== *)

Example days_from_civil_examples :
  days_from_civil 1970 1 1 = 0%Z
  /\ days_from_civil 2000 3 1 = 11017%Z
  /\ days_from_civil 2024 2 29 = 19782%Z
  /\ days_from_civil 1969 12 31 = (-1)%Z.
Proof. repeat split. Qed.

Example formatDate_epoch : formatDate (Some (of_Z 0)) = "1970-01-01".
Proof. vm_compute. reflexivity. Qed.

Example formatDate_leap_day :
  formatDate (Some (of_Z 1709164800000)) = "2024-02-29".
Proof. vm_compute. reflexivity. Qed.

Example formatDate_before_epoch : formatDate (Some (of_Z (-1))) = "1969-12-31".
Proof. vm_compute. reflexivity. Qed.

(** A fraction of a millisecond is cut off towards zero: -0.5 ms is the
    epoch. *)
Example formatDate_fraction :
  formatDate (Some (Finite (- (scale / 2)))) = "1970-01-01".
Proof. vm_compute. reflexivity. Qed.

Example formatDate_missing :
  formatDate None = "N/A" /\ formatDate (Some NaN) = "N/A".
Proof. split; reflexivity. Qed.

Example formatDate_out_of_range :
  formatDate (Some (of_Z 8640000000000001)) = "Invalid Date"
  /\ formatDate (Some PosInfinity) = "Invalid Date".
Proof. split; vm_compute; reflexivity. Qed.

(** The worked numbers: 2^53 + 1 is 2^53, and 0.1 + 0.2 is not 0.3. *)
Example js_add_rounds :
  js_add (of_Z (2 ^ 53)) (of_Z 1) = of_Z (2 ^ 53)
  /\ js_add (of_Z 100) (of_Z 500) = of_Z 600
  /\ js_add (round (scale / 10)) (round (scale / 5)) <> round (3 * scale / 10).
Proof. repeat split; vm_compute; congruence. Qed.

Example toISOString_example :
  js_toISOString 1709210096789%Z = Some "2024-02-29T12:34:56.789Z".
Proof. reflexivity. Qed.

Example formatDateTime_example :
  formatDateTime (getBeijingTime 1709210096789%Z) = "2024-02-29 20:34:56".
Proof. reflexivity. Qed.

(* ===================================================================== *)
(** ** Dates: the calendar algorithm *)
(* ===================================================================== *)

Open Scope Z_scope.

Lemma yoe_bounds (doe : Z) :
  0 <= doe <= 146096 ->
  let yoe := (doe - doe / 1460 + doe / 36524 - doe / 146096) / 365 in
  0 <= yoe <= 399 /\ 0 <= doe - (365 * yoe + yoe / 4 - yoe / 100) <= 365.
Proof. intros H yoe. subst yoe. Z.div_mod_to_equations; lia. Qed.

(** The last day of a year that starts in March, the day 365, is a 29th of
    February: the year that follows is a leap year. *)
Lemma leap_day (doe : Z) :
  0 <= doe <= 146096 ->
  let yoe := (doe - doe / 1460 + doe / 36524 - doe / 146096) / 365 in
  doe - (365 * yoe + yoe / 4 - yoe / 100) = 365 ->
  (yoe + 1) mod 4 = 0 /\ ((yoe + 1) mod 100 <> 0 \/ yoe = 399).
Proof. intros H yoe. subst yoe. Z.div_mod_to_equations; lia. Qed.

Lemma leap_year_era (yoe era : Z) :
  (yoe + 1) mod 4 = 0 -> ((yoe + 1) mod 100 <> 0 \/ yoe = 399) ->
  leap_year (yoe + era * 400 + 1) = true.
Proof.
  intros H4 H100. unfold leap_year.
  assert (E4 : (yoe + era * 400 + 1) mod 4 = 0) by (Z.div_mod_to_equations; lia).
  rewrite E4. simpl.
  destruct H100 as [H|H].
  - assert (E : (yoe + era * 400 + 1) mod 100 <> 0) by (Z.div_mod_to_equations; lia).
    apply Z.eqb_neq in E. rewrite E. reflexivity.
  - subst yoe. assert (E : (399 + era * 400 + 1) mod 400 = 0) by (Z.div_mod_to_equations; lia).
    rewrite E. apply orb_true_r.
Qed.

(** The date computed for a day number is a date of the calendar. *)
Lemma civil_from_days_calendar (days : Z) :
  let '(y, m, d) := civil_from_days days in calendar_date y m d.
Proof.
  unfold civil_from_days. cbv zeta.
  set (z := days + 719468).
  set (era := z / 146097).
  set (doe := z - era * 146097).
  assert (Hdoe : 0 <= doe <= 146096)
    by (subst doe era; Z.div_mod_to_equations; lia).
  pose proof (yoe_bounds doe Hdoe) as Hy. cbv zeta in Hy.
  pose proof (leap_day doe Hdoe) as Hl. cbv zeta in Hl.
  set (yoe := (doe - doe / 1460 + doe / 36524 - doe / 146096) / 365) in *.
  destruct Hy as [Hyoe Hdoy].
  set (doy := doe - (365 * yoe + yoe / 4 - yoe / 100)) in *.
  set (mp := (5 * doy + 2) / 153).
  assert (Hmp : 153 * mp <= 5 * doy + 2 < 153 * mp + 153)
    by (subst mp; Z.div_mod_to_equations; lia).
  assert (Cmp : mp = 0 \/ mp = 1 \/ mp = 2 \/ mp = 3 \/ mp = 4 \/ mp = 5 \/ mp = 6
                \/ mp = 7 \/ mp = 8 \/ mp = 9 \/ mp = 10 \/ mp = 11) by lia.
  clearbody mp doy yoe era doe. clear z.
  unfold calendar_date.
  destruct Cmp as [E|[E|[E|[E|[E|[E|[E|[E|[E|[E|[E|E]]]]]]]]]]]; subst mp;
    match goal with
    | |- context [if ?j <? 10 then ?a else ?b] =>
        let v := eval vm_compute in (if j <? 10 then a else b) in
        change (if j <? 10 then a else b) with v
    end;
    match goal with
    | |- context [(153 * ?j + 2) / 5] =>
        let v := eval vm_compute in ((153 * j + 2) / 5) in
        change ((153 * j + 2) / 5) with v
    end;
    cbv [days_in_month Z.eqb Pos.eqb orb]; try lia.
  change (2 <=? 2) with true. cbv iota.
  split; [lia |].
  destruct (Z.eq_dec doy 365) as [E365|N365].
  - destruct (Hl E365) as [H4 H100].
    rewrite (leap_year_era yoe era H4 H100). lia.
  - destruct (leap_year _); lia.
Qed.

(** The month and the day computed for a day number are a month and a day;
    the date computed is the date of that day number; and the day numbers
    of the years 0000..9999 give a year in that range. *)
Lemma civil_from_days_spec (days : Z) :
  let '(y, m, d) := civil_from_days days in
  days_from_civil y m d = days
  /\ 1 <= m <= 12 /\ 1 <= d <= 31
  /\ (-719528 <= days <= 2932896 <-> 0 <= y <= 9999).
Proof.
  unfold civil_from_days. cbv zeta.
  set (z := days + 719468).
  set (era := z / 146097).
  set (doe := z - era * 146097).
  assert (Hdoe : 0 <= doe <= 146096)
    by (subst doe era; Z.div_mod_to_equations; lia).
  assert (Hera : -719528 <= days <= 2932896 <-> -1 <= era <= 24
                 /\ (era = -1 -> 146037 <= doe) /\ (era = 24 -> doe <= 146036))
    by (subst doe era z; Z.div_mod_to_equations; lia).
  pose proof (yoe_bounds doe Hdoe) as Hy. cbv zeta in Hy.
  assert (Hy399 : 146037 <= doe <->
                  (doe - doe / 1460 + doe / 36524 - doe / 146096) / 365 = 399
                  /\ 306 <= doe - 145731)
    by (Z.div_mod_to_equations; lia).
  set (yoe := (doe - doe / 1460 + doe / 36524 - doe / 146096) / 365) in *.
  destruct Hy as [Hyoe Hdoy].
  remember (doe - (365 * yoe + yoe / 4 - yoe / 100)) as doy eqn:Edoy.
  set (mp := (5 * doy + 2) / 153).
  assert (Hmp : 0 <= mp <= 11) by (subst mp; Z.div_mod_to_equations; lia).
  assert (Hmp10 : 306 <= doy <-> 10 <= mp)
    by (subst mp; Z.div_mod_to_equations; lia).
  assert (Hd : 1 <= doy - (153 * mp + 2) / 5 + 1 <= 31)
    by (subst mp; Z.div_mod_to_equations; lia).
  assert (Ez : days = era * 146097 + doe - 719468) by (subst doe z; lia).
  assert (Eera : (yoe + era * 400) / 400 = era)
    by (Z.div_mod_to_equations; lia).
  assert (Edoy399 : yoe = 399 -> doy = doe - 145731).
  { intros E. rewrite E in Edoy. change (399 / 4) with 99 in Edoy.
    change (399 / 100) with 3 in Edoy. lia. }
  unfold days_from_civil. cbv zeta.
  clearbody mp yoe era doe. clear z.
  destruct (Z.ltb_spec mp 10).
  - destruct (Z.leb_spec (mp + 3) 2); [lia |].
    replace (mp + 3 - 3) with mp by lia.
    replace (yoe + era * 400 + 0) with (yoe + era * 400) by lia.
    rewrite Eera. replace (yoe + era * 400 - era * 400) with yoe by lia.
    repeat split; lia.
  - destruct (Z.leb_spec (mp - 9) 2); [| lia].
    replace (mp - 9 + 9) with mp by lia.
    replace (yoe + era * 400 + 1 - 1) with (yoe + era * 400) by lia.
    rewrite Eera. replace (yoe + era * 400 - era * 400) with yoe by lia.
    repeat split; lia.
Qed.

(* ===================================================================== *)
(** ** Dates: [formatDate] *)
(* ===================================================================== *)

Lemma pad_digits_length (w : nat) (n : Z) : String.length (pad_digits w n) = w.
Proof.
  revert n; induction w as [|w IH]; intros n; cbn [pad_digits];
    [reflexivity |].
  rewrite length_append, IH. cbn [String.length]. lia.
Qed.

Lemma digit_char_not_T (d : Z) : Ascii.eqb (digit_char d) "T" = false.
Proof.
  unfold digit_char.
  assert (H : (Z.to_nat (d mod 10) < 10)%nat)
    by (pose proof (Z.mod_pos_bound d 10); lia).
  revert H. generalize (Z.to_nat (d mod 10)) as k. intros k H.
  do 10 (destruct k as [|k]; [reflexivity |]). lia.
Qed.

Lemma no_T_append (s t : string) : no_T (s ++ t) = no_T s && no_T t.
Proof.
  induction s as [|c s IH]; simpl; [reflexivity |].
  rewrite IH. apply andb_assoc.
Qed.

Lemma no_T_pad_digits (w : nat) (n : Z) : no_T (pad_digits w n) = true.
Proof.
  revert n; induction w as [|w IH]; intros n; cbn [pad_digits];
    [reflexivity |].
  rewrite no_T_append, IH. cbn [no_T andb]. now rewrite digit_char_not_T.
Qed.

Lemma split_T_first_append (s rest : string) :
  no_T s = true -> split_T_first (s ++ String "T" rest) = s.
Proof.
  induction s as [|c s IH]; simpl; intros H; [reflexivity |].
  apply andb_prop in H. destruct H as [Hc Hs].
  destruct (Ascii.eqb c "T"); [discriminate |]. now rewrite IH.
Qed.

Lemma no_T_iso_date (t : Z) : no_T (iso_date t) = true.
Proof.
  unfold iso_date. destruct (civil_from_days (t / msPerDay)) as [[y m] d].
  unfold iso_year.
  destruct ((0 <=? y) && (y <=? 9999)); [| destruct (y <? 0)];
    repeat (rewrite no_T_append || rewrite no_T_pad_digits); reflexivity.
Qed.

(** The time value of an integer number of milliseconds. *)
Lemma TimeClip_of_Z (t : Z) :
  time_valid t = true -> TimeClip (of_Z t) = Some t /\ of_Z t = Finite (t * scale).
Proof.
  unfold time_valid. intros H. apply Z.leb_le in H.
  assert (E : of_Z t = Finite (t * scale)).
  { apply of_Z_safe. change (2 ^ 53) with 9007199254740992. lia. }
  split; [| exact E]. rewrite E. unfold TimeClip.
  pose proof scale_pos as P.
  destruct (Z.leb_spec (Z.abs (t * scale)) (8640000000000000 * scale)) as [_|Hgt].
  - f_equal. apply Z.quot_mul. lia.
  - exfalso. rewrite Z.abs_mul, (Z.abs_eq scale) in Hgt by lia. nia.
Qed.

(** The time value that [TimeClip] gives is a valid time. *)
Lemma TimeClip_valid (n : Z) :
  Z.abs n <= 8640000000000000 * scale ->
  TimeClip (Finite n) = Some (Z.quot n scale) /\ time_valid (Z.quot n scale) = true.
Proof.
  intros H. unfold TimeClip. apply Z.leb_le in H. rewrite H. apply Z.leb_le in H.
  split; [reflexivity |]. unfold time_valid. apply Z.leb_le.
  pose proof scale_pos as P.
  rewrite <- Z.quot_abs by lia.
  apply Z.quot_le_upper_bound; lia.
Qed.

Lemma formatDate_valid (n : Z) :
  Z.abs n <= 8640000000000000 * scale ->
  formatDate (Some (Finite n)) = iso_date (Z.quot n scale).
Proof.
  intros H. destruct (TimeClip_valid n H) as [E V].
  unfold formatDate. rewrite E. unfold js_toISOString. rewrite V.
  replace (negb (js_truthy (Finite n)) && negb (is_zero (Finite n))) with false
    by (simpl; destruct (n =? 0); reflexivity).
  change ("T" ++ iso_time (Z.quot n scale) ++ "Z")
    with (String "T" (iso_time (Z.quot n scale) ++ "Z")).
  apply split_T_first_append, no_T_iso_date.
Qed.

Lemma formatDate_invalid (x : number) :
  x = PosInfinity \/ x = NegInfinity
  \/ (exists n, x = Finite n /\ 8640000000000000 * scale < Z.abs n) ->
  formatDate (Some x) = "Invalid Date".
Proof.
  intros [-> | [-> | (n & -> & H)]]; try reflexivity.
  unfold formatDate, TimeClip.
  replace (negb (js_truthy (Finite n)) && negb (is_zero (Finite n))) with false
    by (simpl; destruct (n =? 0); reflexivity).
  destruct (Z.leb_spec (Z.abs n) (8640000000000000 * scale)); [lia | reflexivity].
Qed.

Lemma four_digit_year_time_valid (t : Z) :
  four_digit_year_time t -> time_valid t = true.
Proof. unfold four_digit_year_time, time_valid. intros H. apply Z.leb_le. lia. Qed.

Lemma four_digit_year_days (t : Z) :
  four_digit_year_time t <-> -719528 <= t / msPerDay <= 2932896.
Proof.
  unfold four_digit_year_time, msPerDay. Z.div_mod_to_equations. lia.
Qed.

(** The date that [toISOString] writes is the UTC date of the time. *)
Lemma iso_date_four_digit_year (t : Z) :
  four_digit_year_time t -> renders_utc_date t (iso_date t).
Proof.
  intros H. apply four_digit_year_days in H.
  pose proof (civil_from_days_spec (t / msPerDay)) as S.
  pose proof (civil_from_days_calendar (t / msPerDay)) as C.
  unfold iso_date, renders_utc_date, utc_date.
  destruct (civil_from_days (t / msPerDay)) as [[y m] d].
  destruct S as (Hrt & Hm & Hd & Hy). apply Hy in H.
  exists y, m, d. unfold iso_year.
  replace ((0 <=? y) && (y <=? 9999)) with true
    by (symmetry; apply andb_true_intro; split; apply Z.leb_le; lia).
  split; [split; assumption |]. split; [lia |]. split; [reflexivity |].
  rewrite !length_append, !pad_digits_length. reflexivity.
Qed.

Lemma iso_date_expanded_year (t : Z) :
  ~ four_digit_year_time t -> renders_expanded_date t (iso_date t).
Proof.
  intros H. rewrite four_digit_year_days in H.
  pose proof (civil_from_days_spec (t / msPerDay)) as S.
  pose proof (civil_from_days_calendar (t / msPerDay)) as C.
  unfold iso_date, renders_expanded_date, utc_date.
  destruct (civil_from_days (t / msPerDay)) as [[y m] d].
  destruct S as (Hrt & Hm & Hd & Hy). rewrite Hy in H.
  unfold iso_year.
  destruct (Z.leb_spec 0 y); destruct (Z.leb_spec y 9999); simpl; try lia.
  - exists y, m, d, "+".
    destruct (Z.ltb_spec y 0); [lia |]. rewrite Z.abs_eq by lia.
    split; [split; assumption |]. split; [| reflexivity].
    right. split; [lia | reflexivity].
  - exists y, m, d, "-".
    destruct (Z.ltb_spec y 0); [| lia]. rewrite Z.abs_neq by lia.
    split; [split; assumption |]. split; [| reflexivity].
    left. split; [lia | reflexivity].
Qed.

Lemma formatDate_four_digit_year (n : Z) :
  Z.abs n <= 8640000000000000 * scale ->
  four_digit_year_time (Z.quot n scale) ->
  renders_utc_date (Z.quot n scale) (formatDate (Some (Finite n))).
Proof.
  intros Hn H. rewrite formatDate_valid by exact Hn.
  now apply iso_date_four_digit_year.
Qed.

Lemma formatDate_expanded_year (n : Z) :
  Z.abs n <= 8640000000000000 * scale ->
  ~ four_digit_year_time (Z.quot n scale) ->
  renders_expanded_date (Z.quot n scale) (formatDate (Some (Finite n))).
Proof.
  intros Hn H. rewrite formatDate_valid by exact Hn.
  now apply iso_date_expanded_year.
Qed.

Close Scope Z_scope.

(* ===================================================================== *)
(** ** UsageClient: properties *)
(* ===================================================================== *)

Open Scope nat_scope.
Open Scope list_scope.

Section UsageClientFacts.

Variable upstream : string -> nat -> FetchOutcome.

(** The body of [fetchApiKeyData], as the source reads. *)
Lemma fetchApiKeyData_eq (id key : string) (retryCount : nat) :
  fetchApiKeyData upstream id key retryCount =
  match upstream key retryCount with
  | FetchRejected =>
      (Failure {| error_id := id; error_key := maskApiKey key;
                  error := "Failed to fetch" |}, [UpstreamCall key])
  | FetchResponse status body =>
      if negb (response_ok status) then
        if (status =? 401)%Z && (retryCount <? maxRetries) then
          after_retry key ((Z.of_nat retryCount + 1) * 1000)
            (fetchApiKeyData upstream id key (retryCount + 1))
        else
          (Failure {| error_id := id; error_key := maskApiKey key;
                      error := ("HTTP " ++ js_toString status)%string |},
           [UpstreamCall key])
      else
        match body with
        | None =>
            (Failure {| error_id := id; error_key := maskApiKey key;
                        error := "Failed to fetch" |}, [UpstreamCall key])
        | Some apiData =>
            (result_of_body id (maskApiKey key) apiData, [UpstreamCall key])
        end
  end.
Proof.
  funelim (fetchApiKeyData upstream id key retryCount);
    repeat match goal with
      | H : upstream _ _ = _ |- _ => rewrite H; clear H
      | H : response_ok _ = _ |- _ => rewrite H; clear H
      | H : Z.eqb _ _ = _ |- _ => rewrite H; clear H
      | H : lt_dec ?a ?b = left ?l |- _ =>
          rewrite (proj2 (Nat.ltb_lt a b) l); clear H
      | H : lt_dec ?a ?b = right ?n |- _ =>
          rewrite (proj2 (Nat.ltb_nlt a b) n); clear H
      end; simpl; try reflexivity.
  all: try (destruct (retryCount <? maxRetries); reflexivity).
  all: match goal with
       | |- context [Z.eqb ?s 401] => destruct (Z.eqb s 401); reflexivity
       end.
Qed.

(** Induction on the retries that are left. *)
Lemma fetch_retry_ind (P : nat -> Prop) :
  (forall n, (n < maxRetries -> P (n + 1)) -> P n) -> forall n, P n.
Proof.
  intros step n.
  remember (maxRetries - n) as k eqn:Ek. revert n Ek.
  induction k as [|k IH]; intros n Ek; apply step; intros Hn.
  - lia.
  - apply IH. lia.
Qed.

Lemma result_of_body_key (id masked : string) (apiData : Upstream.ApiResponse) :
  result_key (result_of_body id masked apiData) = masked
  /\ result_id (result_of_body id masked apiData) = id.
Proof.
  unfold result_of_body. destruct (Upstream.usage apiData) as [u|];
    [destruct (Upstream.standard u) |]; split; reflexivity.
Qed.

Lemma fetchApiKeyData_key (id key : string) (n : nat) :
  result_key (fst (fetchApiKeyData upstream id key n)) = maskApiKey key
  /\ result_id (fst (fetchApiKeyData upstream id key n)) = id.
Proof.
  induction n as [n IH] using fetch_retry_ind.
  rewrite fetchApiKeyData_eq.
  destruct (upstream key n) as [|status body]; [split; reflexivity |].
  destruct (response_ok status); simpl.
  - destruct body; [apply result_of_body_key | split; reflexivity].
  - destruct (status =? 401)%Z; simpl; [| split; reflexivity].
    destruct (Nat.ltb_spec n maxRetries); [| split; reflexivity].
    simpl. apply IH. assumption.
Qed.

Lemma fetchApiKeyData_calls (id key : string) (n : nat) :
  n <= maxRetries ->
  1 <= upstream_calls (snd (fetchApiKeyData upstream id key n))
  /\ upstream_calls (snd (fetchApiKeyData upstream id key n)) + n <= 3.
Proof.
  induction n as [n IH] using fetch_retry_ind. intros Hle.
  rewrite fetchApiKeyData_eq. unfold maxRetries, upstream_calls in *.
  destruct (upstream key n) as [|status body]; [simpl; lia |].
  destruct (response_ok status); simpl.
  - destruct body; simpl; lia.
  - destruct (status =? 401)%Z; simpl; [| lia].
    destruct (Nat.ltb_spec n 2) as [Hlt|]; [| simpl; lia].
    specialize (IH Hlt ltac:(lia)). unfold after_retry.
    simpl. lia.
Qed.

Lemma fetchApiKeyData_sleeps (id key : string) :
  let tr := snd (fetchApiKeyData upstream id key 0) in
  sleeps tr = [] \/ sleeps tr = [1000%Z] \/ sleeps tr = [1000%Z; 2000%Z].
Proof.
  assert (S2 : sleeps (snd (fetchApiKeyData upstream id key 2)) = []).
  { rewrite fetchApiKeyData_eq.
    destruct (upstream key 2) as [|status body]; [reflexivity |].
    destruct (response_ok status); simpl; [destruct body; reflexivity |].
    rewrite andb_false_r. reflexivity. }
  assert (S1 : sleeps (snd (fetchApiKeyData upstream id key 1)) = []
               \/ sleeps (snd (fetchApiKeyData upstream id key 1)) = [2000%Z]).
  { rewrite fetchApiKeyData_eq.
    destruct (upstream key 1) as [|status body]; [left; reflexivity |].
    destruct (response_ok status); simpl; [destruct body; left; reflexivity |].
    destruct (status =? 401)%Z; simpl; [| left; reflexivity].
    right. change (1 + 1) with 2. now rewrite S2. }
  cbv zeta. rewrite fetchApiKeyData_eq.
  destruct (upstream key 0) as [|status body]; [left; reflexivity |].
  destruct (response_ok status); simpl; [destruct body; left; reflexivity |].
  destruct (status =? 401)%Z; simpl; [| left; reflexivity].
  change (0 + 1) with 1.
  destruct S1 as [E|E]; rewrite E; [right; left | right; right]; reflexivity.
Qed.

End UsageClientFacts.

(** The result depends on the secret only through its mask and through what
    the upstream service answers to it. *)
Lemma fetchApiKeyData_depends_on_mask
  (upstream upstream' : string -> nat -> FetchOutcome)
  (id key key' : string) (n : nat) :
  maskApiKey key = maskApiKey key' ->
  (forall m, upstream key m = upstream' key' m) ->
  fst (fetchApiKeyData upstream id key n)
  = fst (fetchApiKeyData upstream' id key' n).
Proof.
  intros Hmask Hup. induction n as [n IH] using fetch_retry_ind.
  rewrite (fetchApiKeyData_eq upstream id key n).
  rewrite (fetchApiKeyData_eq upstream' id key' n), <- Hup, <- Hmask.
  destruct (upstream key n) as [|status body]; [reflexivity |].
  destruct (response_ok status); simpl; [destruct body; reflexivity |].
  destruct (status =? 401)%Z; simpl; [| reflexivity].
  destruct (Nat.ltb_spec n maxRetries); [| reflexivity].
  simpl. apply IH. assumption.
Qed.

(** C3: a fetch makes between one and three upstream calls, and waits 1s and
    then 2s before its retries; a transport failure (the call rejects, or
    the body of a 2xx response cannot be read) is not retried and gives the
    failure "Failed to fetch"; a non-2xx status other than 401, and a 401
    once the two retries are used up, give the failure "HTTP {status}"; a
    401 with a retry left is followed by the wait and one more attempt;
    three 401 in a row give "HTTP 401" after three calls; and 401, 401 and
    then a 2xx response with a usage record give a success after exactly
    three calls with the waits 1000 ms and 2000 ms. *)
Theorem C3_retry_policy (upstream : string -> nat -> FetchOutcome)
  (id key : string) :
  let run := fetchApiKeyData upstream id key 0 in
  let three_calls :=
    [UpstreamCall key; Sleep 1000; UpstreamCall key; Sleep 2000;
     UpstreamCall key] in
  (1 <= upstream_calls (snd run) <= 3)
  /\ (sleeps (snd run) = [] \/ sleeps (snd run) = [1000%Z]
      \/ sleeps (snd run) = [1000%Z; 2000%Z])
  /\ (forall n,
        upstream key n = FetchRejected
        \/ (exists status, response_ok status = true
                           /\ upstream key n = FetchResponse status None) ->
        fetchApiKeyData upstream id key n
        = (failed_to_fetch id key, [UpstreamCall key]))
  /\ (forall n status body,
        upstream key n = FetchResponse status body ->
        response_ok status = false ->
        status <> 401%Z \/ maxRetries <= n ->
        fetchApiKeyData upstream id key n
        = (http_failure id key status, [UpstreamCall key]))
  /\ (forall n body,
        upstream key n = FetchResponse 401 body -> n < maxRetries ->
        fetchApiKeyData upstream id key n
        = after_retry key ((Z.of_nat n + 1) * 1000)
            (fetchApiKeyData upstream id key (n + 1)))
  /\ (forall b0 b1 b2,
        upstream key 0 = FetchResponse 401 b0 ->
        upstream key 1 = FetchResponse 401 b1 ->
        upstream key 2 = FetchResponse 401 b2 ->
        run = (Failure {| error_id := id; error_key := maskApiKey key;
                          error := "HTTP 401" |}, three_calls))
  /\ (forall b0 b1 status apiData usage standard,
        upstream key 0 = FetchResponse 401 b0 ->
        upstream key 1 = FetchResponse 401 b1 ->
        upstream key 2 = FetchResponse status (Some apiData) ->
        response_ok status = true ->
        Upstream.usage apiData = Some usage ->
        Upstream.standard usage = Some standard ->
        has_error (fst run) = false
        /\ run = (result_of_body id (maskApiKey key) apiData, three_calls)
        /\ upstream_calls (snd run) = 3
        /\ sleeps (snd run) = [1000%Z; 2000%Z]).
Proof.
  cbv zeta.
  split.
  { pose proof (fetchApiKeyData_calls upstream id key 0) as H.
    unfold maxRetries in H. lia. }
  split; [apply fetchApiKeyData_sleeps |].
  split.
  { intros n [H | (status & Hok & H)]; rewrite fetchApiKeyData_eq, H;
      [reflexivity | rewrite Hok; reflexivity]. }
  split.
  { intros n status body H Hok Hcase. rewrite fetchApiKeyData_eq, H, Hok. simpl.
    destruct Hcase as [Hne | Hn].
    - apply Z.eqb_neq in Hne. rewrite Hne. reflexivity.
    - destruct (Nat.ltb_spec n maxRetries); [lia |].
      rewrite andb_false_r. reflexivity. }
  split.
  { intros n body H Hn. rewrite fetchApiKeyData_eq, H. simpl.
    apply Nat.ltb_lt in Hn. rewrite Hn. reflexivity. }
  split.
  { intros b0 b1 b2 H0 H1 H2.
    rewrite fetchApiKeyData_eq, H0. simpl.
    rewrite fetchApiKeyData_eq, H1. simpl.
    rewrite fetchApiKeyData_eq, H2. reflexivity. }
  intros b0 b1 status apiData usage standard H0 H1 H2 Hok Hu Hs.
  assert (E : fetchApiKeyData upstream id key 0
              = (result_of_body id (maskApiKey key) apiData,
                 [UpstreamCall key; Sleep 1000; UpstreamCall key; Sleep 2000;
                  UpstreamCall key])).
  { rewrite fetchApiKeyData_eq, H0. simpl.
    rewrite fetchApiKeyData_eq, H1. simpl.
    rewrite fetchApiKeyData_eq, H2, Hok. reflexivity. }
  rewrite E. repeat split.
  unfold result_of_body. rewrite Hu, Hs. reflexivity.
Qed.

Lemma C3_retry_policy_witness :
  let run := fetchApiKeyData upstream_401_401_200 "k1" "fk-abcdefgh1234" 0 in
  has_error (fst run) = false
  /\ upstream_calls (snd run) = 3
  /\ sleeps (snd run) = [1000%Z; 2000%Z].
Proof.
  cbv zeta.
  destruct (C3_retry_policy upstream_401_401_200 "k1" "fk-abcdefgh1234")
    as (_ & _ & _ & _ & _ & _ & H).
  destruct (H None None 200%Z _ _ _ eq_refl eq_refl eq_refl eq_refl eq_refl eq_refl)
    as (A & _ & B & C).
  repeat split; assumption.
Defined.

(** C4, the claim as stated fails: a window start of 253402300800000 ms is a
    valid timestamp (10000-01-01T00:00:00Z), and the success result renders
    it with a signed six-digit year, thirteen characters long, which is
    neither a YYYY-MM-DD text nor "N/A" nor "Invalid Date". *)
Lemma C4_year_10000_rendering :
  time_valid 253402300800000 = true
  /\ fst (fetchApiKeyData upstream_year_10000 "k1" "fk-abcdefgh1234" 0)
     = Usage {| usage_id := "k1"; usage_key := "fk-a...1234";
                startDate := "+010000-01-01"; endDate := "N/A";
                orgTotalTokensUsed := of_Z 100; totalAllowance := of_Z 500;
                usedRatio := of_Z 0 |}
  /\ String.length "+010000-01-01" = 13.
Proof. repeat split; vm_compute; reflexivity. Qed.

(** C4 (amended): on a 2xx response the fetch returns the failure "Failed to
    fetch" when the reading of the body throws (the body is not a JSON text,
    or is [null]); for every other body it returns the failure "Invalid API
    response" when usage.standard is absent or falsy, and otherwise a
    success whose startDate and endDate are [formatDate] of the upstream
    timestamps and whose orgTotalTokensUsed, totalAllowance and usedRatio
    are the upstream values, or 0 when the value is missing or falsy (null,
    0, NaN). [formatDate] gives "N/A" for a null or undefined timestamp
    (and for NaN), "Invalid Date" for an infinite timestamp and for one
    beyond 8.64e15 ms either side of the epoch; for every other timestamp,
    with its fraction of a millisecond cut off, it gives the ten-character
    text YYYY-MM-DD of the UTC date when that date lies in the years 0000
    to 9999, and the same date with a signed six-digit year otherwise. A
    timestamp that is an integer [t] of the valid range is the number
    [Finite (t * scale)], whose time is [t]. *)
Theorem C4_response_normalization (upstream : string -> nat -> FetchOutcome)
  (id key : string) (n : nat) (status : Z) (body : option Upstream.ApiResponse) :
  upstream key n = FetchResponse status body ->
  response_ok status = true ->
  let r := fst (fetchApiKeyData upstream id key n) in
  (body = None -> r = failed_to_fetch id key)
  /\ (forall apiData,
        body = Some apiData -> usage_standard apiData = None ->
        r = invalid_api_response id key)
  /\ (forall apiData usage standard,
        body = Some apiData ->
        Upstream.usage apiData = Some usage ->
        Upstream.standard usage = Some standard ->
        exists d,
          r = Usage d
          /\ usage_id d = id /\ usage_key d = maskApiKey key
          /\ startDate d = formatDate (Upstream.startDate usage)
          /\ endDate d = formatDate (Upstream.endDate usage)
          /\ orgTotalTokensUsed d
             = match Upstream.orgTotalTokensUsed standard with
               | Some NaN | None => Finite 0 | Some v => v end
          /\ totalAllowance d
             = match Upstream.totalAllowance standard with
               | Some NaN | None => Finite 0 | Some v => v end
          /\ usedRatio d
             = match Upstream.usedRatio standard with
               | Some NaN | None => Finite 0 | Some v => v end)
  /\ formatDate None = "N/A"%string
  /\ formatDate (Some NaN) = "N/A"%string
  /\ formatDate (Some PosInfinity) = "Invalid Date"%string
  /\ formatDate (Some NegInfinity) = "Invalid Date"%string
  /\ (forall m, (8640000000000000 * scale < Z.abs m)%Z ->
                formatDate (Some (Finite m)) = "Invalid Date"%string)
  /\ (forall m, (Z.abs m <= 8640000000000000 * scale)%Z ->
                four_digit_year_time (Z.quot m scale) ->
                renders_utc_date (Z.quot m scale) (formatDate (Some (Finite m))))
  /\ (forall m, (Z.abs m <= 8640000000000000 * scale)%Z ->
                ~ four_digit_year_time (Z.quot m scale) ->
                renders_expanded_date (Z.quot m scale)
                  (formatDate (Some (Finite m))))
  /\ (forall t, time_valid t = true ->
                of_Z t = Finite (t * scale)
                /\ (Z.abs (t * scale) <= 8640000000000000 * scale)%Z
                /\ Z.quot (t * scale) scale = t).
Proof.
  intros Hup Hok. cbv zeta.
  assert (R : fst (fetchApiKeyData upstream id key n)
              = match body with
                | None => failed_to_fetch id key
                | Some apiData => result_of_body id (maskApiKey key) apiData
                end).
  { rewrite fetchApiKeyData_eq, Hup, Hok. destruct body; reflexivity. }
  rewrite R. clear R.
  split; [intros ->; reflexivity |].
  split.
  { intros apiData ->. unfold usage_standard, result_of_body, invalid_api_response.
    destruct (Upstream.usage apiData) as [u|]; [| reflexivity].
    intros ->. reflexivity. }
  split.
  { intros apiData usage standard -> Hu Hs.
    unfold result_of_body. rewrite Hu, Hs.
    eexists. split; [reflexivity |]. cbn [usage_id usage_key startDate endDate
      orgTotalTokensUsed totalAllowance usedRatio].
    assert (Z : forall v, or_zero v
                = match v with Some NaN | None => Finite 0 | Some x => x end).
    { intros [[| | |x]|]; try reflexivity. unfold or_zero, js_truthy.
      destruct (Z.eqb_spec x 0); [subst; reflexivity | reflexivity]. }
    rewrite !Z. repeat split. }
  split; [reflexivity |]. split; [reflexivity |].
  split; [reflexivity |]. split; [reflexivity |].
  split.
  { intros m Hm. apply formatDate_invalid. right. right. exists m. now split. }
  split; [apply formatDate_four_digit_year |].
  split; [apply formatDate_expanded_year |].
  intros t Ht. destruct (TimeClip_of_Z t Ht) as [_ E].
  pose proof scale_pos as P.
  split; [exact E |]. split.
  - unfold time_valid in Ht. apply Z.leb_le in Ht.
    rewrite Z.abs_mul, (Z.abs_eq scale) by lia. nia.
  - apply Z.quot_mul. lia.
Qed.

Lemma C4_response_normalization_witness :
  renders_utc_date 1709164800000
    (formatDate (Some (of_Z 1709164800000)))
  /\ exists d,
       fst (fetchApiKeyData upstream_401_401_200 "k1" "fk-abcdefgh1234" 2) = Usage d
       /\ startDate d = "2024-02-29"%string
       /\ endDate d = "N/A"%string
       /\ orgTotalTokensUsed d = of_Z 100
       /\ totalAllowance d = of_Z 500.
Proof.
  destruct (C4_response_normalization upstream_401_401_200 "k1" "fk-abcdefgh1234"
              2 200%Z _ eq_refl eq_refl)
    as (_ & _ & H & _ & _ & _ & _ & _ & Hd & _ & Hz).
  split.
  - destruct (Hz 1709164800000%Z eq_refl) as (E & Hr & Hq).
    rewrite E. rewrite <- Hq at 1. apply Hd; [exact Hr |].
    rewrite Hq. unfold four_digit_year_time. lia.
  - destruct (H _ _ _ eq_refl eq_refl eq_refl)
      as (d & E & _ & _ & Hs & He & Hu & Ha & _).
    exists d. split; [exact E |].
    split; [rewrite Hs; vm_compute; reflexivity |].
    split; [rewrite He; reflexivity |].
    split; [rewrite Hu; vm_compute; reflexivity |].
    rewrite Ha; vm_compute; reflexivity.
Defined.

(** C8, the claim as stated fails: the secret "abcd...efgh" is its own mask, so
    the key field of the result, success or failure, is the raw secret. *)
Lemma C8_key_field_is_raw_secret :
  maskApiKey "abcd...efgh" = "abcd...efgh"
  /\ fst (fetchApiKeyData upstream_401_401_200 "k1" "abcd...efgh" 2)
     = Usage {| usage_id := "k1"; usage_key := "abcd...efgh";
                startDate := "2024-02-29"; endDate := "N/A";
                orgTotalTokensUsed := of_Z 100; totalAllowance := of_Z 500;
                usedRatio := of_Z 0 |}
  /\ fst (fetchApiKeyData sample_upstream "b" "abcd...efgh" 0)
     = Failure {| error_id := "b"; error_key := "abcd...efgh";
                  error := "HTTP 401" |}.
Proof. repeat split; vm_compute; reflexivity. Qed.

(** C8 (amended): every result of the fetch, success or failure, carries the
    id it was given and key = maskApiKey(secret); the result is determined
    by the id, the mask and the answers of the upstream service, so that
    two secrets with the same mask to which the service gives the same
    answers yield the same result; and the key field is the raw secret
    exactly when the secret is its own mask, which are the secrets of 7 or
    11 characters whose fifth to seventh characters are three dots. *)
Theorem C8_result_carries_masked_key (upstream : string -> nat -> FetchOutcome)
  (id key : string) (n : nat) :
  result_key (fst (fetchApiKeyData upstream id key n)) = maskApiKey key
  /\ result_id (fst (fetchApiKeyData upstream id key n)) = id
  /\ (forall (upstream' : string -> nat -> FetchOutcome) (key' : string),
        maskApiKey key = maskApiKey key' ->
        (forall m, upstream key m = upstream' key' m) ->
        fst (fetchApiKeyData upstream id key n)
        = fst (fetchApiKeyData upstream' id key' n))
  /\ (result_key (fst (fetchApiKeyData upstream id key n)) = key
      <-> (String.length key = 7 \/ String.length key = 11)
          /\ String.substring 4 3 key = "..."%string).
Proof.
  split; [apply fetchApiKeyData_key |].
  split; [apply fetchApiKeyData_key |].
  split; [intros upstream' key'; apply fetchApiKeyData_depends_on_mask |].
  rewrite (proj1 (fetchApiKeyData_key upstream id key n)).
  apply maskApiKey_fixed.
Qed.

Lemma C8_result_carries_masked_key_witness :
  maskApiKey "fk-a1111111234" = maskApiKey "fk-a2222221234"
  /\ result_key (fst (fetchApiKeyData upstream_401_401_200 "k1" "fk-a1111111234" 0))
     = "fk-a...1234"%string
  /\ fst (fetchApiKeyData upstream_401_401_200 "k1" "fk-a1111111234" 0)
     = fst (fetchApiKeyData upstream_401_401_200 "k1" "fk-a2222221234" 0)
  /\ result_key (fst (fetchApiKeyData upstream_401_401_200 "k1" "abcd..." 0))
     = "abcd..."%string.
Proof.
  destruct (C8_result_carries_masked_key upstream_401_401_200 "k1"
              "fk-a1111111234" 0) as (Hk & _ & H & _).
  destruct (C8_result_carries_masked_key upstream_401_401_200 "k1"
              "abcd..." 0) as (_ & _ & _ & F).
  split; [reflexivity |]. split; [exact Hk |].
  split; [apply (H upstream_401_401_200 "fk-a2222221234"); reflexivity |].
  apply F. split; [left; reflexivity | reflexivity].
Defined.

(* ===================================================================== *)
(** ** BatchScheduler: properties *)
(* ===================================================================== *)

Section BatchSchedulerFacts.

Context {T R E : Type}.
Variable processor : T -> R * list E.

Lemma schedule_cons (d : Z) (c : list T) (cs : list (list T)) :
  schedule processor d (c :: cs)
  = run_chunk processor c
    ++ match cs with
       | [] => []
       | _ :: _ => BatchDelay d :: schedule processor d cs
       end.
Proof.
  destruct cs; simpl; reflexivity.
Qed.

Lemma chunks_nil (fuel c : nat) : chunks fuel c (@nil T) = [].
Proof. destruct fuel; reflexivity. Qed.

Lemma chunks_cons (fuel c : nat) (x : T) (l : list T) :
  chunks (S fuel) c (x :: l)
  = firstn c (x :: l) :: chunks fuel c (skipn c (x :: l)).
Proof. reflexivity. Qed.

Lemma chunks_nonempty (fuel c : nat) (l : list T) :
  l <> [] -> List.length l <= fuel -> chunks fuel c l <> [].
Proof.
  destruct l as [|x l]; [congruence |]. intros _ H.
  destruct fuel; simpl in *; [lia | discriminate].
Qed.

(** The loop, from any of its states on: it returns, its results grow by
    the results of the remaining items in their order, and its trace grows
    by the schedule of the chunks of the remaining items. *)
Lemma batchLoop_spec (items : list T) (c : nat) (d : Z) :
  1 <= c ->
  forall fuel i results trace,
    List.length items - i <= fuel ->
    batchLoop processor fuel items c d i results trace
    = Some (results ++ map (fun x => fst (processor x)) (skipn i items),
            trace ++ schedule processor d (chunks fuel c (skipn i items))).
Proof.
  intros Hc. induction fuel as [|fuel IH]; intros i results trace Hfuel.
  - simpl. destruct (Nat.ltb_spec i (List.length items)); [lia |].
    rewrite skipn_all2 by lia. simpl. now rewrite !app_nil_r.
  - cbn [batchLoop]. destruct (Nat.ltb_spec i (List.length items)) as [Hi|Hi].
    + cbv zeta. rewrite IH by lia.
      unfold js_slice. replace (i + c - i) with c by lia.
      assert (Hl : List.length (skipn i items) = List.length items - i)
        by apply length_skipn.
      replace (skipn (i + c) items) with (skipn c (skipn i items))
        by (rewrite skipn_skipn; f_equal; lia).
      destruct (skipn i items) as [|x l] eqn:El; [simpl in Hl; lia |].
      rewrite chunks_cons, schedule_cons.
      set (l0 := x :: l) in *.
      f_equal. f_equal.
      * rewrite <- app_assoc. f_equal.
        rewrite map_map, <- map_app, firstn_skipn. reflexivity.
      * unfold run_chunk. rewrite map_map.
        destruct (Nat.ltb_spec (i + c) (List.length items)) as [Hn|Hn].
        -- assert (Hne : skipn c l0 <> []).
           { intros E0. apply (f_equal (@List.length T)) in E0.
             rewrite length_skipn in E0.
             change (List.length (@nil T)) with 0 in E0. lia. }
           pose proof (chunks_nonempty fuel c (skipn c l0) Hne) as Hcs.
           rewrite length_skipn in Hcs.
           destruct (chunks fuel c (skipn c l0)) as [|c0 cs];
             [exfalso; apply Hcs; [lia | reflexivity] |].
           rewrite <- !app_assoc. reflexivity.
        -- rewrite (skipn_all2 (n:=c) l0) by (rewrite Hl; lia).
           rewrite chunks_nil. rewrite <- !app_assoc. reflexivity.
    + rewrite skipn_all2 by lia. rewrite chunks_nil. simpl.
      now rewrite !app_nil_r.
Qed.

(** For a concurrency of at least 1, [batchProcess] returns. *)
Lemma batchProcess_returns (items : list T) (c : nat) (d : Z) :
  1 <= c ->
  batchProcess processor items c d
  = Some (map (fun x => fst (processor x)) items,
          schedule processor d (chunks (List.length items) c items)).
Proof.
  intros Hc. unfold batchProcess.
  rewrite (batchLoop_spec items c d Hc) by lia. reflexivity.
Qed.

(** With a concurrency of 0 the loop variable never advances: whatever
    the fuel, the loop over a non-empty list does not come to its end. *)
Lemma batchLoop_zero_concurrency (items : list T) (d : Z) :
  forall fuel i results trace,
    i < List.length items ->
    batchLoop processor fuel items 0 d i results trace = None.
Proof.
  induction fuel as [|fuel IH]; intros i results trace Hi; cbn [batchLoop];
    destruct (Nat.ltb_spec i (List.length items)); try lia; [reflexivity |].
  cbv zeta. apply IH. lia.
Qed.

Lemma chunks_concat (c : nat) :
  1 <= c ->
  forall fuel (l : list T), List.length l <= fuel -> List.concat (chunks fuel c l) = l.
Proof.
  intros Hc. induction fuel as [|fuel IH]; intros [|x l] H;
    try reflexivity; [cbn [List.length] in H; lia |].
  rewrite chunks_cons. cbn [List.concat].
  rewrite IH; [apply firstn_skipn |].
  rewrite length_skipn. lia.
Qed.

Lemma chunks_nth (c : nat) :
  forall fuel (l : list T) k,
    k < List.length (chunks fuel c l) ->
    nth k (chunks fuel c l) [] = firstn c (skipn (k * c) l)
    /\ (1 <= c -> 1 <= List.length (nth k (chunks fuel c l) []) <= c).
Proof.
  induction fuel as [|fuel IH]; intros [|x l] k Hk;
    try (cbn [chunks List.length] in Hk; lia).
  rewrite chunks_cons in *. destruct k as [|k].
  - cbn [nth]. split; [reflexivity |]. intros Hc.
    rewrite length_firstn. cbn [List.length]. lia.
  - cbn [nth]. cbn [List.length] in Hk.
    destruct (IH (skipn c (x :: l)) k) as [Hnth B]; [lia |].
    split; [| exact B].
    rewrite Hnth, skipn_skipn. do 2 f_equal. lia.
Qed.

Lemma chunks_length (c : nat) :
  1 <= c ->
  forall fuel (l : list T),
    List.length l <= fuel ->
    List.length (chunks fuel c l) = (List.length l + c - 1) / c.
Proof.
  intros Hc. induction fuel as [|fuel IH]; intros l H.
  - destruct l as [|x l]; [| cbn [List.length] in H; lia].
    cbn [chunks List.length]. symmetry. apply Nat.div_small. lia.
  - destruct l as [|x l].
    + cbn [chunks List.length]. symmetry. apply Nat.div_small. lia.
    + rewrite chunks_cons. set (l0 := x :: l) in *.
      assert (H0 : 1 <= List.length l0) by (subst l0; cbn [List.length]; lia).
      cbn [List.length].
      rewrite IH by (rewrite length_skipn; lia).
      rewrite length_skipn.
      destruct (Nat.le_gt_cases (List.length l0) c) as [Hle|Hgt].
      * replace (List.length l0 - c + c - 1) with (c - 1) by lia.
        rewrite (Nat.div_small (c - 1) c) by lia.
        apply (Nat.div_unique _ c 1 (List.length l0 - 1)); lia.
      * replace (List.length l0 + c - 1)
          with ((List.length l0 - c + c - 1) + 1 * c) by lia.
        rewrite Nat.div_add by lia. lia.
Qed.

Lemma delays_app (tr1 tr2 : list (BatchEvent T E)) :
  delays (tr1 ++ tr2) = delays tr1 ++ delays tr2.
Proof. unfold delays. apply flat_map_app. Qed.

Lemma schedule_delays (d : Z) (cs : list (list T)) :
  delays (schedule processor d cs) = repeat d (List.length cs - 1).
Proof.
  induction cs as [|c cs IH]; [reflexivity |].
  rewrite schedule_cons, delays_app.
  destruct cs as [|c' cs]; [reflexivity |].
  change (delays (run_chunk processor c)) with (@nil Z). cbn [app].
  change (delays (BatchDelay d :: schedule processor d (c' :: cs)))
    with (d :: delays (schedule processor d (c' :: cs))).
  rewrite IH. simpl. now rewrite Nat.sub_0_r.
Qed.

Lemma schedule_last (d : Z) (cs : list (list T)) :
  cs <> [] ->
  exists c, last cs [] = c
    /\ last (schedule processor d cs) (BatchDelay d)
       = BatchSettled (map (fun x => snd (processor x)) c).
Proof.
  induction cs as [|c cs IH]; [congruence |]. intros _.
  destruct cs as [|c' cs].
  - exists c. split; reflexivity.
  - destruct IH as (c0 & E0 & L0); [discriminate |].
    exists c0. split; [exact E0 |].
    rewrite schedule_cons. rewrite (schedule_cons d c' cs) in *.
    unfold run_chunk in *. cbn [app last] in *. exact L0.
Qed.

End BatchSchedulerFacts.

(** C5: for a concurrency c >= 1 the scheduler returns; its results are the
    processors' results in the order of the items (result i belongs to item
    i); the items are processed as the ceil(n/c) consecutive chunks
    items[k*c .. k*c+c), each started as a whole and settled as a whole
    before anything else happens; exactly one delay d lies between two
    consecutive chunks, so there are ceil(n/c) - 1 delays, and the trace of
    a non-empty run ends with the settling of the last chunk, not with a
    delay. *)
Theorem C5_batchProcess_schedule {T R E : Type} (processor : T -> R * list E)
  (items : list T) (c : nat) (d : Z) :
  1 <= c ->
  let cs := chunks (List.length items) c items in
  batchProcess processor items c d
  = Some (map (fun x => fst (processor x)) items, schedule processor d cs)
  /\ List.concat cs = items
  /\ List.length cs = (List.length items + c - 1) / c
  /\ (forall k, k < List.length cs ->
        nth k cs [] = js_slice items (k * c) (k * c + c)
        /\ 1 <= List.length (nth k cs []) <= c)
  /\ delays (schedule processor d cs)
     = repeat d ((List.length items + c - 1) / c - 1)
  /\ (items <> [] ->
      last (schedule processor d cs) (BatchDelay d)
      = BatchSettled (map (fun x => snd (processor x)) (last cs []))).
Proof.
  intros Hc cs.
  split; [apply batchProcess_returns; exact Hc |].
  split; [apply chunks_concat; [exact Hc | lia] |].
  assert (Hlen : List.length cs = (List.length items + c - 1) / c)
    by (apply chunks_length; [exact Hc | lia]).
  split; [exact Hlen |].
  split.
  { intros k Hk.
    destruct (chunks_nth c (List.length items) items k Hk) as [Hnth B].
    split; [| apply B; exact Hc].
    unfold js_slice. replace (k * c + c - k * c) with c by lia. exact Hnth. }
  split; [rewrite schedule_delays, Hlen; reflexivity |].
  intros Hne.
  destruct (schedule_last processor d cs) as (c0 & E0 & L0).
  { apply chunks_nonempty; [exact Hne | lia]. }
  rewrite L0, E0. reflexivity.
Qed.

Lemma C5_batchProcess_schedule_witness :
  let processor := fun n : nat => (n * 2, [n]) in
  batchProcess processor (seq 0 25) 10 100
  = Some (map (fun n => n * 2) (seq 0 25),
          [BatchStart (seq 0 10); BatchSettled (map (fun n => [n]) (seq 0 10));
           BatchDelay 100;
           BatchStart (seq 10 10); BatchSettled (map (fun n => [n]) (seq 10 10));
           BatchDelay 100;
           BatchStart (seq 20 5); BatchSettled (map (fun n => [n]) (seq 20 5))]).
Proof.
  cbv zeta.
  destruct (C5_batchProcess_schedule (fun n : nat => (n * 2, [n])) (seq 0 25)
              10 100 ltac:(lia)) as (H & _).
  rewrite H. reflexivity.
Defined.

(* ===================================================================== *)
(** ** The sort of the aggregator *)
(* ===================================================================== *)

Section SortFacts.

Context {A : Type}.
Variable key : A -> number.

Lemma sort_insert_perm (x : A) (l : list A) :
  Permutation (sort_insert (descending key) x l) (x :: l).
Proof.
  induction l as [|y l IH]; cbn [sort_insert]; [apply Permutation_refl |].
  destruct (js_lt (Finite 0) (descending key x y)); [| apply Permutation_refl].
  eapply perm_trans; [apply perm_skip, IH | apply perm_swap].
Qed.

Lemma js_sort_perm (l : list A) : Permutation (js_sort (descending key) l) l.
Proof.
  induction l as [|x l IH]; cbn [js_sort]; [apply perm_nil |].
  eapply perm_trans; [apply sort_insert_perm | apply perm_skip, IH].
Qed.






(** Sorting the decorated list is decorating the sorted list. *)
Lemma sort_insert_decorated (x : A) (l : list A) :
  sort_insert (fun a b : A * number => js_sub (snd b) (snd a)) (x, key x)
    (map (fun r => (r, key r)) l)
  = map (fun r => (r, key r)) (sort_insert (descending key) x l).
Proof.
  induction l as [|y l IH]; cbn [sort_insert map snd]; [reflexivity |].
  unfold descending at 1.
  destruct (js_lt (Finite 0) (js_sub (key y) (key x))); [| reflexivity].
  cbn [map]. now rewrite IH.
Qed.

Lemma js_sort_decorated (l : list A) :
  map fst (js_sort (fun a b : A * number => js_sub (snd b) (snd a))
             (map (fun r => (r, key r)) l))
  = js_sort (descending key) l.
Proof.
  assert (H : js_sort (fun a b : A * number => js_sub (snd b) (snd a))
                (map (fun r => (r, key r)) l)
              = map (fun r => (r, key r)) (js_sort (descending key) l)).
  { induction l as [|x l IH]; cbn [js_sort map]; [reflexivity |].
    rewrite IH. apply sort_insert_decorated. }
  rewrite H, map_map. cbn [fst]. apply map_id.
Qed.

End SortFacts.

(* ===================================================================== *)
(** ** Aggregator: properties *)
(* ===================================================================== *)

(** The key that the code computes is the key of the specification. *)
Lemma remaining_eq_key (d : ApiUsageData) : remaining d = remaining_key d.
Proof.
  unfold remaining, remaining_key.
  destruct (totalAllowance d) as [| | |a]; destruct (orgTotalTokensUsed d) as [| | |u];
    try reflexivity.
  unfold js_sub, js_neg, js_add. rewrite Math_max_zero_round.
  reflexivity.
Qed.

(** For two integers of the safe range whose difference is in the safe
    range, the key is the exact value of max(0, allowance - used). *)
Lemma remaining_key_exact (d : ApiUsageData) (used allowance : Z) :
  holds_integers d used allowance ->
  (Z.abs used <= 2 ^ 53)%Z -> (Z.abs allowance <= 2 ^ 53)%Z ->
  remaining_key d = of_Z (Z.max 0 (allowance - used)).
Proof.
  intros [Hu Ha] Bu Ba. unfold remaining_key. rewrite Hu, Ha.
  rewrite !of_Z_safe by assumption. unfold of_Z. f_equal.
  pose proof scale_pos. nia.
Qed.

Lemma sortedValid_eq (validResults : list ApiUsageData) :
  sortedValid validResults = js_sort (descending remaining_key) validResults.
Proof.
  unfold sortedValid.
  rewrite (map_ext _ (fun r => (r, remaining_key r)))
    by (intros r; now rewrite remaining_eq_key).
  apply js_sort_decorated.
Qed.

Lemma sortedValid_perm (l : list ApiUsageData) : Permutation (sortedValid l) l.
Proof. rewrite sortedValid_eq. apply js_sort_perm. Qed.



Lemma usage_results_successes (results : list ApiKeyResult) :
  usage_results results = successes_of results.
Proof.
  induction results as [|[d|e] l IH]; simpl; [reflexivity | | exact IH].
  now rewrite IH.
Qed.


Lemma partition_results_perm (results : list ApiKeyResult) :
  Permutation (map Usage (usage_results results) ++ filter has_error results)
    results.
Proof.
  induction results as [|[d|e] l IH]; simpl.
  - apply perm_nil.
  - apply perm_skip, IH.
  - apply Permutation_sym, Permutation_cons_app, Permutation_sym, IH.
Qed.

Lemma successes_of_app (l l' : list ApiKeyResult) :
  successes_of (l ++ l') = successes_of l ++ successes_of l'.
Proof. unfold successes_of. apply flat_map_app. Qed.

Lemma successes_of_map_Usage (l : list ApiUsageData) :
  successes_of (map Usage l) = l.
Proof. induction l as [|d l IH]; simpl; [reflexivity | now rewrite IH]. Qed.

(** One step of the [reduce] of the totals. *)
Lemma sum_totals_snoc (l : list ApiUsageData) (d : ApiUsageData) :
  sum_totals (l ++ [d])
  = {| total_orgTotalTokensUsed :=
         js_add (total_orgTotalTokensUsed (sum_totals l)) (orgTotalTokensUsed d);
       total_totalAllowance :=
         js_add (total_totalAllowance (sum_totals l)) (totalAllowance d);
       totalRemaining :=
         js_add (totalRemaining (sum_totals l)) (remaining_key d) |}.
Proof.
  unfold sum_totals. rewrite fold_left_app. cbn [fold_left].
  rewrite <- remaining_eq_key. reflexivity.
Qed.

Open Scope Z_scope.

(** The sum of two integers of the safe range whose sum is in the safe
    range is exact. *)
Lemma js_add_exact (x y : Z) :
  Z.abs x <= 2 ^ 53 -> Z.abs y <= 2 ^ 53 ->
  js_add (of_Z x) (of_Z y) = of_Z (x + y).
Proof.
  intros Hx Hy. rewrite (of_Z_safe x), (of_Z_safe y) by assumption.
  unfold js_add, of_Z. f_equal. lia.
Qed.

Lemma sumZ_cons (x : Z) (l : list Z) : sumZ (x :: l) = x + sumZ l.
Proof. reflexivity. Qed.

(** On integers that are not negative and whose sums stay in the safe
    range, the [reduce] computes the exact sums. *)
Lemma sum_totals_exact (ints : list (Z * Z)) :
  forall (l : list ApiUsageData) (U A R : Z),
  map (fun d => (orgTotalTokensUsed d, totalAllowance d)) l
  = map (fun p => (of_Z (fst p), of_Z (snd p))) ints ->
  Forall (fun p => 0 <= fst p /\ 0 <= snd p) ints ->
  0 <= U -> 0 <= R <= A ->
  U + sumZ (map fst ints) <= 2 ^ 53 ->
  A + sumZ (map snd ints) <= 2 ^ 53 ->
  fold_left
    (fun acc res =>
       {| total_orgTotalTokensUsed :=
            js_add (total_orgTotalTokensUsed acc) (orgTotalTokensUsed res);
          total_totalAllowance :=
            js_add (total_totalAllowance acc) (totalAllowance res);
          totalRemaining :=
            js_add (totalRemaining acc)
              (Math_max (Finite 0)
                 (js_sub (totalAllowance res) (orgTotalTokensUsed res))) |})
    l {| total_orgTotalTokensUsed := of_Z U;
         total_totalAllowance := of_Z A;
         totalRemaining := of_Z R |}
  = {| total_orgTotalTokensUsed := of_Z (U + sumZ (map fst ints));
       total_totalAllowance := of_Z (A + sumZ (map snd ints));
       totalRemaining :=
         of_Z (R + sumZ (map (fun p => Z.max 0 (snd p - fst p)) ints)) |}.
Proof.
  induction ints as [|[u a] ints IH]; intros l U A R E Hpos HU HR SU SA.
  - destruct l; [| discriminate E]. simpl. rewrite !Z.add_0_r. reflexivity.
  - destruct l as [|d l]; [discriminate E |].
    simpl in E. injection E as Eu Ea E.
    inversion Hpos as [|? ? [Pu Pa] Hpos']; subst. simpl in Pu, Pa.
    assert (Su : 0 <= sumZ (map fst ints)).
    { clear - Hpos'. induction Hpos' as [|p ? [? ?]]; simpl; lia. }
    assert (Sa : 0 <= sumZ (map snd ints)).
    { clear - Hpos'. induction Hpos' as [|p ? [? ?]]; simpl; lia. }
    cbn [map fst snd] in SU, SA |- *.
    rewrite !sumZ_cons in *.
    cbn [fold_left total_orgTotalTokensUsed total_totalAllowance totalRemaining].
    fold (remaining d). rewrite remaining_eq_key.
    rewrite (remaining_key_exact d u a) by (try split; try assumption; lia).
    rewrite Eu, Ea.
    rewrite (js_add_exact U u), (js_add_exact A a),
      (js_add_exact R (Z.max 0 (a - u))) by lia.
    rewrite (IH l (U + u) (A + a) (R + Z.max 0 (a - u))) by (try assumption; lia).
    repeat rewrite Z.add_assoc. reflexivity.
Qed.

(** The totals of a report whose success entries hold integers. *)
Lemma aggregate_totals_exact (beijingTime : Z) (keyPairs : list ApiKey)
  (results : list ApiKeyResult) (ints : list (Z * Z)) :
  map (fun d => (orgTotalTokensUsed d, totalAllowance d)) (successes_of results)
  = map (fun p => (of_Z (fst p), of_Z (snd p))) ints ->
  Forall (fun p => 0 <= fst p /\ 0 <= snd p) ints ->
  sumZ (map fst ints) <= 2 ^ 53 ->
  sumZ (map snd ints) <= 2 ^ 53 ->
  totals (aggregate beijingTime keyPairs results)
  = {| total_orgTotalTokensUsed := of_Z (sumZ (map fst ints));
       total_totalAllowance := of_Z (sumZ (map snd ints));
       totalRemaining :=
         of_Z (sumZ (map (fun p => Z.max 0 (snd p - fst p)) ints)) |}.
Proof.
  intros E Hpos SU SA.
  unfold aggregate. cbn [totals]. rewrite usage_results_successes.
  unfold sum_totals, emptyTotals. change (Finite 0) with (of_Z 0).
  rewrite (sum_totals_exact ints _ 0 0 0) by (try assumption; lia).
  reflexivity.
Qed.

Close Scope Z_scope.

Section OrchestratorFacts.

Variable upstream : string -> nat -> FetchOutcome.

(** [getAggregatedData] returns, and its report is the aggregate of the
    results of the key pairs; without key pairs it has no effect, and with
    key pairs it runs the scheduler once. *)
Lemma getAggregatedData_eq (kv : KVNamespace) (now : Z) :
  let keyPairs := getAllKeys kv in
  exists tr,
    getAggregatedData upstream kv now
    = Some (aggregate (getBeijingTime now) keyPairs (fetch_all upstream keyPairs),
            tr)
    /\ (keyPairs = [] -> tr = [])
    /\ (keyPairs <> [] -> exists events, tr = [SchedulerRun events]).
Proof.
  cbv zeta. unfold getAggregatedData.
  destruct (getAllKeys kv) as [|p l] eqn:E.
  - exists []. repeat split. congruence.
  - cbn [List.length Nat.eqb].
    rewrite batchProcess_returns by lia.
    eexists. split; [reflexivity |].
    split; [discriminate |]. intros _. eexists. reflexivity.
Qed.

End OrchestratorFacts.




(** C2, the claim as stated fails: the total of the allowances 2^53 and 1 is
    2^53, not their exact sum 2^53 + 1, which is not a double. *)
Lemma C2_sum_is_rounded :
  totalAllowance sample_tie_first = Finite (2 ^ 53 * scale)
  /\ totalAllowance sample_one_token = Finite (1 * scale)
  /\ total_totalAllowance
       (totals (aggregate 0 (getAllKeys sample_kv)
                  [Usage sample_tie_first; Usage sample_one_token]))
     = Finite (2 ^ 53 * scale)
  /\ (2 ^ 53 * scale <> 2 ^ 53 * scale + 1 * scale)%Z.
Proof. repeat split; vm_compute; congruence. Qed.

(** C2 (amended): the totals of the report are computed over the success
    entries only, by additions in double arithmetic from 0 in the order of
    the results: the totals of no result are 0; a success entry at the end
    adds its orgTotalTokensUsed, its totalAllowance and its key max(0,
    totalAllowance - orgTotalTokensUsed) to the three totals; a failure
    entry, at the end, at the front or anywhere, changes none of them.
    When the success entries hold integers that are not negative and the
    exact sums of orgTotalTokensUsed and of totalAllowance are at most
    2^53, the three totals are the exact sums. *)
Theorem C2_totals_over_successes (beijingTime : Z) (keyPairs : list ApiKey)
  (results : list ApiKeyResult) :
  let totals_of rs := totals (aggregate beijingTime keyPairs rs) in
  totals_of [] = {| total_orgTotalTokensUsed := Finite 0;
                    total_totalAllowance := Finite 0;
                    totalRemaining := Finite 0 |}
  /\ (forall d,
        totals_of (results ++ [Usage d])
        = {| total_orgTotalTokensUsed :=
               js_add (total_orgTotalTokensUsed (totals_of results))
                 (orgTotalTokensUsed d);
             total_totalAllowance :=
               js_add (total_totalAllowance (totals_of results))
                 (totalAllowance d);
             totalRemaining :=
               js_add (totalRemaining (totals_of results)) (remaining_key d) |})
  /\ (forall e, totals_of (results ++ [Failure e]) = totals_of results)
  /\ (forall e, totals_of (Failure e :: results) = totals_of results)
  /\ totals_of results = totals_of (map Usage (successes_of results))
  /\ (forall ints : list (Z * Z),
        map (fun d => (orgTotalTokensUsed d, totalAllowance d))
            (successes_of results)
        = map (fun p => (of_Z (fst p), of_Z (snd p))) ints ->
        Forall (fun p => (0 <= fst p)%Z /\ (0 <= snd p)%Z) ints ->
        (sumZ (map fst ints) <= 2 ^ 53)%Z ->
        (sumZ (map snd ints) <= 2 ^ 53)%Z ->
        totals_of results
        = {| total_orgTotalTokensUsed := of_Z (sumZ (map fst ints));
             total_totalAllowance := of_Z (sumZ (map snd ints));
             totalRemaining :=
               of_Z (sumZ (map (fun p => Z.max 0 (snd p - fst p)) ints)) |})
  /\ (forall upstream kv now, exists tr,
        getAggregatedData upstream kv now
        = Some (aggregate (getBeijingTime now) (getAllKeys kv)
                  (fetch_all upstream (getAllKeys kv)), tr)).
Proof.
  cbv zeta beta.
  assert (T : forall rs, totals (aggregate beijingTime keyPairs rs)
                         = sum_totals (successes_of rs)).
  { intros rs. unfold aggregate. cbn [totals].
    now rewrite usage_results_successes. }
  rewrite !T.
  split; [reflexivity |].
  split.
  { intros d. rewrite T, successes_of_app. cbn [successes_of flat_map app].
    apply sum_totals_snoc. }
  split.
  { intros e. rewrite T, successes_of_app. cbn [successes_of flat_map app].
    now rewrite app_nil_r. }
  split; [intros e; now rewrite T |].
  split; [now rewrite successes_of_map_Usage |].
  split.
  { intros ints E Hpos SU SA. rewrite <- T.
    now apply aggregate_totals_exact. }
  intros upstream kv now.
  destruct (getAggregatedData_eq upstream kv now) as (tr & E & _).
  exists tr. exact E.
Qed.

Lemma C2_totals_over_successes_witness :
  totals (aggregate 0 (getAllKeys sample_kv) sample_results)
  = {| total_orgTotalTokensUsed := of_Z 600;
       total_totalAllowance := of_Z 1000;
       totalRemaining := of_Z 400 |}.
Proof.
  destruct (C2_totals_over_successes 0 (getAllKeys sample_kv) sample_results)
    as (_ & _ & _ & _ & _ & H & _).
  apply (H [(100, 500); (500, 500)]%Z).
  - vm_compute. reflexivity.
  - repeat constructor; simpl; lia.
  - vm_compute. discriminate.
  - vm_compute. discriminate.
Defined.


(** C7: the report's total_count is the number of credentials considered,
    which is the number of entries of its data, failures included; for an
    empty credential set the report has total_count 0, three totals equal to
    0 and no data, and the run has no effect at all: no upstream call and no
    run of the scheduler. *)
Theorem C7_total_count (upstream : string -> nat -> FetchOutcome)
  (kv : KVNamespace) (now : Z) :
  exists report tr,
    getAggregatedData upstream kv now = Some (report, tr)
    /\ total_count report = List.length (getAllKeys kv)
    /\ total_count report = List.length (data report)
    /\ List.length (usage_results (data report)) <= total_count report
    /\ (getAllKeys kv = [] ->
        total_count report = 0
        /\ totals report = {| total_orgTotalTokensUsed := Finite 0;
                              total_totalAllowance := Finite 0;
                              totalRemaining := Finite 0 |}
        /\ data report = []
        /\ tr = []
        /\ run_upstream_calls tr = 0
        /\ scheduler_runs tr = 0).
Proof.
  destruct (getAggregatedData_eq upstream kv now) as (tr & E & Hnil & _).
  eexists. exists tr. split; [exact E |].
  pose proof (C := Permutation_length
                     (partition_results_perm (fetch_all upstream (getAllKeys kv)))).
  assert (L : List.length
                (data (aggregate (getBeijingTime now) (getAllKeys kv)
                         (fetch_all upstream (getAllKeys kv))))
              = List.length (getAllKeys kv)).
  { unfold aggregate. cbn [data].
    rewrite length_app, length_map in *.
    rewrite (Permutation_length (sortedValid_perm _)).
    rewrite C. unfold fetch_all. apply length_map. }
  split; [reflexivity |].
  split; [symmetry; exact L |].
  split.
  { cbn [total_count aggregate]. rewrite <- L.
    clear. generalize (data (aggregate (getBeijingTime now) (getAllKeys kv)
                                (fetch_all upstream (getAllKeys kv)))).
    induction l as [|[d|e] l IH]; simpl; lia. }
  intros Hk. rewrite (Hnil Hk), Hk. repeat split.
Qed.

Lemma C7_total_count_witness :
  getAllKeys empty_kv = []
  /\ exists report,
       getAggregatedData sample_upstream empty_kv 1709210096789
       = Some (report, [])
       /\ total_count report = 0 /\ data report = [].
Proof.
  split; [reflexivity |].
  destruct (C7_total_count sample_upstream empty_kv 1709210096789)
    as (report & tr & E & _ & _ & _ & H).
  destruct (H eq_refl) as (Hc & _ & Hd & Ht & _).
  exists report. rewrite Ht in E. repeat split; assumption.
Defined.

(** C6: a report read answers 200 with the cached report, untouched and
    without any effect, when one is stored and has not expired; otherwise,
    the slot being empty or expired, it builds the report of all
    credentials with the scheduler and the aggregator (one run of the
    scheduler when there is a credential), stores it with expiry = time of
    the write + ttl, where ttl = 2 * 60 s = 120 s, and answers 200 with it;
    an expired slot behaves as an empty one; and a read that follows within
    the ttl answers with the stored report again. *)
Theorem C6_report_read (upstream : string -> nat -> FetchOutcome)
  (kv : KVNamespace) (t_get t_run t_put : Z) :
  (CONFIG.AUTO_REFRESH_INTERVAL_SECONDS * 2 = 120)%Z
  /\ (forall e, cache_data kv = Some e -> (t_get < expiresAt e)%Z ->
        exists response,
          handleGetData upstream kv t_get t_run t_put = Some (response, kv, [])
          /\ status response = 200%Z
          /\ body response = JsonData (cached e))
  /\ (~ cache_fresh kv t_get ->
      exists response tr,
        let fresh := aggregate (getBeijingTime t_run) (getAllKeys kv)
                       (fetch_all upstream (getAllKeys kv)) in
        let kv' := {| api_keys := api_keys kv;
                      cache_data :=
                        Some {| cached := fresh;
                                expiresAt := (t_put + 120 * 1000)%Z |} |} in
        getAggregatedData upstream kv t_run = Some (fresh, tr)
        /\ (getAllKeys kv <> [] -> exists events, tr = [SchedulerRun events])
        /\ handleGetData upstream kv t_get t_run t_put = Some (response, kv', tr)
        /\ status response = 200%Z
        /\ body response = JsonData fresh
        /\ (forall t t_run' t_put',
              (t < t_put + 120 * 1000)%Z ->
              exists again,
                handleGetData upstream kv' t t_run' t_put'
                = Some (again, kv', [])
                /\ status again = 200%Z
                /\ body again = JsonData fresh)
        /\ (forall t t_run' t_put',
              (t_put + 120 * 1000 <= t)%Z ->
              exists again tr',
                handleGetData upstream kv' t t_run' t_put'
                = Some (again, {| api_keys := api_keys kv;
                                  cache_data :=
                                    Some {| cached :=
                                              aggregate (getBeijingTime t_run')
                                                (getAllKeys kv)
                                                (fetch_all upstream (getAllKeys kv));
                                            expiresAt :=
                                              (t_put' + 120 * 1000)%Z |} |}, tr')
                /\ getAggregatedData upstream kv t_run'
                   = Some (aggregate (getBeijingTime t_run') (getAllKeys kv)
                             (fetch_all upstream (getAllKeys kv)), tr')))
  /\ (~ cache_fresh kv t_get ->
      handleGetData upstream kv t_get t_run t_put
      = handleGetData upstream (without_cache kv) t_get t_run t_put).
Proof.
  split; [reflexivity |].
  split.
  { intros e He Ht. unfold handleGetData, getCachedData, kv_get_cache.
    rewrite He. apply Z.ltb_lt in Ht. rewrite Ht.
    eexists. split; [reflexivity |]. split; reflexivity. }
  assert (Miss : forall k t, ~ cache_fresh k t -> getCachedData k t = None).
  { intros k t Hn. unfold getCachedData, kv_get_cache.
    destruct (cache_data k) as [e|] eqn:He; [| reflexivity].
    destruct (Z.ltb_spec t (expiresAt e)); [| reflexivity].
    exfalso. apply Hn. exists e. split; assumption. }
  split.
  { intros Hn.
    destruct (getAggregatedData_eq upstream kv t_run) as (tr & E & _ & Hrun).
    eexists. exists tr. cbv zeta. split; [exact E |].
    split; [exact Hrun |]. split.
    { unfold handleGetData. rewrite (Miss _ _ Hn), E. reflexivity. }
    split; [reflexivity |]. split; [reflexivity |]. split.
    - intros t t_run' t_put' Ht.
      unfold handleGetData, getCachedData, kv_get_cache. cbn [cache_data expiresAt].
      apply Z.ltb_lt in Ht. rewrite Ht.
      eexists. split; [reflexivity |]. split; reflexivity.
    - intros t t_run' t_put' Ht.
      destruct (getAggregatedData_eq upstream kv t_run') as (tr' & E' & _).
      eexists. exists tr'. split; [| exact E'].
      unfold handleGetData, getCachedData, kv_get_cache. cbn [cache_data expiresAt].
      apply Z.ltb_ge in Ht. rewrite Ht.
      assert (G : forall c, getAggregatedData upstream
                    {| api_keys := api_keys kv; cache_data := c |} t_run'
                  = getAggregatedData upstream kv t_run') by reflexivity.
      rewrite G, E'. reflexivity. }
  intros Hn. unfold handleGetData. rewrite (Miss _ _ Hn).
  reflexivity.
Qed.

Lemma C6_report_read_witness :
  ~ cache_fresh sample_kv 1709210096789
  /\ exists report response kv' tr,
       handleGetData sample_upstream sample_kv
         1709210096789 1709210096790 1709210100000
       = Some (response, kv', tr)
       /\ body response = JsonData report
       /\ map result_id (data report) = ["a"; "c"; "b"]%string
       /\ cache_data kv'
          = Some {| cached := report; expiresAt := 1709210220000 |}
       /\ exists again,
            handleGetData sample_upstream kv'
              1709210219999 1709210219999 1709210219999
            = Some (again, kv', [])
            /\ body again = JsonData report.
Proof.
  assert (Hn : ~ cache_fresh sample_kv 1709210096789)
    by (intros (e & He & _); discriminate He).
  split; [exact Hn |].
  destruct (C6_report_read sample_upstream sample_kv
              1709210096789 1709210096790 1709210100000) as (_ & _ & H & _).
  destruct (H Hn) as (response & tr & _ & _ & E & _ & Hb & Hit & _).
  eexists. exists response. eexists. exists tr.
  split; [exact E |]. split; [exact Hb |].
  split; [vm_compute; reflexivity |]. split; [reflexivity |].
  destruct (Hit 1709210219999%Z 1709210219999%Z 1709210219999%Z ltac:(lia))
    as (again & Ea & _ & Hba).
  exists again. split; [exact Ea | exact Hba].
Defined.

(* ===================================================================== *)
(** ** The worked example of the specification *)
(* ===================================================================== *)

Example sample_report_data :
  map result_id
    (data (aggregate 0 (getAllKeys sample_kv) sample_results))
  = ["a"; "c"; "b"]%string.
Proof. vm_compute. reflexivity. Qed.

Example sample_report_totals :
  totals (aggregate 0 (getAllKeys sample_kv) sample_results)
  = {| total_orgTotalTokensUsed := of_Z 600; total_totalAllowance := of_Z 1000;
       totalRemaining := of_Z 400 |}
  /\ total_count (aggregate 0 (getAllKeys sample_kv) sample_results) = 3.
Proof. split; vm_compute; reflexivity. Qed.

Example sample_report_failure :
  filter has_error sample_results
  = [Failure {| error_id := "b"; error_key := "B-se...-key";
                error := "HTTP 401" |}].
Proof. vm_compute. reflexivity. Qed.

Example sample_run_upstream_calls :
  option_map (fun r => run_upstream_calls (snd r))
    (getAggregatedData sample_upstream sample_kv 0) = Some 5.
Proof. vm_compute. reflexivity. Qed.

(* ===================================================================== *)
(** ** Key store: properties *)
(* ===================================================================== *)

Lemma kv_place_perm (id value : string) (l : list (string * string)) :
  Permutation (kv_place id value l) ((id, value) :: l).
Proof.
  induction l as [|e l IH]; simpl; [apply Permutation_refl |].
  destruct (String_as_OT.compare id (fst e)); try apply Permutation_refl.
  eapply perm_trans; [apply perm_skip, IH | apply perm_swap].
Qed.

Lemma kv_get_none (id : string) (l : list (string * string)) :
  kv_get id l = None <-> forall e, In e l -> fst e <> id.
Proof.
  induction l as [|e l IH]; simpl; [tauto |].
  destruct (String.eqb_spec (fst e) id) as [E|E].
  - split; [discriminate |]. intros H. exfalso. apply (H e); auto.
  - rewrite IH. split.
    + intros H e' [<-|He']; auto.
    + intros H e' He'. apply H. auto.
Qed.

Lemma kv_remove_absent (id : string) (l : list (string * string)) :
  kv_get id l = None -> kv_remove id l = l.
Proof.
  rewrite kv_get_none. induction l as [|e l IH]; intros H; simpl;
    [reflexivity |].
  destruct (String.eqb_spec (fst e) id) as [E|E].
  - exfalso. apply (H e); simpl; auto.
  - simpl. rewrite IH; [reflexivity |]. intros e' He'. apply H. simpl. auto.
Qed.

Lemma kv_get_remove_eq (id : string) (l : list (string * string)) :
  kv_get id (kv_remove id l) = None.
Proof.
  apply kv_get_none. intros e He. apply filter_In in He.
  destruct He as [_ He]. destruct (String.eqb_spec (fst e) id); [discriminate |].
  assumption.
Qed.

Lemma kv_get_remove_ne (id id' : string) (l : list (string * string)) :
  id' <> id -> kv_get id' (kv_remove id l) = kv_get id' l.
Proof.
  intros Hne. induction l as [|e l IH]; simpl; [reflexivity |].
  destruct (String.eqb_spec (fst e) id) as [E|E]; simpl.
  - destruct (String.eqb_spec (fst e) id'); [congruence | exact IH].
  - destruct (String.eqb_spec (fst e) id'); [reflexivity | exact IH].
Qed.

Lemma kv_get_place_eq (id value : string) (l : list (string * string)) :
  kv_get id l = None -> kv_get id (kv_place id value l) = Some value.
Proof.
  induction l as [|e l IH]; simpl; intros H.
  - now rewrite String.eqb_refl.
  - destruct (String.eqb_spec (fst e) id) as [E|E]; [discriminate |].
    destruct (String_as_OT.compare id (fst e)); simpl;
      try (now rewrite String.eqb_refl).
    destruct (String.eqb_spec (fst e) id); [congruence | auto].
Qed.

Lemma kv_get_place_ne (id id' value : string) (l : list (string * string)) :
  id' <> id -> kv_get id' (kv_place id value l) = kv_get id' l.
Proof.
  intros Hne. induction l as [|e l IH]; simpl.
  - destruct (String.eqb_spec id id'); [congruence | reflexivity].
  - destruct (String_as_OT.compare id (fst e)); simpl;
      try (destruct (String.eqb_spec id id'); [congruence | reflexivity]).
    now rewrite IH.
Qed.

Lemma kv_remove_place (id value : string) (l : list (string * string)) :
  kv_remove id (kv_place id value l) = kv_remove id l.
Proof.
  induction l as [|e l IH]; simpl.
  - now rewrite String.eqb_refl.
  - destruct (String_as_OT.compare id (fst e)); simpl;
      try (now rewrite String.eqb_refl).
    now rewrite IH.
Qed.

Lemma kv_remove_idem (id : string) (l : list (string * string)) :
  kv_remove id (kv_remove id l) = kv_remove id l.
Proof. apply kv_remove_absent, kv_get_remove_eq. Qed.

Lemma kv_remove_comm (a b : string) (l : list (string * string)) :
  kv_remove a (kv_remove b l) = kv_remove b (kv_remove a l).
Proof.
  induction l as [|e l IH]; simpl; [reflexivity |].
  destruct (String.eqb (fst e) a) eqn:Ea; destruct (String.eqb (fst e) b) eqn:Eb;
    simpl; rewrite ?Ea, ?Eb; simpl; rewrite ?IH; reflexivity.
Qed.

(** The key pairs of a store: the (id, value) entries whose value is not
    empty. *)
Lemma getAllKeys_In (kv : KVNamespace) (p : ApiKey) :
  In p (getAllKeys kv)
  <-> In (ApiKey_id p, ApiKey_key p) (api_keys kv) /\ ApiKey_key p <> "".
Proof.
  unfold getAllKeys. rewrite in_map_iff. split.
  - intros ([i k] & <- & H). apply filter_In in H. simpl in *.
    destruct H as [H Hk]. split; [exact H |].
    destruct (String.eqb_spec k ""); [discriminate | assumption].
  - intros [H Hk]. exists (ApiKey_id p, ApiKey_key p).
    split; [destruct p; reflexivity |].
    apply filter_In. split; [exact H |]. simpl.
    destruct (String.eqb_spec (ApiKey_key p) ""); [contradiction | reflexivity].
Qed.

Lemma apiKeyExists_true (kv : KVNamespace) (key : string) :
  apiKeyExists kv key = true
  <-> exists id, In {| ApiKey_id := id; ApiKey_key := key |} (getAllKeys kv).
Proof.
  unfold apiKeyExists. rewrite existsb_exists. split.
  - intros ([i k] & H & E). simpl in E. apply String.eqb_eq in E. subst k.
    exists i. exact H.
  - intros (id & H). eexists. split; [exact H |]. simpl. apply String.eqb_refl.
Qed.

Lemma kv_get_In (id value : string) (l : list (string * string)) :
  kv_get id l = Some value -> In (id, value) l.
Proof.
  induction l as [|[i v] l IH]; simpl; [discriminate |].
  destruct (String.eqb_spec i id) as [->|E].
  - intros [= ->]. auto.
  - auto.
Qed.

Lemma filter_perm {A : Type} (f : A -> bool) (l l' : list A) :
  Permutation l l' -> Permutation (filter f l) (filter f l').
Proof.
  induction 1 as [|x l l' _ IH|x y l|l l' l'' _ IH1 _ IH2]; simpl.
  - apply perm_nil.
  - destruct (f x); [apply perm_skip |]; exact IH.
  - destruct (f x), (f y); try apply Permutation_refl. apply perm_swap.
  - eapply perm_trans; eassumption.
Qed.

Lemma getAllKeys_addKey_perm (kv : KVNamespace) (id key : string) :
  key <> "" ->
  Permutation (getAllKeys (addKey kv id key))
    ({| ApiKey_id := id; ApiKey_key := key |} :: getAllKeys (deleteKey kv id)).
Proof.
  intros Hk. unfold getAllKeys, addKey, deleteKey, kv_put. cbn [api_keys].
  eapply perm_trans.
  - apply Permutation_map, filter_perm, kv_place_perm.
  - cbn [filter snd]. destruct (String.eqb_spec key ""); [contradiction |].
    apply Permutation_refl.
Qed.

Lemma deleteKey_absent (kv : KVNamespace) (id : string) :
  kv_get id (api_keys kv) = None -> deleteKey kv id = kv.
Proof.
  intros H. destruct kv as [l c]. unfold deleteKey. cbn [api_keys cache_data] in *.
  now rewrite kv_remove_absent.
Qed.

Lemma getAllKeys_deleteKey_In (kv : KVNamespace) (id : string) (p : ApiKey) :
  In p (getAllKeys (deleteKey kv id))
  <-> In p (getAllKeys kv) /\ ApiKey_id p <> id.
Proof.
  rewrite !getAllKeys_In. unfold deleteKey, kv_remove. cbn [api_keys].
  rewrite filter_In. cbn [fst].
  destruct (String.eqb_spec (ApiKey_id p) id); simpl; intuition congruence.
Qed.

Lemma deleteKey_comm (kv : KVNamespace) (a b : string) :
  deleteKey (deleteKey kv a) b = deleteKey (deleteKey kv b) a.
Proof.
  unfold deleteKey. cbn [api_keys cache_data]. f_equal. apply kv_remove_comm.
Qed.

(** The key pairs of a store after [addKey]: the new pair when its key is
    not empty, and the pairs of the other ids. *)
Lemma getAllKeys_addKey_In (kv : KVNamespace) (id key : string) (p : ApiKey) :
  In p (getAllKeys (addKey kv id key))
  <-> (p = {| ApiKey_id := id; ApiKey_key := key |} /\ key <> "")
      \/ (In p (getAllKeys kv) /\ ApiKey_id p <> id).
Proof.
  rewrite <- getAllKeys_deleteKey_In, !getAllKeys_In.
  unfold addKey, deleteKey, kv_put. cbn [api_keys].
  split.
  - intros [H Hk].
    apply (Permutation_in _ (kv_place_perm id key _)) in H.
    destruct H as [E | H]; [left | right; split; assumption].
    destruct p as [i k]. cbn in *. injection E as -> ->. split; [reflexivity | exact Hk].
  - intros [[-> Hk] | [H Hk]]; (split; [| assumption]).
    + apply (Permutation_in _ (Permutation_sym (kv_place_perm id key _))).
      left. reflexivity.
    + apply (Permutation_in _ (Permutation_sym (kv_place_perm id key _))).
      right. exact H.
Qed.

(** X1: after [addKey] the store answers the id with the key, whatever the
    key; the entries and the key pairs of the other ids and the cache slot
    are as before. For a key that is not empty the pair is among the key
    pairs and [apiKeyExists] holds for the key; an empty key is stored but
    [getAllKeys] does not list it: the id has no key pair then. *)
Theorem X1_addKey_lookup (kv : KVNamespace) (id key : string) :
  let kv' := addKey kv id key in
  kv_get id (api_keys kv') = Some key
  /\ (forall id', id' <> id ->
        kv_get id' (api_keys kv') = kv_get id' (api_keys kv))
  /\ (forall p, ApiKey_id p <> id ->
        (In p (getAllKeys kv') <-> In p (getAllKeys kv)))
  /\ cache_data kv' = cache_data kv
  /\ (key <> "" ->
      In {| ApiKey_id := id; ApiKey_key := key |} (getAllKeys kv')
      /\ apiKeyExists kv' key = true)
  /\ (key = "" -> forall p, In p (getAllKeys kv') -> ApiKey_id p <> id).
Proof.
  intros kv'.
  split.
  { unfold kv', addKey, kv_put. cbn [api_keys].
    apply kv_get_place_eq, kv_get_remove_eq. }
  split.
  { intros id' Hne. unfold kv', addKey, kv_put. cbn [api_keys].
    rewrite kv_get_place_ne by exact Hne. apply kv_get_remove_ne. exact Hne. }
  split.
  { intros p Hp. unfold kv'. rewrite getAllKeys_addKey_In. split.
    - intros [[-> _] | [H _]]; [contradiction Hp; reflexivity | exact H].
    - intros H. right. split; assumption. }
  split; [reflexivity |].
  split.
  { intros Hk.
    assert (Hin : In {| ApiKey_id := id; ApiKey_key := key |} (getAllKeys kv')).
    { unfold kv'. apply getAllKeys_addKey_In. left. split; [reflexivity | exact Hk]. }
    split; [exact Hin |]. apply apiKeyExists_true. exists id. exact Hin. }
  intros Hk p Hp. unfold kv' in Hp. apply getAllKeys_addKey_In in Hp.
  destruct Hp as [[_ Hne] | [_ Hne]]; [contradiction | exact Hne].
Qed.

Lemma X1_addKey_lookup_witness :
  apiKeyExists (addKey sample_kv "d" "D-secret-key") "D-secret-key" = true
  /\ kv_get "a" (api_keys (addKey sample_kv "d" "D-secret-key"))
     = Some "A-secret-key"%string
  /\ map ApiKey_id (getAllKeys (addKey sample_kv "a" "")) = ["b"; "c"]%string.
Proof.
  destruct (X1_addKey_lookup sample_kv "d" "D-secret-key")
    as (_ & Hother & _ & _ & H & _).
  split; [exact (proj2 (H ltac:(discriminate))) |].
  split; [| reflexivity].
  rewrite Hother by discriminate. reflexivity.
Defined.

(** X2: after [deleteKey] the store has no entry and no key pair of the id,
    the entries of the other ids are as before, and deleting an id that is
    not stored leaves the store as it is. *)
Theorem X2_deleteKey_removes (kv : KVNamespace) (id : string) :
  let kv' := deleteKey kv id in
  kv_get id (api_keys kv') = None
  /\ (forall p, In p (getAllKeys kv') <-> In p (getAllKeys kv) /\ ApiKey_id p <> id)
  /\ (forall id', id' <> id ->
        kv_get id' (api_keys kv') = kv_get id' (api_keys kv))
  /\ (kv_get id (api_keys kv) = None -> kv' = kv).
Proof.
  cbv zeta. split; [apply kv_get_remove_eq |].
  split; [intros p; apply getAllKeys_deleteKey_In |].
  split; [intros id' Hne; apply kv_get_remove_ne; exact Hne |].
  apply deleteKey_absent.
Qed.

Lemma X2_deleteKey_removes_witness :
  kv_get "zz" (api_keys sample_kv) = None
  /\ deleteKey sample_kv "zz" = sample_kv
  /\ kv_get "a" (api_keys (deleteKey sample_kv "b")) = Some "A-secret-key"%string.
Proof.
  destruct (X2_deleteKey_removes sample_kv "zz") as (_ & _ & _ & H).
  destruct (X2_deleteKey_removes sample_kv "b") as (_ & _ & Hother & _).
  split; [reflexivity |]. split; [apply H; reflexivity |].
  rewrite Hother by discriminate. reflexivity.
Defined.

(** Adding a key under an id that is not stored and deleting that id
    again gives back the store; and of two [addKey] to one id the second
    wins. *)
Lemma addKey_deleteKey_round_trip (kv : KVNamespace) (id key : string) :
  (kv_get id (api_keys kv) = None -> deleteKey (addKey kv id key) id = kv)
  /\ (forall key', addKey (addKey kv id key) id key' = addKey kv id key').
Proof.
  split.
  - intros H. destruct kv as [l c]. unfold deleteKey, addKey, kv_put.
    cbn [api_keys cache_data] in *.
    rewrite kv_remove_place, kv_remove_idem, kv_remove_absent by exact H.
    reflexivity.
  - intros key'. unfold addKey, kv_put. cbn [api_keys cache_data].
    rewrite kv_remove_place, kv_remove_idem. reflexivity.
Qed.

Example addKey_deleteKey_round_trip_example :
  kv_get "d" (api_keys sample_kv) = None
  /\ deleteKey (addKey sample_kv "d" "D-secret-key") "d" = sample_kv.
Proof.
  split; [reflexivity |].
  apply (addKey_deleteKey_round_trip sample_kv "d" "D-secret-key").
  reflexivity.
Defined.

(** [addKey] and [deleteKey] keep the ids of the store distinct: a store
    with one entry per id has one entry per id afterwards. *)
Lemma ids_stay_distinct (kv : KVNamespace) (id key : string) :
  NoDup (map fst (api_keys kv)) ->
  NoDup (map fst (api_keys (addKey kv id key)))
  /\ NoDup (map fst (api_keys (deleteKey kv id))).
Proof.
  intros H.
  assert (R : NoDup (map fst (kv_remove id (api_keys kv)))).
  { clear key. induction (api_keys kv) as [|e l IH]; simpl; [constructor |].
    inversion H as [|x l' Hx Hl]; subst.
    destruct (String.eqb (fst e) id); simpl; [exact (IH Hl) |].
    constructor; [| exact (IH Hl)].
    intros Hin. apply Hx. apply in_map_iff in Hin.
    destruct Hin as (e' & E & He'). apply filter_In in He'.
    apply in_map_iff. exists e'. split; [exact E | apply He']. }
  split; [| exact R].
  unfold addKey, kv_put. cbn [api_keys].
  apply (Permutation_NoDup
           (Permutation_sym (Permutation_map fst (kv_place_perm id key _)))).
  cbn [map fst]. constructor; [| exact R].
  intros Hin. apply in_map_iff in Hin. destruct Hin as (e & E & He).
  pose proof (kv_get_remove_eq id (api_keys kv)) as G.
  rewrite kv_get_none in G. exact (G e He E).
Qed.

Example ids_stay_distinct_example :
  NoDup (map fst (api_keys (addKey sample_kv "b" "other-secret")))
  /\ api_keys (addKey sample_kv "b" "other-secret")
     = [("a", "A-secret-key"); ("b", "other-secret"); ("c", "C-secret-key")]%string.
Proof.
  split; [| reflexivity].
  apply (ids_stay_distinct sample_kv "b" "other-secret").
  repeat constructor; simpl; intuition discriminate.
Defined.

(* ===================================================================== *)
(** ** Aggregation run: further properties *)
(* ===================================================================== *)

Lemma aggregate_data_perm (beijingTime : Z) (keyPairs : list ApiKey)
  (results : list ApiKeyResult) :
  Permutation (data (aggregate beijingTime keyPairs results)) results.
Proof.
  unfold aggregate. cbn [data].
  eapply perm_trans; [| apply partition_results_perm].
  apply Permutation_app_tail, Permutation_map, sortedValid_perm.
Qed.

Lemma fetch_all_ids (upstream : string -> nat -> FetchOutcome)
  (keyPairs : list ApiKey) :
  map result_id (fetch_all upstream keyPairs) = map ApiKey_id keyPairs.
Proof.
  unfold fetch_all. rewrite map_map. apply map_ext. intros p.
  apply fetchApiKeyData_key.
Qed.

Lemma fetch_all_In (upstream : string -> nat -> FetchOutcome)
  (keyPairs : list ApiKey) (r : ApiKeyResult) :
  In r (fetch_all upstream keyPairs) ->
  exists p, In p keyPairs
    /\ result_id r = ApiKey_id p
    /\ result_key r = maskApiKey (ApiKey_key p)
    /\ r = fst (fetchApiKeyData upstream (ApiKey_id p) (ApiKey_key p) 0).
Proof.
  unfold fetch_all. rewrite in_map_iff. intros (p & <- & Hp).
  exists p. split; [exact Hp |].
  destruct (fetchApiKeyData_key upstream (ApiKey_id p) (ApiKey_key p) 0)
    as [Hk Hi].
  repeat split; assumption.
Qed.

(** X3: the report of an aggregation run has one entry per key pair: the
    ids of its entries are the ids of the key pairs, and every entry is the
    result of the fetch for a key pair, with that pair's id and with the
    mask of that pair's secret as its key. *)
Theorem X3_report_entries_match_keys (upstream : string -> nat -> FetchOutcome)
  (kv : KVNamespace) (now : Z) :
  exists report tr,
    getAggregatedData upstream kv now = Some (report, tr)
    /\ Permutation (map result_id (data report)) (map ApiKey_id (getAllKeys kv))
    /\ (forall r, In r (data report) ->
          exists p, In p (getAllKeys kv)
            /\ result_id r = ApiKey_id p
            /\ result_key r = maskApiKey (ApiKey_key p)
            /\ r = fst (fetchApiKeyData upstream (ApiKey_id p) (ApiKey_key p) 0)).
Proof.
  destruct (getAggregatedData_eq upstream kv now) as (tr & E & _).
  eexists. exists tr. split; [exact E |].
  split.
  - rewrite <- (fetch_all_ids upstream). apply Permutation_map.
    apply aggregate_data_perm.
  - intros r Hr. apply (fetch_all_In upstream).
    exact (Permutation_in _ (aggregate_data_perm _ _ _) Hr).
Qed.

Lemma sumZ_remaining_bounds (ints : list (Z * Z)) :
  Forall (fun p => (0 <= fst p)%Z /\ (0 <= snd p)%Z) ints ->
  let rem := sumZ (map (fun p => Z.max 0 (snd p - fst p)) ints) in
  (0 <= rem <= sumZ (map snd ints))%Z
  /\ (sumZ (map snd ints) - sumZ (map fst ints) <= rem)%Z
  /\ (Forall (fun p => (fst p <= snd p)%Z) ints ->
      rem = (sumZ (map snd ints) - sumZ (map fst ints))%Z).
Proof.
  cbv zeta. unfold sumZ.
  induction 1 as [|[u a] l [Hu Ha] Hl (IH0 & IH1 & IH2)]; cbn [map fold_right fst snd] in *.
  - split; [lia | split; [lia | intros _; reflexivity]].
  - split; [lia | split; [lia |]].
    intros H. inversion H as [|x l' Hr Hl']; subst. cbn [fst snd] in Hr.
    rewrite (IH2 Hl'). lia.
Qed.

(** A sum of numbers that are not less than 0 is not less than 0. *)
Lemma js_add_not_negative (x y : number) :
  not_negative x -> not_negative y -> not_negative (js_add x y).
Proof.
  unfold not_negative.
  destruct x as [| | |a]; destruct y as [| | |b]; cbn [js_add js_lt];
    try reflexivity; try discriminate.
  intros Ha Hb. apply Z.ltb_ge in Ha, Hb.
  destruct (round_nonneg (a + b) ltac:(lia)) as [-> | (n & -> & Hn)];
    [reflexivity |].
  cbn [js_lt]. apply Z.ltb_ge. exact Hn.
Qed.

Lemma remaining_key_not_negative (d : ApiUsageData) :
  not_negative (remaining_key d).
Proof.
  unfold not_negative, remaining_key.
  destruct (totalAllowance d) as [| | |a]; destruct (orgTotalTokensUsed d) as [| | |u];
    try reflexivity.
  destruct (round_nonneg (Z.max 0 (a - u)) ltac:(lia)) as [-> | (n & -> & Hn)];
    [reflexivity |].
  cbn [js_lt]. apply Z.ltb_ge. exact Hn.
Qed.

Lemma sum_totals_not_negative (l : list ApiUsageData) :
  not_negative (totalRemaining (sum_totals l)).
Proof.
  induction l as [|d l IH] using rev_ind; [reflexivity |].
  rewrite sum_totals_snoc. cbn [totalRemaining].
  apply js_add_not_negative; [exact IH | apply remaining_key_not_negative].
Qed.

(** X4: the total remaining of a report is never less than 0 (it is a
    number that is not negative, or NaN). When the success entries hold
    integers that are not negative whose exact sums are at most 2^53, the
    three totals are integers, the total remaining lies between the total
    allowance minus the total used and the total allowance, and it is that
    difference when no success entry has used more than its allowance. *)
Theorem X4_totalRemaining_bounds (beijingTime : Z) (keyPairs : list ApiKey)
  (results : list ApiKeyResult) :
  let t := totals (aggregate beijingTime keyPairs results) in
  not_negative (totalRemaining t)
  /\ (forall ints,
        integer_entries results ints ->
        exists used allowance rem : Z,
          t = {| total_orgTotalTokensUsed := of_Z used;
                 total_totalAllowance := of_Z allowance;
                 totalRemaining := of_Z rem |}
          /\ used = sumZ (map fst ints) /\ allowance = sumZ (map snd ints)
          /\ (0 <= rem <= allowance)%Z
          /\ (allowance - used <= rem)%Z
          /\ (Forall (fun p => (fst p <= snd p)%Z) ints ->
              rem = (allowance - used)%Z)).
Proof.
  cbv zeta. split.
  { unfold aggregate. cbn [totals]. apply sum_totals_not_negative. }
  intros ints (E & Hpos & SU & SA).
  pose proof (aggregate_totals_exact beijingTime keyPairs results ints
                E Hpos SU SA) as T.
  destruct (sumZ_remaining_bounds ints Hpos) as (B0 & B1 & B2).
  eexists. eexists. eexists. split; [exact T |].
  split; [reflexivity |]. split; [reflexivity |].
  split; [exact B0 |]. split; [exact B1 | exact B2].
Qed.

Lemma X4_totalRemaining_bounds_witness :
  integer_entries sample_results [(100, 500); (500, 500)]%Z
  /\ totals (aggregate 0 (getAllKeys sample_kv) sample_results)
     = {| total_orgTotalTokensUsed := of_Z 600;
          total_totalAllowance := of_Z 1000;
          totalRemaining := of_Z 400 |}.
Proof.
  assert (I : integer_entries sample_results [(100, 500); (500, 500)]%Z).
  { split; [vm_compute; reflexivity |].
    split; [repeat constructor; simpl; lia |].
    split; vm_compute; discriminate. }
  split; [exact I |].
  destruct (X4_totalRemaining_bounds 0 (getAllKeys sample_kv) sample_results)
    as [_ H].
  destruct (H _ I) as (used & allowance & rem & T & -> & -> & _ & _ & Hr).
  rewrite T. rewrite Hr by (repeat constructor; simpl; lia). reflexivity.
Defined.

Lemma getAggregatedData_trace (upstream : string -> nat -> FetchOutcome)
  (kv : KVNamespace) (now : Z) :
  let keyPairs := getAllKeys kv in
  let processor :=
    fun p => fetchApiKeyData upstream (ApiKey_id p) (ApiKey_key p) 0 in
  getAggregatedData upstream kv now
  = Some (aggregate (getBeijingTime now) keyPairs (fetch_all upstream keyPairs),
          match keyPairs with
          | [] => []
          | _ :: _ =>
              [SchedulerRun
                 (schedule processor 100
                    (chunks (List.length keyPairs) 10 keyPairs))]
          end).
Proof.
  cbv zeta. unfold getAggregatedData.
  destruct (getAllKeys kv) as [|p l] eqn:E; [reflexivity |].
  cbn [List.length Nat.eqb]. rewrite batchProcess_returns by lia. reflexivity.
Qed.

Lemma schedule_upstream_calls (processor : ApiKey -> ApiKeyResult * list Effect)
  (d : Z) (cs : list (list ApiKey)) :
  list_sum (map batch_upstream_calls (schedule processor d cs))
  = list_sum (map (fun p => upstream_calls (snd (processor p))) (List.concat cs)).
Proof.
  induction cs as [|c cs IH]; [reflexivity |].
  rewrite schedule_cons. cbn [List.concat].
  rewrite !map_app, !list_sum_app, <- IH.
  unfold run_chunk. cbn [map batch_upstream_calls list_sum].
  rewrite map_map. destruct cs as [|c' cs]; simpl; lia.
Qed.

Lemma list_sum_bounds {A : Type} (f : A -> nat) (lo hi : nat) (l : list A) :
  (forall x, In x l -> lo <= f x <= hi) ->
  lo * List.length l <= list_sum (map f l) <= hi * List.length l.
Proof.
  induction l as [|x l IH]; intros H; simpl; [lia |].
  assert (Hx : lo <= f x <= hi) by (apply H; simpl; auto).
  assert (Hl : lo * List.length l <= list_sum (map f l) <= hi * List.length l)
    by (apply IH; intros y Hy; apply H; simpl; auto).
  nia.
Qed.

(** X5: an aggregation run over n key pairs makes at least n and at most 3n
    upstream calls, runs the scheduler once (not at all for n = 0), and
    waits 100 ms between the batches of ten: ceil(n/10) - 1 times. *)
Theorem X5_run_effects (upstream : string -> nat -> FetchOutcome)
  (kv : KVNamespace) (now : Z) :
  let n := List.length (getAllKeys kv) in
  exists report tr,
    getAggregatedData upstream kv now = Some (report, tr)
    /\ n <= run_upstream_calls tr <= 3 * n
    /\ run_delays tr = repeat 100%Z ((n + 10 - 1) / 10 - 1)
    /\ scheduler_runs tr = (if n =? 0 then 0 else 1).
Proof.
  cbv zeta. rewrite getAggregatedData_trace. eexists. eexists.
  split; [reflexivity |].
  destruct (getAllKeys kv) as [|p l] eqn:E.
  { cbn. repeat split; lia. }
  set (keys := p :: l) in *.
  set (processor := fun q : ApiKey =>
         fetchApiKeyData upstream (ApiKey_id q) (ApiKey_key q) 0).
  split.
  { unfold run_upstream_calls. cbn [map list_sum fold_right].
    rewrite Nat.add_0_r, schedule_upstream_calls.
    rewrite chunks_concat by lia.
    pose proof (list_sum_bounds
                  (fun q => upstream_calls (snd (processor q))) 1 3 keys) as B.
    rewrite Nat.mul_1_l in B. apply B. intros q _.
    destruct (fetchApiKeyData_calls upstream (ApiKey_id q) (ApiKey_key q) 0)
      as [B1 B2]; [unfold maxRetries; lia |].
    unfold processor. lia. }
  split; [| reflexivity].
  unfold run_delays. cbn [flat_map]. rewrite app_nil_r.
  rewrite schedule_delays, chunks_length by lia. reflexivity.
Qed.

(** X6: with a concurrency of 0 the scheduler loop over a non-empty list
    never comes to its end, whatever the number of iterations granted; on
    an empty list the scheduler returns at once, with no result and no
    event, for every concurrency. *)
Theorem X6_batchProcess_edge_cases {T R E : Type} (processor : T -> R * list E)
  (items : list T) (d : Z) :
  (items <> [] ->
   forall fuel, batchLoop processor fuel items 0 d 0 [] [] = None)
  /\ (forall c, batchProcess processor (@nil T) c d = Some ([], [])).
Proof.
  split.
  - intros Hne fuel. apply batchLoop_zero_concurrency.
    destruct items; [congruence | simpl; lia].
  - intros c. reflexivity.
Qed.

Lemma X6_batchProcess_edge_cases_witness :
  [1; 2; 3] <> []
  /\ batchLoop (fun n : nat => (n, [n])) 50 [1; 2; 3] 0 100 0 [] [] = None.
Proof.
  split; [discriminate |].
  exact (proj1 (X6_batchProcess_edge_cases (fun n : nat => (n, [n]))
                  [1; 2; 3] 100%Z) ltac:(discriminate) 50).
Defined.

Lemma fetchApiKeyData_trace (upstream : string -> nat -> FetchOutcome)
  (id key : string) (n : nat) :
  let tr := snd (fetchApiKeyData upstream id key n) in
  Forall (fun b => b = key) (bearers tr)
  /\ upstream_calls tr = List.length (sleeps tr) + 1
  /\ last tr (Sleep 0) = UpstreamCall key.
Proof.
  induction n as [n IH] using fetch_retry_ind. cbv zeta.
  rewrite fetchApiKeyData_eq.
  destruct (upstream key n) as [|status body];
    [repeat split; repeat constructor |].
  destruct (response_ok status); simpl.
  - destruct body; repeat split; repeat constructor.
  - destruct (status =? 401)%Z; simpl; [| repeat split; repeat constructor].
    destruct (Nat.ltb_spec n maxRetries) as [Hlt|];
      [| repeat split; repeat constructor].
    destruct (IH Hlt) as (B & C & L). unfold after_retry.
    cbn [snd bearers sleeps]. unfold upstream_calls in *. cbn [filter List.length].
    split; [constructor; [reflexivity | exact B] |].
    split; [lia |].
    destruct (snd (fetchApiKeyData upstream id key (n + 1))) as [|e tr'];
      [discriminate L | exact L].
Qed.

(** The trace of a fetch: calls and waits in turn, the wait number k (from
    0) being of (k + 1) seconds. *)
Lemma fetchApiKeyData_alternating (upstream : string -> nat -> FetchOutcome)
  (id key : string) (n : nat) :
  exists waits,
    snd (fetchApiKeyData upstream id key n) = alternating key waits
    /\ waits = map (fun k => ((Z.of_nat k + 1) * 1000)%Z)
                 (seq n (List.length waits))
    /\ List.length waits <= maxRetries - n.
Proof.
  induction n as [n IH] using fetch_retry_ind.
  rewrite fetchApiKeyData_eq.
  assert (Stop : exists waits,
             [UpstreamCall key] = alternating key waits
             /\ waits = map (fun k => ((Z.of_nat k + 1) * 1000)%Z)
                          (seq n (List.length waits))
             /\ List.length waits <= maxRetries - n).
  { exists []. repeat split. cbn. lia. }
  destruct (upstream key n) as [|status body]; [exact Stop |].
  destruct (response_ok status); cbn [negb].
  - destruct body; exact Stop.
  - destruct (status =? 401)%Z; cbn [andb]; [| exact Stop].
    destruct (Nat.ltb_spec n maxRetries) as [Hlt|]; [| exact Stop].
    destruct (IH Hlt) as (waits & E & W & L). unfold after_retry. cbn [snd].
    exists (((Z.of_nat n + 1) * 1000)%Z :: waits).
    split; [cbn [alternating]; now rewrite E |].
    split; [| cbn [List.length]; lia].
    cbn [List.length seq map]. f_equal.
    replace (S n) with (n + 1) by lia. exact W.
Qed.

Lemma alternating_sleeps (key : string) (waits : list Z) :
  sleeps (alternating key waits) = waits
  /\ upstream_calls (alternating key waits) = List.length waits + 1
  /\ bearers (alternating key waits) = repeat key (List.length waits + 1).
Proof.
  unfold upstream_calls.
  induction waits as [|w ws (IH1 & IH2 & IH3)]; [repeat split |].
  cbn [alternating sleeps filter List.length bearers Nat.add repeat] in *.
  rewrite IH1, IH2, IH3. repeat split.
Qed.

(** X7: the trace of a fetch is made of upstream calls and waits in turn:
    it starts and ends with a call, exactly one wait lies between two
    consecutive calls and no wait anywhere else. Every call carries the
    secret the fetch was given as its bearer; the wait number k of a fetch
    started at retry count n is of (n + k + 1) seconds; and there are at
    most 2 - n waits. *)
Theorem X7_fetch_trace_shape (upstream : string -> nat -> FetchOutcome)
  (id key : string) (retryCount : nat) :
  let tr := snd (fetchApiKeyData upstream id key retryCount) in
  exists waits,
    tr = alternating key waits
    /\ waits = map (fun k => ((Z.of_nat k + 1) * 1000)%Z)
                 (seq retryCount (List.length waits))
    /\ List.length waits <= 2 - retryCount
    /\ sleeps tr = waits
    /\ upstream_calls tr = List.length waits + 1
    /\ bearers tr = repeat key (List.length waits + 1).
Proof.
  cbv zeta.
  destruct (fetchApiKeyData_alternating upstream id key retryCount)
    as (waits & E & W & L).
  exists waits. rewrite E.
  destruct (alternating_sleeps key waits) as (S1 & S2 & S3).
  repeat split; assumption.
Qed.

(* ===================================================================== *)
(** ** Route handlers of the key store: properties *)
(* ===================================================================== *)

Section KeyHandlerFacts.

Variable upstream : string -> nat -> FetchOutcome.

Lemma refreshCache_eq (kv : KVNamespace) (t_run t_put : Z) :
  exists tr,
    getAggregatedData upstream kv t_run = Some (fresh_report upstream kv t_run, tr)
    /\ refreshCache upstream kv t_run t_put
       = Some (with_cache kv (fresh_report upstream kv t_run) t_put, tr)
    /\ List.length (getAllKeys kv) <= run_upstream_calls tr
       <= 3 * List.length (getAllKeys kv).
Proof.
  destruct (getAggregatedData_eq upstream kv t_run) as (tr & E & _).
  exists tr. split; [exact E |]. split.
  - unfold refreshCache. rewrite E. reflexivity.
  - pose proof (getAggregatedData_trace upstream kv t_run) as T. cbv zeta in T.
    rewrite E in T. injection T as T. rewrite T. clear T E tr.
    destruct (getAllKeys kv) as [|p l] eqn:K; [cbn; lia |].
    unfold run_upstream_calls. cbn [map list_sum fold_right].
    rewrite Nat.add_0_r, schedule_upstream_calls, chunks_concat by lia.
    pose proof (list_sum_bounds
      (fun q => upstream_calls
                  (snd (fetchApiKeyData upstream (ApiKey_id q) (ApiKey_key q) 0)))
      1 3 (p :: l)) as B.
    rewrite Nat.mul_1_l in B. apply B. intros q _.
    destruct (fetchApiKeyData_calls upstream (ApiKey_id q) (ApiKey_key q) 0)
      as [B1 B2]; [unfold maxRetries; lia | lia].
Qed.

Lemma getAllKeys_with_cache (kv : KVNamespace) (report : AggregatedResponse)
  (t : Z) :
  getAllKeys (with_cache kv report t) = getAllKeys kv.
Proof. reflexivity. Qed.

Lemma apiKeyExists_with_cache (kv : KVNamespace) (report : AggregatedResponse)
  (t : Z) (key : string) :
  apiKeyExists (with_cache kv report t) key = apiKeyExists kv key.
Proof. reflexivity. Qed.

Lemma fresh_report_entry (kv : KVNamespace) (t_run : Z) (p : ApiKey) :
  In p (getAllKeys kv) ->
  In (fst (fetchApiKeyData upstream (ApiKey_id p) (ApiKey_key p) 0))
     (data (fresh_report upstream kv t_run)).
Proof.
  intros Hp. unfold fresh_report.
  apply (Permutation_in _ (Permutation_sym (aggregate_data_perm _ _ _))).
  unfold fetch_all. apply in_map_iff. exists p. split; [reflexivity | exact Hp].
Qed.

Lemma fresh_report_ids (kv : KVNamespace) (t_run : Z) :
  Permutation (map result_id (data (fresh_report upstream kv t_run)))
    (map ApiKey_id (getAllKeys kv)).
Proof.
  unfold fresh_report. rewrite <- (fetch_all_ids upstream).
  apply Permutation_map, aggregate_data_perm.
Qed.

End KeyHandlerFacts.

Lemma apiKeyExists_secrets (kv : KVNamespace) (key : string) :
  apiKeyExists kv key = true <-> In key (secrets kv).
Proof.
  unfold apiKeyExists, secrets. rewrite existsb_exists, in_map_iff.
  split; intros (p & H1 & H2).
  - exists p. apply String.eqb_eq in H2. split; assumption.
  - exists p. split; [assumption |]. apply String.eqb_eq. assumption.
Qed.

Lemma existsb_eqb_In (key : string) (l : list string) :
  existsb (String.eqb key) l = true <-> In key l.
Proof.
  rewrite existsb_exists. split.
  - intros (x & H & E). apply String.eqb_eq in E. now subst.
  - intros H. exists key. split; [exact H | apply String.eqb_refl].
Qed.

(** [same_value] decides the equality of two keys. *)
Lemma same_value_eq (a b : KeyValue) : same_value a b = true <-> a = b.
Proof.
  destruct a as [s| |c s]; destruct b as [t| |d t]; cbn [same_value];
    try (split; [discriminate | discriminate]); try tauto.
  - rewrite String.eqb_eq. split; [now intros -> | now intros [= ->]].
  - rewrite andb_true_iff, Ascii.eqb_eq, String.eqb_eq.
    split; [now intros [-> ->] | now intros [= -> ->]].
Qed.

Lemma existsb_same_value_In (key : KeyValue) (l : list KeyValue) :
  existsb (same_value key) l = true <-> In key l.
Proof.
  rewrite existsb_exists. split.
  - intros (x & H & E). apply same_value_eq in E. now subst.
  - intros H. exists key. split; [exact H | now apply same_value_eq].
Qed.

(** The text kept for a truthy key is not empty. *)
Lemma key_text_truthy (key : KeyValue) :
  key_falsy key = false -> key_text key <> "".
Proof.
  destruct key as [s| |c s]; cbn [key_falsy key_text]; try discriminate.
  destruct (String.eqb_spec s ""); [discriminate | auto].
Qed.

Lemma has_key_truthy (key : KeyValue) :
  has_key (WithKey key) = negb (key_falsy key).
Proof. destruct key; reflexivity. Qed.

Lemma text_keys_tail (item : KeyBody) (items : list KeyBody) :
  text_keys (item :: items) -> text_keys items.
Proof. intros H key Hin. apply H. right. exact Hin. Qed.

Lemma secrets_addKey_perm (kv : KVNamespace) (id key : string) :
  key <> "" ->
  Permutation (secrets (addKey kv id key)) (key :: secrets (deleteKey kv id)).
Proof.
  intros Hk. unfold secrets.
  apply (Permutation_map ApiKey_key (getAllKeys_addKey_perm kv id key Hk)).
Qed.

Lemma getAllKeys_deleteKey_filter (kv : KVNamespace) (id : string) :
  getAllKeys (deleteKey kv id)
  = filter (fun p => negb (String.eqb (ApiKey_id p) id)) (getAllKeys kv).
Proof.
  unfold getAllKeys, deleteKey, kv_remove. cbn [api_keys].
  induction (api_keys kv) as [|[i k] l IH]; simpl; [reflexivity |].
  destruct (String.eqb i id) eqn:Ei; destruct (String.eqb k "") eqn:Ek; simpl;
    rewrite ?Ei, ?Ek; simpl; rewrite ?Ei; simpl; rewrite IH; reflexivity.
Qed.

Lemma NoDup_map_filter {A B : Type} (f : A -> B) (g : A -> bool) (l : list A) :
  NoDup (map f l) -> NoDup (map f (filter g l)).
Proof.
  induction l as [|x l IH]; simpl; intros H; [constructor |].
  inversion H as [|y l' Hx Hl]; subst.
  destruct (g x); simpl; [| exact (IH Hl)].
  constructor; [| exact (IH Hl)].
  intros Hin. apply Hx. apply in_map_iff in Hin.
  destruct Hin as (z & E & Hz). apply filter_In in Hz.
  apply in_map_iff. exists z. split; [exact E | apply Hz].
Qed.

Lemma secrets_deleteKey_incl (kv : KVNamespace) (id key : string) :
  In key (secrets (deleteKey kv id)) -> In key (secrets kv).
Proof.
  unfold secrets. rewrite getAllKeys_deleteKey_filter, !in_map_iff.
  intros (p & E & Hp). apply filter_In in Hp. exists p. split; [exact E | apply Hp].
Qed.

(** Adding a key that is not yet a secret of the store keeps the secrets
    distinct. *)
Lemma secrets_addKey_NoDup (kv : KVNamespace) (id key : string) :
  key <> "" -> ~ In key (secrets kv) ->
  NoDup (secrets kv) -> NoDup (secrets (addKey kv id key)).
Proof.
  intros Hk Hnew Hnd.
  apply (Permutation_NoDup (Permutation_sym (secrets_addKey_perm kv id key Hk))).
  constructor.
  - intros H. apply Hnew. exact (secrets_deleteKey_incl kv id key H).
  - unfold secrets. rewrite getAllKeys_deleteKey_filter.
    apply NoDup_map_filter. exact Hnd.
Qed.

Lemma secrets_addKey_incl (kv : KVNamespace) (id key k : string) :
  key <> "" -> In k (secrets (addKey kv id key)) -> k = key \/ In k (secrets kv).
Proof.
  intros Hk H.
  apply (Permutation_in _ (secrets_addKey_perm kv id key Hk)) in H.
  destruct H as [<- | H]; [left; reflexivity | right].
  exact (secrets_deleteKey_incl kv id k H).
Qed.

(** Adding a key under an id that is not stored keeps what was stored. *)
Lemma secrets_addKey_fresh (kv : KVNamespace) (id key : string) :
  key <> "" -> kv_get id (api_keys kv) = None ->
  Permutation (secrets (addKey kv id key)) (key :: secrets kv).
Proof.
  intros Hk Hid. rewrite <- (deleteKey_absent kv id Hid) at 2.
  apply secrets_addKey_perm. exact Hk.
Qed.

Lemma importLoop_counts (newIds : nat -> string) (items : list KeyBody) :
  forall added skipped existingKeys kv,
    let '(added', skipped', kv') :=
      importLoop items newIds added skipped existingKeys kv in
    added' + skipped' = added + skipped + count_keyed items
    /\ added <= added'
    /\ cache_data kv' = cache_data kv
    /\ (added' = added -> kv' = kv).
Proof.
  unfold count_keyed.
  induction items as [|[|key] items IH]; intros a s ek kv; cbn [importLoop].
  - simpl. repeat split; lia.
  - apply IH.
  - cbn [filter]. rewrite has_key_truthy.
    destruct (key_falsy key); cbn [orb negb].
    + apply IH.
    + destruct (existsb (same_value key) ek).
      * specialize (IH a (S s) ek kv).
        destruct (importLoop items newIds a (S s) ek kv) as [[a' s'] kv'].
        cbn [List.length]. destruct IH as (H1 & H2 & H3 & H4).
        repeat split; try lia; try assumption.
      * specialize (IH (S a) s (key :: ek) (addKey kv (newIds a) (key_text key))).
        destruct (importLoop items newIds (S a) s (key :: ek)
                    (addKey kv (newIds a) (key_text key))) as [[a' s'] kv'].
        cbn [List.length]. destruct IH as (H1 & H2 & H3 & H4).
        repeat split; try lia. exact H3.
Qed.

Lemma importLoop_secrets_distinct (newIds : nat -> string)
  (items : list KeyBody) :
  text_keys items ->
  forall added skipped existingKeys kv,
    (forall s, In s (secrets kv) -> In (KeyText s) existingKeys) ->
    NoDup (secrets kv) ->
    NoDup (secrets (snd (importLoop items newIds added skipped existingKeys kv))).
Proof.
  induction items as [|[|key] items IH]; intros Ht a s ek kv Hek Hnd;
    cbn [importLoop]; [exact Hnd | |].
  { apply IH; [eapply text_keys_tail; exact Ht | assumption | assumption]. }
  pose proof (text_keys_tail _ _ Ht) as Ht'.
  destruct (Ht key (or_introl eq_refl)) as (t & ->).
  destruct (key_falsy (KeyText t)) eqn:Ef; cbn [orb];
    [apply IH; assumption |].
  destruct (existsb (same_value (KeyText t)) ek) eqn:Ex; [apply IH; assumption |].
  assert (Hnew : ~ In (KeyText t) ek).
  { intros H. apply existsb_same_value_In in H. congruence. }
  pose proof (key_text_truthy _ Ef) as Hk. cbn [key_text] in *.
  apply IH; [exact Ht' | |].
  - intros k Hkin. apply secrets_addKey_incl in Hkin; [| exact Hk].
    destruct Hkin as [-> | Hkin]; [left; reflexivity | right; auto].
  - apply secrets_addKey_NoDup; auto.
Qed.

Lemma importLoop_stores (newIds : nat -> string) (items : list KeyBody) :
  (forall n m, newIds n = newIds m -> n = m) ->
  forall added skipped existingKeys kv,
    (forall n, added <= n -> kv_get (newIds n) (api_keys kv) = None) ->
    (forall k, In k existingKeys -> In (key_text k) (secrets kv)) ->
    let '(added', _, kv') :=
      importLoop items newIds added skipped existingKeys kv in
    (forall s, In s (secrets kv) -> In s (secrets kv'))
    /\ (forall k, key_falsy k = false -> In (WithKey k) items ->
                  In (key_text k) (secrets kv'))
    /\ List.length (secrets kv') = List.length (secrets kv) + (added' - added).
Proof.
  intros Hinj.
  induction items as [|[|key] items IH]; intros a s ek kv Hfresh Hek;
    cbn [importLoop].
  - repeat split; [auto | intros k _ [] | lia].
  - specialize (IH a s ek kv Hfresh Hek).
    destruct (importLoop items newIds a s ek kv) as [[a' s'] kv'].
    destruct IH as (H1 & H2 & H3). repeat split; auto.
    intros k Hk [E | Hin]; [discriminate | auto].
  - destruct (key_falsy key) eqn:Ef; cbn [orb negb].
    + specialize (IH a s ek kv Hfresh Hek).
      destruct (importLoop items newIds a s ek kv) as [[a' s'] kv'].
      destruct IH as (H1 & H2 & H3). repeat split; auto.
      intros k Hkne [[= <-] | Hin]; [congruence | auto].
    + pose proof (key_text_truthy _ Ef) as Hk.
      destruct (existsb (same_value key) ek) eqn:Ex.
      * specialize (IH a (S s) ek kv Hfresh Hek).
        destruct (importLoop items newIds a (S s) ek kv) as [[a' s'] kv'].
        destruct IH as (H1 & H2 & H3). repeat split; auto.
        intros k Hkne [[= <-] | Hin]; [| auto].
        apply H1, Hek, existsb_same_value_In. exact Ex.
      * assert (P : Permutation (secrets (addKey kv (newIds a) (key_text key)))
                      (key_text key :: secrets kv))
          by (apply secrets_addKey_fresh; [exact Hk | apply Hfresh; lia]).
        specialize (IH (S a) s (key :: ek) (addKey kv (newIds a) (key_text key))).
        pose proof (importLoop_counts newIds items (S a) s (key :: ek)
                      (addKey kv (newIds a) (key_text key))) as C.
        destruct (importLoop items newIds (S a) s (key :: ek)
                    (addKey kv (newIds a) (key_text key))) as [[a' s'] kv'].
        destruct C as (_ & C & _).
        destruct IH as (H1 & H2 & H3).
        { intros n Hn. unfold addKey, kv_put. cbn [api_keys].
          assert (Hne : newIds n <> newIds a)
            by (intros E; apply Hinj in E; lia).
          rewrite kv_get_place_ne, kv_get_remove_ne by exact Hne.
          apply Hfresh. lia. }
        { intros k [<- | Hin];
            apply (Permutation_in _ (Permutation_sym P)); simpl; auto. }
        repeat split.
        -- intros k Hin. apply H1.
           apply (Permutation_in _ (Permutation_sym P)). simpl. auto.
        -- intros k Hkne [[= <-] | Hin]; [| auto].
           apply H1. apply (Permutation_in _ (Permutation_sym P)). simpl. auto.
        -- rewrite H3, (Permutation_length P). simpl. lia.
Qed.

(** An import whose truthy keys are all in the set of the keys seen adds
    nothing. *)
Lemma importLoop_nothing_new (newIds : nat -> string) (items : list KeyBody) :
  forall added skipped existingKeys kv,
    (forall k, In (WithKey k) items -> key_falsy k = false ->
               In k existingKeys) ->
    fst (fst (importLoop items newIds added skipped existingKeys kv)) = added.
Proof.
  induction items as [|[|key] items IH]; intros a s ek kv H; cbn [importLoop];
    [reflexivity | apply IH; intros k Hk; apply H; right; exact Hk |].
  destruct (key_falsy key) eqn:Ef; cbn [orb].
  - apply IH. intros k Hin. apply H. right. exact Hin.
  - rewrite (proj2 (existsb_same_value_In key ek) (H key (or_introl eq_refl) Ef)).
    apply IH. intros k Hin. apply H. right. exact Hin.
Qed.

(** The keys seen at the start of an import: the stored texts. *)
Lemma stored_texts_In (kv : KVNamespace) (k : KeyValue) :
  In k (map (fun p => KeyText (ApiKey_key p)) (getAllKeys kv))
  <-> exists s, k = KeyText s /\ In s (secrets kv).
Proof.
  unfold secrets. rewrite in_map_iff. split.
  - intros (p & <- & Hp). eexists. split; [reflexivity |].
    apply in_map. exact Hp.
  - intros (s & -> & Hs). apply in_map_iff in Hs. destruct Hs as (p & <- & Hp).
    exists p. split; [reflexivity | exact Hp].
Qed.

Lemma handleSingleKeyAdd_new (upstream : string -> nat -> FetchOutcome)
  (kv : KVNamespace) (key : KeyValue) (newId : string) (t_run t_put : Z) :
  key_falsy key = false -> key_exists kv key = false ->
  exists tr,
    handleSingleKeyAdd upstream (WithKey key) kv newId t_run t_put
    = Some (createJsonReply ReplySuccess,
            with_cache (addKey kv newId (key_text key))
              (fresh_report upstream (addKey kv newId (key_text key)) t_run)
              t_put,
            tr).
Proof.
  intros Hk Hnew.
  destruct (refreshCache_eq upstream (addKey kv newId (key_text key)) t_run t_put)
    as (tr & _ & E & _).
  exists tr. unfold handleSingleKeyAdd. rewrite Hk, Hnew, E. reflexivity.
Qed.

(** X9: a single add of a text that is not empty and not stored answers
    200, stores the text under the new id and leaves in the cache a report
    that has the entry of the new key; a second add of the same text,
    whatever its new id, is answered 409 and changes nothing. The 409 is
    for texts only: a key that is a number (or [true]) is never found
    among the stored texts, so every add of it answers 200 and stores its
    text under the new id, also when that text is stored already. *)
Theorem X9_single_add_then_conflict (upstream : string -> nat -> FetchOutcome)
  (kv : KVNamespace) (key newId : string) (t_run t_put : Z) :
  key <> "" -> apiKeyExists kv key = false ->
  exists kv1 tr,
    handleSingleKeyAdd upstream (WithKey (KeyText key)) kv newId t_run t_put
    = Some (createJsonReply ReplySuccess, kv1, tr)
    /\ kv_get newId (api_keys kv1) = Some key
    /\ apiKeyExists kv1 key = true
    /\ cache_data kv1
       = Some {| cached := fresh_report upstream (addKey kv newId key) t_run;
                 expiresAt := (t_put + 120 * 1000)%Z |}
    /\ In (fst (fetchApiKeyData upstream newId key 0))
          (data (fresh_report upstream (addKey kv newId key) t_run))
    /\ (forall newId' t_run' t_put',
          handleSingleKeyAdd upstream (WithKey (KeyText key)) kv1 newId'
            t_run' t_put'
          = Some (createErrorResponse "API key already exists" 409, kv1, []))
    /\ (forall c text newId' t_run' t_put',
          exists kv2 tr2,
            handleSingleKeyAdd upstream (WithKey (KeyScalar c text)) kv1 newId'
              t_run' t_put'
            = Some (createJsonReply ReplySuccess, kv2, tr2)
            /\ kv_get newId' (api_keys kv2) = Some (String c text)).
Proof.
  intros Hk Hnew.
  assert (Hf : key_falsy (KeyText key) = false).
  { cbn. destruct (String.eqb_spec key ""); [contradiction | reflexivity]. }
  destruct (handleSingleKeyAdd_new upstream kv (KeyText key) newId t_run t_put
              Hf Hnew) as (tr & E).
  cbn [key_text] in E.
  assert (Hin : In {| ApiKey_id := newId; ApiKey_key := key |}
                  (getAllKeys (addKey kv newId key))).
  { apply getAllKeys_addKey_In. left. split; [reflexivity | exact Hk]. }
  assert (Hex : apiKeyExists (addKey kv newId key) key = true)
    by (apply apiKeyExists_true; exists newId; exact Hin).
  eexists. exists tr. split; [exact E |].
  split.
  { unfold with_cache, addKey, kv_put. cbn [api_keys].
    apply kv_get_place_eq, kv_get_remove_eq. }
  split; [exact Hex |].
  split; [reflexivity |].
  split; [exact (fresh_report_entry upstream _ t_run _ Hin) |].
  split.
  { intros newId' t_run' t_put'. unfold handleSingleKeyAdd. rewrite Hf.
    cbn [key_exists]. rewrite apiKeyExists_with_cache, Hex. reflexivity. }
  intros c text newId' t_run' t_put'.
  destruct (handleSingleKeyAdd_new upstream
              (with_cache (addKey kv newId key)
                 (fresh_report upstream (addKey kv newId key) t_run) t_put)
              (KeyScalar c text) newId' t_run' t_put' eq_refl eq_refl)
    as (tr2 & E2).
  eexists. exists tr2. split; [exact E2 |].
  unfold with_cache, addKey, kv_put. cbn [api_keys key_text].
  apply kv_get_place_eq, kv_get_remove_eq.
Qed.

Lemma X9_single_add_then_conflict_witness :
  exists kv1 tr,
    handleSingleKeyAdd sample_upstream (WithKey (KeyText "D-secret-key"))
      sample_kv "key-1" 0 0
    = Some (createJsonReply ReplySuccess, kv1, tr)
    /\ handleSingleKeyAdd sample_upstream (WithKey (KeyText "D-secret-key")) kv1
         "key-2" 0 0
       = Some (createErrorResponse "API key already exists" 409, kv1, []).
Proof.
  destruct (X9_single_add_then_conflict sample_upstream sample_kv
              "D-secret-key" "key-1" 0 0 ltac:(discriminate) eq_refl)
    as (kv1 & tr & E & _ & _ & _ & _ & H & _).
  exists kv1, tr. split; [exact E | apply H].
Defined.

Lemma handleBatchImport_eq (upstream : string -> nat -> FetchOutcome)
  (items : list KeyBody) (kv : KVNamespace) (newIds : nat -> string)
  (t_run t_put : Z) :
  let loop := importLoop items newIds 0 0 (stored_texts kv) kv in
  let added := fst (fst loop) in
  let skipped := snd (fst loop) in
  let kv1 := snd loop in
  exists tr,
    handleBatchImport upstream items kv newIds t_run t_put
    = Some (createJsonReply (ReplyImport added skipped),
            (if 0 <? added
             then with_cache kv1 (fresh_report upstream kv1 t_run) t_put
             else kv1),
            tr)
    /\ (added = 0 -> tr = []).
Proof.
  cbv zeta. unfold handleBatchImport, stored_texts.
  destruct (importLoop items newIds 0 0
              (map (fun k => KeyText (ApiKey_key k)) (getAllKeys kv)) kv)
    as [[added skipped] kv1]. cbn [fst snd].
  destruct (Nat.ltb_spec 0 added) as [Hpos|Hzero].
  - destruct (refreshCache_eq upstream kv1 t_run t_put) as (tr & _ & E & _).
    exists tr. rewrite E. split; [reflexivity | lia].
  - exists []. split; reflexivity.
Qed.

(** X11: the adds of texts never store a secret twice: when the secrets of
    the key pairs of the store are pairwise distinct, they are so after
    [handleSingleKeyAdd] of a body whose key is a text and after
    [handleBatchImport] of items whose keys are texts, whatever the ids
    made up. This fails for a key that is a number (or [true]): when its
    text is a secret of the store, the add under a new id stores that
    text a second time. *)
Theorem X11_secrets_stay_distinct (upstream : string -> nat -> FetchOutcome)
  (kv : KVNamespace) (t_run t_put : Z) :
  NoDup (secrets kv) ->
  (forall body newId reply kv' tr,
     text_keys [body] ->
     handleSingleKeyAdd upstream body kv newId t_run t_put = Some (reply, kv', tr) ->
     NoDup (secrets kv'))
  /\ (forall items newIds reply kv' tr,
        text_keys items ->
        handleBatchImport upstream items kv newIds t_run t_put
        = Some (reply, kv', tr) ->
        NoDup (secrets kv'))
  /\ (forall c text newId,
        In (String c text) (secrets kv) ->
        kv_get newId (api_keys kv) = None ->
        exists kv' tr,
          handleSingleKeyAdd upstream (WithKey (KeyScalar c text)) kv newId
            t_run t_put
          = Some (createJsonReply ReplySuccess, kv', tr)
          /\ ~ NoDup (secrets kv')).
Proof.
  intros Hnd. split; [| split].
  - intros body newId reply kv' tr Ht H. unfold handleSingleKeyAdd in H.
    destruct body as [|key]; [injection H as _ <- _; exact Hnd |].
    destruct (Ht key (or_introl eq_refl)) as (s & ->).
    destruct (key_falsy (KeyText s)) eqn:Ef; [injection H as _ <- _; exact Hnd |].
    pose proof (key_text_truthy _ Ef) as Hk. cbn [key_exists key_text] in *.
    destruct (apiKeyExists kv s) eqn:Ex; [injection H as _ <- _; exact Hnd |].
    destruct (refreshCache_eq upstream (addKey kv newId s) t_run t_put)
      as (tr1 & _ & E & _).
    rewrite E in H. injection H as _ <- _.
    change (NoDup (secrets (addKey kv newId s))).
    apply secrets_addKey_NoDup; [exact Hk | | exact Hnd].
    intros Hin. apply apiKeyExists_secrets in Hin. congruence.
  - intros items newIds reply kv' tr Ht H.
    destruct (handleBatchImport_eq upstream items kv newIds t_run t_put)
      as (tr1 & E & _).
    rewrite E in H. injection H as _ <- _.
    assert (N : NoDup (secrets (snd (importLoop items newIds 0 0
                                       (stored_texts kv) kv)))).
    { apply importLoop_secrets_distinct; [exact Ht | | exact Hnd].
      intros s Hs. apply stored_texts_In. exists s. split; [reflexivity | exact Hs]. }
    destruct (0 <? fst (fst (importLoop items newIds 0 0 (stored_texts kv) kv)));
      exact N.
  - intros c text newId Hin Hid.
    destruct (handleSingleKeyAdd_new upstream kv (KeyScalar c text) newId
                t_run t_put eq_refl eq_refl) as (tr & E).
    eexists. exists tr. split; [exact E |].
    cbn [key_text].
    change (~ NoDup (secrets (addKey kv newId (String c text)))).
    intros N.
    apply (Permutation_NoDup
             (secrets_addKey_fresh kv newId (String c text)
                ltac:(discriminate) Hid)) in N.
    inversion N as [|x l Hx _]; subst. contradiction.
Qed.

Lemma X11_secrets_stay_distinct_witness :
  NoDup (secrets sample_kv)
  /\ text_keys sample_import
  /\ forall reply kv' tr,
       handleBatchImport sample_upstream sample_import sample_kv sample_ids 0 0
       = Some (reply, kv', tr) ->
       NoDup (secrets kv').
Proof.
  assert (N : NoDup (secrets sample_kv))
    by (repeat constructor; simpl; intuition discriminate).
  assert (T : text_keys sample_import).
  { intros key Hin. simpl in Hin.
    repeat (destruct Hin as [Hin | Hin];
            [try discriminate Hin; injection Hin as <-; eexists; reflexivity |]).
    destruct Hin. }
  split; [exact N |]. split; [exact T |].
  intros reply kv' tr.
  apply (proj1 (proj2 (X11_secrets_stay_distinct sample_upstream sample_kv 0 0 N))).
  exact T.
Defined.

(** The counts of an import, and the import that adds nothing. *)
Lemma handleBatchImport_counts (upstream : string -> nat -> FetchOutcome)
  (items : list KeyBody) (kv : KVNamespace) (newIds : nat -> string)
  (t_run t_put : Z) :
  exists added skipped kv' tr,
    handleBatchImport upstream items kv newIds t_run t_put
    = Some (createJsonReply (ReplyImport added skipped), kv', tr)
    /\ added + skipped = count_keyed items
    /\ (added = 0 -> kv' = kv /\ tr = [])
    /\ ((forall key, In (WithKey key) items -> key_falsy key = false ->
                     exists s, key = KeyText s /\ apiKeyExists kv s = true) ->
        added = 0).
Proof.
  destruct (handleBatchImport_eq upstream items kv newIds t_run t_put)
    as (tr & E & Htr). cbv zeta in *.
  pose proof (importLoop_counts newIds items 0 0 (stored_texts kv) kv) as C.
  assert (Hnone : (forall key, In (WithKey key) items -> key_falsy key = false ->
                     exists s, key = KeyText s /\ apiKeyExists kv s = true) ->
                  fst (fst (importLoop items newIds 0 0 (stored_texts kv) kv)) = 0).
  { intros Hall. apply importLoop_nothing_new. intros k Hin Hk.
    destruct (Hall k Hin Hk) as (s & -> & Hs).
    apply stored_texts_In. exists s. split; [reflexivity |].
    apply apiKeyExists_secrets. exact Hs. }
  destruct (importLoop items newIds 0 0 (stored_texts kv) kv)
    as [[added skipped] kv1].
  cbn [fst snd] in *. destruct C as (C1 & _ & _ & C4).
  exists added, skipped. eexists. exists tr. split; [exact E |].
  split; [lia |]. split; [| exact Hnone].
  intros ->. cbn. split; [apply C4; reflexivity | apply Htr; reflexivity].
Qed.



Lemma strokes_inj (n m : nat) : strokes n = strokes m -> n = m.
Proof.
  revert m; induction n as [|n IH]; intros [|m] H; simpl in H;
    try reflexivity; try discriminate.
  f_equal. apply IH. now injection H.
Qed.

Lemma sample_ids_inj (n m : nat) : sample_ids n = sample_ids m -> n = m.
Proof.
  unfold sample_ids. simpl. intros H. apply strokes_inj. now injection H.
Qed.

(** With new ids, an import keeps what is stored and stores its keys. *)
Lemma handleBatchImport_stores (upstream : string -> nat -> FetchOutcome)
  (items : list KeyBody) (kv : KVNamespace) (newIds : nat -> string)
  (t_run t_put : Z) :
  (forall n m, newIds n = newIds m -> n = m) ->
  (forall n, kv_get (newIds n) (api_keys kv) = None) ->
  exists added skipped kv' tr,
    handleBatchImport upstream items kv newIds t_run t_put
    = Some (createJsonReply (ReplyImport added skipped), kv', tr)
    /\ (forall key, apiKeyExists kv key = true -> apiKeyExists kv' key = true)
    /\ (forall key, key_falsy key = false -> In (WithKey key) items ->
                    apiKeyExists kv' (key_text key) = true)
    /\ List.length (getAllKeys kv') = List.length (getAllKeys kv) + added.
Proof.
  intros Hinj Hfresh.
  destruct (handleBatchImport_eq upstream items kv newIds t_run t_put)
    as (tr & E & _). cbv zeta in *.
  assert (Hek : forall k, In k (stored_texts kv) -> In (key_text k) (secrets kv)).
  { intros k Hk. apply stored_texts_In in Hk. destruct Hk as (s & -> & Hs).
    exact Hs. }
  pose proof (importLoop_stores newIds items Hinj 0 0 (stored_texts kv) kv
                (fun n _ => Hfresh n) Hek) as S.
  destruct (importLoop items newIds 0 0 (stored_texts kv) kv)
    as [[added skipped] kv1].
  cbn [fst snd] in *. destruct S as (S1 & S2 & S3).
  exists added, skipped. eexists. exists tr. split; [exact E |].
  assert (K : secrets (if 0 <? added
                       then with_cache kv1 (fresh_report upstream kv1 t_run) t_put
                       else kv1) = secrets kv1)
    by (destruct (0 <? added); reflexivity).
  split; [| split].
  - intros key H. apply apiKeyExists_secrets. rewrite K.
    apply S1, apiKeyExists_secrets, H.
  - intros key Hk Hin. apply apiKeyExists_secrets. rewrite K. apply S2; assumption.
  - unfold secrets in *. rewrite !length_map in S3.
    replace (List.length (getAllKeys
               (if 0 <? added
                then with_cache kv1 (fresh_report upstream kv1 t_run) t_put
                else kv1)))
      with (List.length (getAllKeys kv1)) by (destruct (0 <? added); reflexivity).
    lia.
Qed.



(* ===================================================================== *)
(** ** Path parsing: properties *)
(* ===================================================================== *)

Lemma prefix_append (p r : string) : String.prefix p (p ++ r)%string = true.
Proof.
  induction p as [|c p IH]; simpl; [destruct r; reflexivity |].
  destruct (ascii_dec c c); [exact IH | congruence].
Qed.

Lemma index_self_append (p r : string) :
  String.index 0 p (p ++ r)%string = Some 0.
Proof.
  destruct p as [|c p]; [destruct r; reflexivity |].
  cbn [append String.index].
  change (String c (p ++ r)%string) with (String c p ++ r)%string.
  now rewrite prefix_append.
Qed.

(** In front of a text without "/", a pattern that starts with "/" is found
    where it is found in what follows the text. *)
Lemma index_after_no_slash (p' x t : string) :
  no_slash x = true ->
  String.index 0 (String "/" p') (x ++ t)%string
  = match String.index 0 (String "/" p') t with
    | Some k => Some (String.length x + k)
    | None => None
    end.
Proof.
  induction x as [|c x IH]; intros H.
  - simpl. destruct (String.index 0 (String "/" p') t); reflexivity.
  - simpl in H. apply andb_prop in H. destruct H as [Hc Hx].
    cbn [append String.index String.prefix].
    destruct (ascii_dec "/" c) as [<-|Hne]; [discriminate Hc |].
    rewrite (IH Hx).
    destruct (String.index 0 (String "/" p') t); reflexivity.
Qed.

Lemma slice_from_append (p r : string) :
  slice_from (String.length p) (p ++ r)%string = r.
Proof.
  unfold slice_from. rewrite length_append.
  replace (String.length p + String.length r - String.length p)
    with (String.length r) by lia.
  induction p as [|c p IH]; simpl; [apply substring_0_all; lia | exact IH].
Qed.

Lemma slice_to_append (p r : string) :
  slice_to (String.length p) (p ++ r)%string = p.
Proof.
  unfold slice_to. induction p as [|c p IH]; simpl.
  - destruct r; reflexivity.
  - now rewrite IH.
Qed.

Lemma append_nil_r (s : string) : (s ++ "")%string = s.
Proof. induction s as [|c s IH]; simpl; [reflexivity | now rewrite IH]. Qed.

Lemma split_second_id (id : string) :
  no_slash id = true ->
  split_second "/api/keys/" ("/api/keys/" ++ id)%string = Some id.
Proof.
  intros H. unfold split_second. rewrite index_self_append.
  change (0 + String.length "/api/keys/") with (String.length "/api/keys/").
  rewrite slice_from_append.
  pose proof (index_after_no_slash "api/keys/" id "" H) as I.
  rewrite append_nil_r in I. cbv zeta. rewrite I. reflexivity.
Qed.

Lemma split_second_refresh (id : string) :
  no_slash id = true ->
  split_second "/api/keys/" ("/api/keys/" ++ id ++ "/refresh")%string
  = Some (id ++ "/refresh")%string.
Proof.
  intros H. unfold split_second. rewrite index_self_append.
  change (0 + String.length "/api/keys/") with (String.length "/api/keys/").
  rewrite slice_from_append. cbv zeta.
  rewrite (index_after_no_slash "api/keys/" id "/refresh" H). reflexivity.
Qed.

Lemma replace_refresh (id : string) :
  no_slash id = true -> js_replace_first "/refresh" (id ++ "/refresh")%string = id.
Proof.
  intros H. unfold js_replace_first.
  rewrite (index_after_no_slash "refresh" id "/refresh" H).
  change (String.index 0 "/refresh" "/refresh") with (Some 0). cbv iota beta.
  rewrite Nat.add_0_r, slice_to_append.
  replace (String.length id + String.length "/refresh")
    with (String.length (id ++ "/refresh")%string) by apply length_append.
  pose proof (slice_from_append (id ++ "/refresh") "") as E.
  rewrite append_nil_r in E. rewrite E. apply append_nil_r.
Qed.

Lemma no_slash_not_empty_eqb (id : string) :
  id <> "" -> String.eqb id "" = false.
Proof. intros H. destruct (String.eqb_spec id ""); [contradiction | reflexivity]. Qed.

(** X14: a delete of "/api/keys/<id>", for a non-empty id without "/",
    answers 200 and drops exactly the entry of that id; the report it
    leaves in the cache has no entry of that id. A path that does not hold
    an id ("/api/keys/" alone) is answered 400 and changes nothing. *)
Theorem X14_delete_key (upstream : string -> nat -> FetchOutcome)
  (kv : KVNamespace) (id : string) (t_run t_put : Z) :
  (no_slash id = true -> id <> "" ->
   exists kv' tr,
     handleDeleteKey upstream ("/api/keys/" ++ id)%string kv t_run t_put
     = Some (createJsonReply ReplySuccess, kv', tr)
     /\ api_keys kv' = kv_remove id (api_keys kv)
     /\ kv_get id (api_keys kv') = None
     /\ (forall id', id' <> id ->
           kv_get id' (api_keys kv') = kv_get id' (api_keys kv))
     /\ cache_data kv'
        = Some {| cached := fresh_report upstream (deleteKey kv id) t_run;
                  expiresAt := (t_put + 120 * 1000)%Z |}
     /\ (forall r, In r (data (fresh_report upstream (deleteKey kv id) t_run)) ->
                   result_id r <> id))
  /\ handleDeleteKey upstream "/api/keys/" kv t_run t_put
     = Some (createErrorResponse "Key ID is required" 400, kv, []).
Proof.
  split; [| reflexivity].
  intros Hs Hne.
  destruct (refreshCache_eq upstream (deleteKey kv id) t_run t_put)
    as (tr & _ & E & _).
  eexists. exists tr. split.
  { unfold handleDeleteKey. rewrite (split_second_id id Hs).
    rewrite (no_slash_not_empty_eqb id Hne), E. reflexivity. }
  split; [reflexivity |].
  split; [apply kv_get_remove_eq |].
  split; [intros id' H; apply kv_get_remove_ne; exact H |].
  split; [reflexivity |].
  intros r Hr Hid.
  assert (Hin : In (result_id r)
                  (map ApiKey_id (getAllKeys (deleteKey kv id)))).
  { apply (Permutation_in _ (fresh_report_ids upstream (deleteKey kv id) t_run)).
    apply in_map. exact Hr. }
  apply in_map_iff in Hin. destruct Hin as (p & E1 & Hp).
  apply getAllKeys_deleteKey_In in Hp. destruct Hp as [_ Hp].
  congruence.
Qed.

Lemma X14_delete_key_witness :
  exists kv' tr,
    handleDeleteKey sample_upstream "/api/keys/b" sample_kv 0 0
    = Some (createJsonReply ReplySuccess, kv', tr)
    /\ api_keys kv' = [("a", "A-secret-key"); ("c", "C-secret-key")]%string.
Proof.
  destruct (X14_delete_key sample_upstream sample_kv "b" 0 0) as (H & _).
  destruct (H eq_refl ltac:(discriminate)) as (kv' & tr & E & K & _).
  exists kv', tr. split; [exact E |]. rewrite K. reflexivity.
Defined.

Lemma fold_deleteKey_get (ids : list string) :
  forall (kv : KVNamespace) (id : string),
    kv_get id (api_keys (fold_left deleteKey ids kv))
    = if existsb (String.eqb id) ids then None else kv_get id (api_keys kv).
Proof.
  induction ids as [|i ids IH]; intros kv id; cbn [fold_left existsb];
    [reflexivity |].
  rewrite IH. destruct (existsb (String.eqb id) ids);
    [now rewrite orb_true_r |].
  rewrite orb_false_r. unfold deleteKey. cbn [api_keys].
  destruct (String.eqb_spec id i) as [->|Hne].
  - apply kv_get_remove_eq.
  - apply kv_get_remove_ne. exact Hne.
Qed.

Lemma fold_deleteKey_perm (ids ids' : list string) :
  Permutation ids ids' ->
  forall kv, fold_left deleteKey ids kv = fold_left deleteKey ids' kv.
Proof.
  induction 1 as [|x l l' _ IH|x y l|l l' l'' _ IH1 _ IH2]; intros kv;
    cbn [fold_left].
  - reflexivity.
  - apply IH.
  - now rewrite deleteKey_comm.
  - now rewrite IH1.
Qed.

(** X15: a batch delete of a non-empty list of ids answers 200 with the
    number of ids requested (whether or not they were stored), leaves none
    of these ids in the store and every other entry as it was, and writes
    the report of the remaining keys to the cache; the order in which the
    deletions take place does not matter. A body without an [ids] array, or
    with an empty one, is answered 400 "ids array is required"; a body
    whose reading throws (it is not a JSON text, or it is [null]) is
    answered 400 with the message of the error; in both cases nothing
    changes and no upstream call is made. *)
Theorem X15_batch_delete (upstream : string -> nat -> FetchOutcome)
  (kv : KVNamespace) (ids : list string) (t_run t_put : Z) :
  (ids <> [] ->
   exists reply kv' tr,
     handleBatchDeleteKeys upstream (BodyIds (Some ids)) kv t_run t_put
     = Some (reply, kv', tr)
     /\ reply_status reply = 200%Z
     /\ reply_body reply = ReplyDeleted (List.length ids)
     /\ (forall id, In id ids -> kv_get id (api_keys kv') = None)
     /\ (forall id, ~ In id ids ->
           kv_get id (api_keys kv') = kv_get id (api_keys kv))
     /\ cache_data kv'
        = Some {| cached :=
                    fresh_report upstream (fold_left deleteKey ids kv) t_run;
                  expiresAt := (t_put + 120 * 1000)%Z |}
     /\ (forall r, In r (data (fresh_report upstream
                                 (fold_left deleteKey ids kv) t_run)) ->
                   ~ In (result_id r) ids)
     /\ (forall ids', Permutation ids ids' ->
           fold_left deleteKey ids' kv = fold_left deleteKey ids kv))
  /\ (forall body,
        body = BodyIds None \/ body = BodyIds (Some []) ->
        exists reply,
          handleBatchDeleteKeys upstream body kv t_run t_put
          = Some (reply, kv, [])
          /\ reply_status reply = 400%Z
          /\ reply_body reply = ReplyError "ids array is required")
  /\ (forall message,
        exists reply,
          handleBatchDeleteKeys upstream (BodyThrows message) kv t_run t_put
          = Some (reply, kv, [])
          /\ reply_status reply = 400%Z
          /\ reply_body reply = ReplyError message).
Proof.
  split; [| split].
  2: { intros body [-> | ->];
         (eexists; split; [reflexivity | split; reflexivity]). }
  2: { intros message. eexists. split; [reflexivity |]. split; reflexivity. }
  intros Hne.
  destruct (refreshCache_eq upstream (fold_left deleteKey ids kv) t_run t_put)
    as (tr & _ & E & _).
  eexists. eexists. exists tr. split.
  { unfold handleBatchDeleteKeys. destruct ids as [|i ids]; [congruence |].
    rewrite E. reflexivity. }
  split; [reflexivity |]. split; [reflexivity |].
  split.
  { intros id Hin. cbn [with_cache api_keys]. rewrite fold_deleteKey_get.
    apply existsb_eqb_In in Hin. now rewrite Hin. }
  split.
  { intros id Hnin. cbn [with_cache api_keys]. rewrite fold_deleteKey_get.
    destruct (existsb (String.eqb id) ids) eqn:Ex; [| reflexivity].
    apply existsb_eqb_In in Ex. contradiction. }
  split; [reflexivity |].
  split.
  { intros r Hr Hin.
    assert (Hid : In (result_id r)
                    (map ApiKey_id (getAllKeys (fold_left deleteKey ids kv)))).
    { apply (Permutation_in _ (fresh_report_ids upstream _ t_run)).
      apply in_map. exact Hr. }
    apply in_map_iff in Hid. destruct Hid as (p & Ep & Hp).
    apply getAllKeys_In in Hp. destruct Hp as [Hp _].
    assert (G : kv_get (result_id r) (api_keys (fold_left deleteKey ids kv)) = None).
    { rewrite fold_deleteKey_get.
      apply existsb_eqb_In in Hin. now rewrite Hin. }
    apply kv_get_none with (e := (ApiKey_id p, ApiKey_key p)) in G; [| exact Hp].
    apply G. exact Ep. }
  intros ids' P. symmetry. apply fold_deleteKey_perm. exact P.
Qed.

Lemma X15_batch_delete_witness :
  exists reply kv' tr,
    handleBatchDeleteKeys sample_upstream (BodyIds (Some ["c"; "zz"; "a"]%string))
      sample_kv 0 0
    = Some (reply, kv', tr)
    /\ reply_body reply = ReplyDeleted 3
    /\ api_keys kv' = [("b", "B-secret-key")]%string.
Proof.
  destruct (X15_batch_delete sample_upstream sample_kv ["c"; "zz"; "a"]%string
              0 0) as (H & _).
  destruct (H ltac:(discriminate)) as (reply & kv' & tr & E & _ & Hb & _).
  exists reply, kv', tr. split; [exact E |]. split; [exact Hb |].
  assert (A : option_map (fun x => api_keys (snd (fst x)))
                (handleBatchDeleteKeys sample_upstream
                   (BodyIds (Some ["c"; "zz"; "a"]%string)) sample_kv 0 0)
              = Some [("b", "B-secret-key")]%string) by (vm_compute; reflexivity).
  rewrite E in A. cbn [option_map fst snd] in A. now injection A.
Defined.

(** X16: a refresh of "/api/keys/<id>/refresh", for a non-empty id without
    "/", fetches the usage of the stored key of that id, once and outside
    the scheduler, and answers 200 with the result; when the id is not
    stored it answers 404 without any upstream call. In every case the key
    store and its cache are left as they are, at most three upstream calls
    are made, and they carry no other secret than the stored key of that
    id. *)
Theorem X16_refresh_single_key (upstream : string -> nat -> FetchOutcome)
  (kv : KVNamespace) (id : string) :
  no_slash id = true -> id <> "" ->
  let out :=
    handleRefreshSingleKey upstream ("/api/keys/" ++ id ++ "/refresh")%string kv in
  (forall key,
     kv_get id (api_keys kv) = Some key -> key <> "" ->
     out = (createJsonReply (ReplyResult (fst (fetchApiKeyData upstream id key 0))),
            kv, snd (fetchApiKeyData upstream id key 0))
     /\ result_id (fst (fetchApiKeyData upstream id key 0)) = id
     /\ result_key (fst (fetchApiKeyData upstream id key 0)) = maskApiKey key
     /\ 1 <= upstream_calls (snd out) <= 3
     /\ Forall (fun bearer => bearer = key) (bearers (snd out)))
  /\ (kv_get id (api_keys kv) = None ->
      out = (createErrorResponse "Key not found" 404, kv, []))
  /\ snd (fst out) = kv.
Proof.
  intros Hs Hne. cbv zeta. unfold handleRefreshSingleKey.
  rewrite (split_second_refresh id Hs). cbv zeta.
  rewrite (replace_refresh id Hs), (no_slash_not_empty_eqb id Hne).
  split; [| split].
  - intros key Hget Hk. rewrite Hget, (no_slash_not_empty_eqb key Hk).
    split; [reflexivity |].
    destruct (fetchApiKeyData_key upstream id key 0) as [K I].
    split; [exact I |]. split; [exact K |]. cbn [snd].
    destruct (fetchApiKeyData_calls upstream id key 0) as [C1 C2];
      [unfold maxRetries; lia |].
    split; [lia |]. apply (fetchApiKeyData_trace upstream id key 0).
  - intros Hget. rewrite Hget. reflexivity.
  - destruct (kv_get id (api_keys kv)) as [key|]; [| reflexivity].
    destruct (String.eqb key ""); reflexivity.
Qed.

Lemma X16_refresh_single_key_witness :
  handleRefreshSingleKey sample_upstream "/api/keys/b/refresh" sample_kv
  = (createJsonReply
       (ReplyResult (Failure {| error_id := "b"; error_key := "B-se...-key";
                                error := "HTTP 401" |})),
     sample_kv,
     [UpstreamCall "B-secret-key"; Sleep 1000; UpstreamCall "B-secret-key";
      Sleep 2000; UpstreamCall "B-secret-key"])
  /\ handleRefreshSingleKey sample_upstream "/api/keys/zz/refresh" sample_kv
     = (createErrorResponse "Key not found" 404, sample_kv, []).
Proof.
  destruct (X16_refresh_single_key sample_upstream sample_kv "b" eq_refl
              ltac:(discriminate)) as (H & _).
  destruct (X16_refresh_single_key sample_upstream sample_kv "zz" eq_refl
              ltac:(discriminate)) as (_ & H' & _).
  split.
  - destruct (H "B-secret-key"%string eq_refl ltac:(discriminate)) as (E & _).
    exact E.
  - exact (H' eq_refl).
Defined.

(* ===================================================================== *)
(** ** KeyMasker and the time of the report: further properties *)
(* ===================================================================== *)

(** X17: the masked identifier of a secret of at most 8 characters has the
    secret's first up to four characters and three dots; that of a longer
    secret has exactly 11 characters. No mask is longer than 11
    characters, and two secrets longer than 8 characters with the same
    first four and the same last four characters have the same mask. *)
Theorem X17_mask_length (secret : string) :
  String.length (maskApiKey secret)
  = (if String.length secret <=? 8
     then Nat.min 4 (String.length secret) + 3 else 11)
  /\ String.length (maskApiKey secret) <= 11
  /\ (forall other,
        8 < String.length secret -> 8 < String.length other ->
        slice_to 4 secret = slice_to 4 other ->
        slice_from (String.length secret - 4) secret
        = slice_from (String.length other - 4) other ->
        maskApiKey secret = maskApiKey other).
Proof.
  assert (L : String.length (maskApiKey secret)
              = (if String.length secret <=? 8
                 then Nat.min 4 (String.length secret) + 3 else 11)).
  { destruct (Nat.leb_spec (String.length secret) 8) as [H|H].
    - rewrite maskApiKey_short_eq by exact H. unfold slice_to.
      rewrite length_append, substring_0_length. reflexivity.
    - apply maskApiKey_long_length. exact H. }
  split; [exact L |]. split.
  - rewrite L. destruct (String.length secret <=? 8); lia.
  - intros other H1 H2 E1 E2.
    rewrite (maskApiKey_long_eq secret H1), (maskApiKey_long_eq other H2).
    now rewrite E1, E2.
Qed.

Lemma X17_mask_length_witness :
  maskApiKey "fk-0123456789abcdef" = maskApiKey "fk-0XXXXXXXXXXXXXXXXXXXcdef".
Proof.
  apply (X17_mask_length "fk-0123456789abcdef");
    [simpl; lia | simpl; lia | reflexivity | reflexivity].
Defined.

Lemma pad_two_digits (n : Z) :
  (0 <= n <= 99)%Z -> pad n = pad_digits 2 n.
Proof.
  intros H.
  assert (A : forallb (fun k => String.eqb (pad (Z.of_nat k))
                                  (pad_digits 2 (Z.of_nat k)))
                (seq 0 100) = true) by (vm_compute; reflexivity).
  rewrite forallb_forall in A.
  specialize (A (Z.to_nat n)). rewrite Z2Nat.id in A by lia.
  apply String.eqb_eq, A, in_seq. lia.
Qed.

Lemma year_four_digits (y : Z) :
  (1000 <= y <= 9999)%Z -> js_toString y = pad_digits 4 y.
Proof.
  intros H.
  assert (A : forallb (fun k => String.eqb (js_toString (1000 + Z.of_nat k))
                                  (pad_digits 4 (1000 + Z.of_nat k)))
                (seq 0 (Z.to_nat 9000)) = true) by (vm_compute; reflexivity).
  rewrite forallb_forall in A.
  specialize (A (Z.to_nat (y - 1000))).
  replace (1000 + Z.of_nat (Z.to_nat (y - 1000)))%Z with y in A by lia.
  apply String.eqb_eq, A, in_seq. lia.
Qed.

Lemma days_before_year_1000 (y m d : Z) :
  (y <= 999)%Z -> (1 <= m <= 12)%Z -> (1 <= d <= 31)%Z ->
  (days_from_civil y m d <= -354286)%Z.
Proof.
  intros Hy Hm Hd. unfold days_from_civil. cbv zeta.
  destruct (Z.leb_spec m 2); Z.div_mod_to_equations; lia.
Qed.

(** [formatDateTime] of a time of the years 1000 to 9999: the date that
    [toISOString] writes, a blank and the time of day. *)
Lemma formatDateTime_plain_year (t : Z) :
  plain_year_time t ->
  formatDateTime t = (iso_date t ++ " " ++ time_of_day_text t)%string.
Proof.
  intros Ht. unfold plain_year_time in Ht.
  assert (H4 : four_digit_year_time t) by (unfold four_digit_year_time; lia).
  assert (Hdays : (-354285 <= t / msPerDay)%Z)
    by (unfold msPerDay; Z.div_mod_to_equations; lia).
  unfold formatDateTime, iso_date, time_of_day_text.
  rewrite (four_digit_year_time_valid t H4).
  pose proof (civil_from_days_spec (t / msPerDay)) as S.
  destruct (civil_from_days (t / msPerDay)) as [[y m] d].
  destruct S as (Hrt & Hm & Hd & Hy).
  apply four_digit_year_days in H4. apply Hy in H4.
  assert (Hy1000 : (1000 <= y)%Z).
  { destruct (Z.le_gt_cases 1000 y) as [G|G]; [exact G |].
    pose proof (days_before_year_1000 y m d ltac:(lia) Hm Hd). lia. }
  unfold iso_year.
  replace ((0 <=? y)%Z && (y <=? 9999)%Z) with true
    by (symmetry; apply andb_true_intro; split; apply Z.leb_le; lia).
  rewrite (year_four_digits y) by lia.
  rewrite (pad_two_digits m), (pad_two_digits d) by lia.
  assert (Hms : (0 <= t mod msPerDay < 86400000)%Z)
    by (apply Z.mod_pos_bound; reflexivity).
  rewrite (pad_two_digits (t mod msPerDay / 3600000))
    by (Z.div_mod_to_equations; lia).
  rewrite (pad_two_digits (t mod msPerDay / 60000 mod 60))
    by (pose proof (Z.mod_pos_bound (t mod msPerDay / 60000) 60); lia).
  rewrite (pad_two_digits (t mod msPerDay / 1000 mod 60))
    by (pose proof (Z.mod_pos_bound (t mod msPerDay / 1000) 60); lia).
  rewrite !append_assoc. reflexivity.
Qed.

(** X18: the [update_time] of the report of a run is the time of the run
    moved forward by eight hours, written as UTC: when that time lies in
    the years 1000 to 9999, it is the 19 characters "YYYY-MM-DD HH:MM:SS",
    where YYYY-MM-DD is the calendar date on which the moved time falls
    and HH:MM:SS its time of day. Beyond 8.64e15 ms either side of the
    epoch the [Date] is invalid and the text is made of NaN. *)
Theorem X18_update_time_format (upstream : string -> nat -> FetchOutcome)
  (kv : KVNamespace) (now : Z) :
  let t := (now + 8 * 3600 * 1000)%Z in
  (plain_year_time t ->
   exists report tr date,
     getAggregatedData upstream kv now = Some (report, tr)
     /\ update_time report = (date ++ " " ++ time_of_day_text t)%string
     /\ renders_utc_date t date
     /\ String.length (update_time report) = 19)
  /\ ((8640000000000000 < Z.abs t)%Z ->
      exists report tr,
        getAggregatedData upstream kv now = Some (report, tr)
        /\ update_time report = "NaN-NaN-NaN NaN:NaN:NaN"%string).
Proof.
  cbv zeta.
  destruct (getAggregatedData_eq upstream kv now) as (tr & E & _).
  assert (U : update_time (aggregate (getBeijingTime now) (getAllKeys kv)
                             (fetch_all upstream (getAllKeys kv)))
              = formatDateTime (now + 8 * 3600 * 1000)%Z).
  { reflexivity. }
  split.
  - intros Ht. eexists. exists tr, (iso_date (now + 8 * 3600 * 1000)%Z).
    split; [exact E |]. rewrite U.
    pose proof (formatDateTime_plain_year _ Ht) as F.
    assert (H4 : four_digit_year_time (now + 8 * 3600 * 1000)%Z)
      by (unfold plain_year_time in Ht; unfold four_digit_year_time; lia).
    pose proof (iso_date_four_digit_year _ H4) as R.
    split; [exact F |]. split; [exact R |].
    rewrite F. destruct R as (y & m & d & _ & _ & _ & L).
    unfold time_of_day_text.
    rewrite !length_append, L, !pad_digits_length. reflexivity.
  - intros Ht. eexists. exists tr. split; [exact E |]. rewrite U.
    unfold formatDateTime, time_valid.
    destruct (Z.leb_spec (Z.abs (now + 8 * 3600 * 1000)) 8640000000000000);
      [lia | reflexivity].
Qed.

Lemma X18_update_time_format_witness :
  plain_year_time (1709210096789 + 8 * 3600 * 1000)
  /\ exists report tr,
       getAggregatedData sample_upstream sample_kv 1709210096789
       = Some (report, tr)
       /\ update_time report = "2024-02-29 20:34:56"%string.
Proof.
  assert (H : plain_year_time (1709210096789 + 8 * 3600 * 1000))
    by (unfold plain_year_time; cbv; split; discriminate).
  split; [exact H |].
  destruct (X18_update_time_format sample_upstream sample_kv 1709210096789)
    as (P & _).
  destruct (P H) as (report & tr & date & E & U & R & L).
  exists report, tr. split; [exact E |].
  assert (A : option_map (fun x => update_time (fst x))
                (getAggregatedData sample_upstream sample_kv 1709210096789)
              = Some "2024-02-29 20:34:56"%string) by (vm_compute; reflexivity).
  rewrite E in A. cbn [option_map fst] in A. now injection A.
Defined.

(* ===================================================================== *)
(** ** Routing: properties *)
(* ===================================================================== *)

Example route_examples :
  route "GET" "/api/data" = RouteGetData
  /\ route "POST" "/api/keys/batch-delete" = RouteBatchDeleteKeys
  /\ route "POST" "/api/keys/key-1/refresh" = RouteRefreshSingleKey
  /\ route "POST" "/api/keys//refresh" = RouteNotFound
  /\ route "DELETE" "/api/keys/key-1" = RouteDeleteKey
  /\ route "GET" "/api/keys/key-1" = RouteNotFound.
Proof. repeat split. Qed.

Lemma no_slash_append (s t : string) :
  no_slash (s ++ t)%string = no_slash s && no_slash t.
Proof.
  induction s as [|c s IH]; simpl; [reflexivity |].
  rewrite IH. apply andb_assoc.
Qed.

Lemma eqb_slash_mismatch (s t : string) :
  no_slash s = false -> no_slash t = true -> String.eqb s t = false.
Proof.
  intros Hs Ht. destruct (String.eqb_spec s t) as [->|]; [congruence | reflexivity].
Qed.

Lemma substring_middle (p m s : string) :
  String.substring (String.length p) (String.length m) (p ++ m ++ s)%string = m.
Proof.
  induction p as [|c p IH]; simpl; [| exact IH].
  induction m as [|c m IH]; simpl; [destruct s; reflexivity | now rewrite IH].
Qed.

Lemma ends_with_append (p suffix : string) :
  ends_with (p ++ suffix)%string suffix = true.
Proof.
  unfold ends_with. rewrite length_append.
  replace (String.length p + String.length suffix - String.length suffix)
    with (String.length p) by lia.
  rewrite slice_from_append, String.eqb_refl.
  destruct (Nat.leb_spec (String.length suffix)
              (String.length p + String.length suffix)); [reflexivity | lia].
Qed.

Lemma matches_refresh_id (id : string) :
  id <> "" -> no_line_terminator id = true ->
  matches_refresh ("/api/keys/" ++ id ++ "/refresh")%string = true.
Proof.
  intros Hne Hlt. unfold matches_refresh.
  rewrite prefix_append.
  rewrite <- append_assoc, ends_with_append.
  rewrite !length_append.
  change (String.length "/api/keys/") with 10.
  change (String.length "/refresh") with 8.
  assert (L : 1 <= String.length id) by (destruct id; [congruence | simpl; lia]).
  destruct (Nat.leb_spec 19 (10 + String.length id + 8)); [| lia].
  replace (10 + String.length id + 8 - 18) with (String.length id) by lia.
  rewrite append_assoc.
  change 10 with (String.length "/api/keys/").
  rewrite substring_middle, Hlt. reflexivity.
Qed.

(** X19: the routing and the path parsing of the handlers agree on an id
    that is not empty and has neither "/" nor a line terminator: a DELETE
    of "/api/keys/<id>" is handed to [handleDeleteKey], which reads <id>
    from the path, and a POST of "/api/keys/<id>/refresh" is handed to
    [handleRefreshSingleKey], which reads <id> from the path. *)
Theorem X19_route_and_parse_agree (id : string) :
  id <> "" -> no_slash id = true -> no_line_terminator id = true ->
  route "DELETE" ("/api/keys/" ++ id)%string = RouteDeleteKey
  /\ split_second "/api/keys/" ("/api/keys/" ++ id)%string = Some id
  /\ route "POST" ("/api/keys/" ++ id ++ "/refresh")%string
     = RouteRefreshSingleKey
  /\ option_map (js_replace_first "/refresh")
       (split_second "/api/keys/" ("/api/keys/" ++ id ++ "/refresh")%string)
     = Some id.
Proof.
  intros Hne Hs Hlt.
  assert (Hr : no_slash (id ++ "/refresh")%string = false)
    by (rewrite no_slash_append; simpl; apply andb_false_r).
  split.
  { unfold route.
    change (String.eqb "DELETE" "OPTIONS") with false.
    change (String.eqb "DELETE" "GET") with false.
    change (String.eqb "DELETE" "POST") with false.
    change (String.eqb "DELETE" "DELETE") with true.
    rewrite prefix_append, !andb_false_r. reflexivity. }
  split; [apply split_second_id; exact Hs |].
  split.
  { unfold route.
    change (String.eqb "POST" "OPTIONS") with false.
    change (String.eqb "POST" "GET") with false.
    change (String.eqb "POST" "DELETE") with false.
    change (String.eqb "POST" "POST") with true.
    rewrite (matches_refresh_id id Hne Hlt).
    rewrite !andb_false_r. cbn [andb].
    simpl String.eqb.
    rewrite (eqb_slash_mismatch (id ++ "/refresh") "batch-delete" Hr eq_refl).
    rewrite (eqb_slash_mismatch (id ++ "/refresh") "export" Hr eq_refl).
    reflexivity. }
  rewrite (split_second_refresh id Hs). cbn [option_map].
  now rewrite (replace_refresh id Hs).
Qed.

Lemma X19_route_and_parse_agree_witness :
  route "DELETE" "/api/keys/key-1" = RouteDeleteKey
  /\ route "POST" "/api/keys/key-1/refresh" = RouteRefreshSingleKey
  /\ split_second "/api/keys/" "/api/keys/key-1" = Some "key-1"%string.
Proof.
  destruct (X19_route_and_parse_agree "key-1" ltac:(discriminate) eq_refl eq_refl)
    as (A & B & C & _).
  repeat split; assumption.
Defined.

(** X20: the order of the tests of the routing decides: an OPTIONS request
    gets the preflight answer on every path; the path "/" gets the
    dashboard for every other method; a DELETE below "/api/keys/" is
    always a key deletion, also of "batch-delete", "export" and of a path
    that ends with "/refresh"; and a request whose method is none of
    OPTIONS, GET, POST and DELETE gets "Not Found" on every path but
    "/". *)
Theorem X20_route_precedence (method pathname : string) :
  route "OPTIONS" pathname = RoutePreflight
  /\ (method <> "OPTIONS" -> route method "/" = RouteDashboard)
  /\ route "DELETE" ("/api/keys/" ++ pathname)%string = RouteDeleteKey
  /\ (method <> "OPTIONS" -> method <> "GET" -> method <> "POST" ->
      method <> "DELETE" -> pathname <> "/" ->
      route method pathname = RouteNotFound).
Proof.
  split; [reflexivity |]. split; [| split].
  - intros H. unfold route.
    destruct (String.eqb_spec method "OPTIONS"); [contradiction | reflexivity].
  - unfold route.
    change (String.eqb "DELETE" "OPTIONS") with false.
    change (String.eqb "DELETE" "GET") with false.
    change (String.eqb "DELETE" "POST") with false.
    change (String.eqb "DELETE" "DELETE") with true.
    rewrite prefix_append, !andb_false_r. reflexivity.
  - intros H1 H2 H3 H4 Hp. unfold route.
    destruct (String.eqb_spec method "OPTIONS"); [contradiction |].
    destruct (String.eqb_spec pathname "/"); [contradiction |].
    destruct (String.eqb_spec method "GET"); [contradiction |].
    destruct (String.eqb_spec method "POST"); [contradiction |].
    destruct (String.eqb_spec method "DELETE"); [contradiction |].
    rewrite !andb_false_r. reflexivity.
Qed.

Lemma X20_route_precedence_witness :
  route "PUT" "/api/keys" = RouteNotFound
  /\ route "DELETE" "/api/keys/key-1/refresh" = RouteDeleteKey
  /\ route "POST" "/" = RouteDashboard.
Proof.
  destruct (X20_route_precedence "PUT" "/api/keys") as (_ & _ & _ & N).
  destruct (X20_route_precedence "POST" "key-1/refresh") as (_ & D & R & _).
  split; [apply N; discriminate |].
  split; [exact R | apply D; discriminate].
Defined.

(** The store after the report has been computed anew and cached: what a
    read finds there. *)
Lemma with_cache_read (upstream : string -> nat -> FetchOutcome)
  (kv : KVNamespace) (t_run t_put : Z) :
  let report := fresh_report upstream kv t_run in
  let kv' := with_cache kv report t_put in
  cache_data kv' = Some {| cached := report;
                           expiresAt := (t_put + 120 * 1000)%Z |}
  /\ Permutation (map result_id (data report)) (map ApiKey_id (getAllKeys kv'))
  /\ total_count report = List.length (getAllKeys kv')
  /\ (forall p, In p (getAllKeys kv') ->
                In (fst (fetchApiKeyData upstream (ApiKey_id p) (ApiKey_key p) 0))
                   (data report))
  /\ (forall t t_run' t_put',
        (t < t_put + 120 * 1000)%Z ->
        exists response,
          handleGetData upstream kv' t t_run' t_put' = Some (response, kv', [])
          /\ status response = 200%Z
          /\ body response = JsonData report).
Proof.
  cbv zeta. split; [reflexivity |].
  split; [exact (fresh_report_ids upstream kv t_run) |].
  split; [reflexivity |].
  split; [intros p Hp; exact (fresh_report_entry upstream kv t_run p Hp) |].
  intros t t_run' t_put' Ht.
  unfold handleGetData, getCachedData, kv_get_cache, with_cache.
  cbn [cache_data expiresAt cached].
  apply Z.ltb_lt in Ht. rewrite Ht.
  eexists. split; [reflexivity |]. split; reflexivity.
Qed.

(** X8: after a handler that changes the key store has answered 200 (a
    single add, a delete, a batch delete, or an import that has added a
    key), the cache holds a report with an expiry 120 s after its write,
    and that report is the one of the store as it now is: the ids of its
    entries are the ids of the key pairs of the store, none missing and
    none too many, its total_count is their number, and the result of the
    fetch of every key pair is among its entries. Every report read before
    that expiry answers 200 with exactly that report, leaves the store as
    it is and makes no upstream call. *)
Theorem X8_cache_follows_store (upstream : string -> nat -> FetchOutcome)
  (kv : KVNamespace) (t_run t_put : Z) (reply : Reply) (kv' : KVNamespace)
  (tr : list RunEvent) :
  (exists body newId,
     handleSingleKeyAdd upstream body kv newId t_run t_put
     = Some (reply, kv', tr))
  \/ (exists pathname,
        handleDeleteKey upstream pathname kv t_run t_put = Some (reply, kv', tr))
  \/ (exists body,
        handleBatchDeleteKeys upstream body kv t_run t_put
        = Some (reply, kv', tr))
  \/ (exists items newIds added skipped,
        handleBatchImport upstream items kv newIds t_run t_put
        = Some (reply, kv', tr)
        /\ reply_body reply = ReplyImport added skipped /\ 0 < added) ->
  reply_status reply = 200%Z ->
  exists report,
    cache_data kv' = Some {| cached := report;
                             expiresAt := (t_put + 120 * 1000)%Z |}
    /\ Permutation (map result_id (data report)) (map ApiKey_id (getAllKeys kv'))
    /\ total_count report = List.length (getAllKeys kv')
    /\ (forall p, In p (getAllKeys kv') ->
                  In (fst (fetchApiKeyData upstream (ApiKey_id p) (ApiKey_key p) 0))
                     (data report))
    /\ (forall t t_run' t_put',
          (t < t_put + 120 * 1000)%Z ->
          exists response,
            handleGetData upstream kv' t t_run' t_put' = Some (response, kv', [])
            /\ status response = 200%Z
            /\ body response = JsonData report).
Proof.
  intros H Hs.
  assert (G : exists kv1,
             kv' = with_cache kv1 (fresh_report upstream kv1 t_run) t_put).
  { destruct H as [(body & newId & H) | [(pathname & H) | [(body & H) | H]]].
    - unfold handleSingleKeyAdd in H.
      destruct body as [|key];
        [injection H as <- _ _; discriminate Hs |].
      destruct (key_falsy key); [injection H as <- _ _; discriminate Hs |].
      destruct (key_exists kv key); [injection H as <- _ _; discriminate Hs |].
      destruct (refreshCache_eq upstream (addKey kv newId (key_text key))
                  t_run t_put) as (tr1 & _ & E & _).
      rewrite E in H. injection H as _ <- _. eexists. reflexivity.
    - unfold handleDeleteKey in H.
      destruct (split_second "/api/keys/" pathname) as [id|];
        [| injection H as <- _ _; discriminate Hs].
      destruct (String.eqb id ""); [injection H as <- _ _; discriminate Hs |].
      destruct (refreshCache_eq upstream (deleteKey kv id) t_run t_put)
        as (tr1 & _ & E & _).
      rewrite E in H. injection H as _ <- _. eexists. reflexivity.
    - unfold handleBatchDeleteKeys in H.
      destruct body as [message|[[|i ids]|]];
        try (injection H as <- _ _; discriminate Hs).
      destruct (refreshCache_eq upstream (fold_left deleteKey (i :: ids) kv)
                  t_run t_put) as (tr1 & _ & E & _).
      rewrite E in H. injection H as _ <- _. eexists. reflexivity.
    - destruct H as (items & newIds & added & skipped & H & Hb & Hpos).
      destruct (handleBatchImport_eq upstream items kv newIds t_run t_put)
        as (tr1 & E & _). cbv zeta in E.
      rewrite E in H. injection H as <- <- _.
      cbn [createJsonReply reply_body] in Hb. injection Hb as <- _.
      apply Nat.ltb_lt in Hpos. rewrite Hpos. eexists. reflexivity. }
  destruct G as (kv1 & ->).
  exists (fresh_report upstream kv1 t_run).
  exact (with_cache_read upstream kv1 t_run t_put).
Qed.

Lemma X8_cache_follows_store_witness :
  exists reply kv' tr response,
    handleDeleteKey sample_upstream "/api/keys/b" sample_kv
      1709210096790 1709210100000
    = Some (reply, kv', tr)
    /\ reply_status reply = 200%Z
    /\ handleGetData sample_upstream kv' 1709210219999 0 0
       = Some (response, kv', [])
    /\ status response = 200%Z.
Proof.
  destruct (handleDeleteKey sample_upstream "/api/keys/b" sample_kv
              1709210096790 1709210100000) as [[[reply kv'] tr]|] eqn:E;
    [| vm_compute in E; discriminate E].
  assert (Hs : reply_status reply = 200%Z).
  { assert (A : option_map (fun x => reply_status (fst (fst x)))
                  (handleDeleteKey sample_upstream "/api/keys/b" sample_kv
                     1709210096790 1709210100000) = Some 200%Z)
      by (vm_compute; reflexivity).
    rewrite E in A. cbn [option_map fst] in A. now injection A. }
  destruct (X8_cache_follows_store sample_upstream sample_kv
              1709210096790 1709210100000 reply kv' tr
              (or_intror (or_introl (ex_intro _ "/api/keys/b"%string E))) Hs)
    as (report & _ & _ & _ & _ & H).
  destruct (H 1709210219999%Z 0%Z 0%Z ltac:(lia)) as (response & Er & Hr & _).
  exists reply, kv', tr, response. split; [reflexivity |].
  split; [exact Hs |]. split; [exact Er | exact Hr].
Defined.

(** A key that is not a text is never among the stored texts. *)
Lemma scalar_not_stored (kv : KVNamespace) (c : ascii) (text : string) :
  existsb (same_value (KeyScalar c text)) (stored_texts kv) = false.
Proof.
  unfold stored_texts. induction (getAllKeys kv) as [|p l IH]; [reflexivity |].
  cbn [map existsb same_value orb]. exact IH.
Qed.

(** X21: importing the same items a second time adds nothing when their
    keys are texts: after an import whose new ids were pairwise distinct
    and not in the store, a second import of the same items, whatever its
    new ids, reports 0 keys added and every keyed item skipped, leaves the
    store and the cache as they are and makes no upstream call. A key that
    is a number (or [true]) is added by every import, whatever the store
    holds. *)
Theorem X21_reimport_adds_nothing (upstream : string -> nat -> FetchOutcome)
  (items : list KeyBody) (kv : KVNamespace) (newIds : nat -> string)
  (t_run t_put : Z) :
  ((forall n m, newIds n = newIds m -> n = m) ->
   (forall n, kv_get (newIds n) (api_keys kv) = None) ->
   text_keys items ->
   exists added skipped kv' tr,
     handleBatchImport upstream items kv newIds t_run t_put
     = Some (createJsonReply (ReplyImport added skipped), kv', tr)
     /\ (forall newIds' t_run' t_put',
           handleBatchImport upstream items kv' newIds' t_run' t_put'
           = Some (createJsonReply (ReplyImport 0 (count_keyed items)), kv', [])))
  /\ (forall c text,
        exists kv' tr,
          handleBatchImport upstream [WithKey (KeyScalar c text)] kv newIds
            t_run t_put
          = Some (createJsonReply (ReplyImport 1 0), kv', tr)
          /\ kv_get (newIds 0) (api_keys kv') = Some (String c text)).
Proof.
  split.
  - intros Hinj Hfresh Htext.
    destruct (handleBatchImport_stores upstream items kv newIds t_run t_put
                Hinj Hfresh) as (added & skipped & kv' & tr & E & _ & Hnew & _).
    exists added, skipped, kv', tr. split; [exact E |].
    intros newIds' t_run' t_put'.
    destruct (handleBatchImport_counts upstream items kv' newIds' t_run' t_put')
      as (a & s & kv2 & tr2 & E2 & Hsum & Hnone & Hall).
    assert (A0 : a = 0).
    { apply Hall. intros key Hin Hk. destruct (Htext key Hin) as (t & ->).
      exists t. split; [reflexivity |]. exact (Hnew (KeyText t) Hk Hin). }
    subst a. destruct (Hnone eq_refl) as [-> ->].
    simpl in Hsum. subst s. exact E2.
  - intros c text.
    destruct (handleBatchImport_eq upstream [WithKey (KeyScalar c text)] kv
                newIds t_run t_put) as (tr & E & _).
    cbv zeta in E. cbn [importLoop key_falsy orb] in E.
    rewrite scalar_not_stored in E. cbn [fst snd Nat.ltb Nat.leb key_text] in E.
    eexists. exists tr. split; [exact E |].
    unfold with_cache, addKey, kv_put. cbn [api_keys].
    apply kv_get_place_eq, kv_get_remove_eq.
Qed.

Lemma X21_reimport_adds_nothing_witness :
  exists kv' tr,
    handleBatchImport sample_upstream sample_import sample_kv sample_ids 0 0
    = Some (createJsonReply (ReplyImport 2 2), kv', tr)
    /\ handleBatchImport sample_upstream sample_import kv' sample_ids 0 0
       = Some (createJsonReply (ReplyImport 0 4), kv', []).
Proof.
  assert (T : text_keys sample_import).
  { intros key Hin. simpl in Hin.
    repeat (destruct Hin as [Hin | Hin];
            [try discriminate Hin; injection Hin as <-; eexists; reflexivity |]).
    destruct Hin. }
  destruct (proj1 (X21_reimport_adds_nothing sample_upstream sample_import
                     sample_kv sample_ids 0 0) sample_ids_inj
              (fun n => eq_refl) T)
    as (added & skipped & kv' & tr & E & H).
  assert (A : option_map (fun x => fst (fst x))
                (handleBatchImport sample_upstream sample_import sample_kv
                   sample_ids 0 0)
              = Some (createJsonReply (ReplyImport 2 2)))
    by (vm_compute; reflexivity).
  rewrite E in A. cbn [option_map fst] in A. unfold createJsonReply in A.
  injection A as -> ->.
  exists kv', tr. split; [exact E | apply H].
Defined.
